(** * BOX_v4: basketball game manager (src/app.js)

    A shallow embedding of the court-zone classifier [CourtZoneDetector] and
    of the game-state engine of [BasketballGameManagerPro]: the stat
    aggregator, the undo stack, the clock callbacks and period handling.

    Conventions of the embedding
    - JavaScript numbers that hold counters, scores and seconds are [Z].
    - SVG coordinates and court dimensions are exact rationals [Q]. The
      implementation of [Math.hypot] is a parameter of the zone detector:
      it decides a comparison with a radius where the exact distance is
      within a relative [2^-50] of the radius, and elsewhere the
      comparison is that of the exact squares (all radii of the source
      are positive).
    - An interval handle of [this] is a boolean, set while the handle
      holds an interval; the intervals that run although their handle was
      overwritten by a later [setInterval] are counted apart, and keep
      firing.
    - [this.currentGame.stats] is a [gmap] from player id to statistics.
    - A method of the application object is a function [App -> result]: the
      fields of [this] it reads and writes are the fields of [App]. An
      uncaught [TypeError] (a property read on [null]/[undefined]) is the
      outcome [TypeError], carrying the state reached when it was thrown.
    - DOM updates, alerts and [localStorage] writes do not touch the modelled
      state and are left out, but for the two player drop-downs, whose value
      the engine reads back; [Date.now()], [Math.random()] and the user's
      answer to a confirmation dialog are inputs ([Env]). A callback passed
      to a dialog's [then] runs at once; the refresh that [switchPage]
      defers by 100 ms is not run.
    - [JSON.parse(JSON.stringify(v))] of the three aggregates is the value
      [v] itself: values here are immutable, so a copy cannot alias. *)

From Stdlib Require Import ZArith QArith Qabs Qround Lqa String Ascii List Bool Lia.
From stdpp Require Import gmap strings list fin_maps pretty.
Import ListNotations.

Local Open Scope string_scope.
Local Open Scope Z_scope.

(** ** Court geometry *)

Record CourtDims := {
  width : Q; height : Q;
  basketX : Q; basketY : Q; backboardY : Q;
  baselineY : Q;
  keyWidth : Q; keyHeight : Q; keyLeftX : Q; keyRightX : Q;
  ftCircleRadius : Q; restrictedRadius : Q;
  threePointRadius : Q; threePointLineX : Q; threePointY : Q;
  halfCourtY : Q;
  logoShotStartY : Q
}.

Definition FIBA_DIMS : CourtDims := {|
  width := 1500; height := 1400;
  basketX := 750; basketY := 157.5; backboardY := 120;
  baselineY := 0;
  keyWidth := 490; keyHeight := 580; keyLeftX := 505; keyRightX := 995;
  ftCircleRadius := 180; restrictedRadius := 125;
  threePointRadius := 675; threePointLineX := 90; threePointY := 299.1;
  halfCourtY := 1400;
  logoShotStartY := 1100
|}%Q.

Definition NBA_DIMS : CourtDims := {|
  width := 500; height := 470;
  basketX := 250; basketY := 52.5; backboardY := 40;
  baselineY := 0;
  keyWidth := 160; keyHeight := 190; keyLeftX := 170; keyRightX := 330;
  ftCircleRadius := 60; restrictedRadius := 40;
  threePointRadius := 237.5; threePointLineX := 30; threePointY := 140;
  halfCourtY := 470;
  logoShotStartY := 380
|}%Q.

(** The comparisons of the source, as booleans on [Q]. *)
Definition Qleb (a b : Q) : bool := Qle_bool a b.
Definition Qltb (a b : Q) : bool := negb (Qle_bool b a).

(** [Math.hypot] returns a double that approximates the distance, and the
    language leaves the rounding to the implementation. The implementation
    in use is a parameter of the zone detector: [Hypot] is its result on
    the absolute values of the two differences. The model relies on it
    exactly where the rounding can decide a comparison with a radius [r],
    which is where the exact distance is within [2^-50] of [r], relatively
    ([nearCircle]; the bound covers the rounding of the two differences, of
    the squares, of their sum and of the root); elsewhere the comparison is
    that of the exact squares, with which every such implementation
    agrees. *)
Definition Hypot := Q -> Q -> Q.

Definition hypotTolerance : Q := 1 # 1125899906842624.

Definition nearCircle (dx dy r : Q) : bool :=
  Qleb ((1 - hypotTolerance) * (1 - hypotTolerance) * (r * r)) (dx * dx + dy * dy)
  && Qleb (dx * dx + dy * dy) ((1 + hypotTolerance) * (1 + hypotTolerance) * (r * r)).

(** [const dist = Math.hypot(dx, dy)] *)
Definition dist (hypot : Hypot) (dx dy : Q) : Q :=
  hypot (Qred (Qabs dx)) (Qred (Qabs dy)).

(** [dist <= r] and [dist > r], for [0 <= r]. *)
Definition hypot_le (hypot : Hypot) (dx dy r : Q) : bool :=
  if nearCircle dx dy r then Qleb (dist hypot dx dy) r
  else Qleb (dx * dx + dy * dy) (r * r).
Definition hypot_gt (hypot : Hypot) (dx dy r : Q) : bool :=
  if nearCircle dx dy r then Qltb r (dist hypot dx dy)
  else Qltb (r * r) (dx * dx + dy * dy).

(** An implementation for the examples: the distance rounded down to a
    multiple of [2^-52]. *)
Definition hypotDown : Hypot :=
  fun dx dy =>
    Z.sqrt (Qfloor ((dx * dx + dy * dy) * inject_Z (2 ^ 104))) # 4503599627370496.

Record Zone := { name : string; details : string }.

Module CourtZoneDetector.

Definition isInPaint (court : CourtDims) (x y : Q) : bool :=
  Qleb (keyLeftX court) x && Qleb x (keyRightX court)
  && Qleb (baselineY court) y && Qleb y (keyHeight court).

Definition isCornerThree (court : CourtDims) (x y : Q) : bool :=
  Qleb y (threePointY court)
  && (Qltb x (threePointLineX court)
      || Qltb (width court - threePointLineX court) x).

Definition isAtFreeThrowLine (court : CourtDims) (x y : Q) : bool :=
  let ftLineY := keyHeight court in
  Qltb (ftLineY - 20) y && Qltb y (ftLineY + 20)
  && Qltb (keyLeftX court) x && Qltb x (keyRightX court).

(** [dist <= this.court.restrictedRadius] *)
Definition inRestrictedArea (hypot : Hypot) (court : CourtDims) (x y : Q) : bool :=
  hypot_le hypot (x - basketX court) (y - basketY court) (restrictedRadius court).

(** [dist > this.court.threePointRadius] *)
Definition beyondThreePointRadius (hypot : Hypot) (court : CourtDims) (x y : Q) : bool :=
  hypot_gt hypot (x - basketX court) (y - basketY court) (threePointRadius court).

Definition detectZone (hypot : Hypot) (court : CourtDims) (x y : Q) : Zone :=
  if isAtFreeThrowLine court x y
  then {| name := "free-throw"; details := "Free Throw Line" |}
  else if inRestrictedArea hypot court x y
  then {| name := "paint"; details := "Restricted Area" |}
  else if isInPaint court x y
  then {| name := "paint"; details := "In the Paint" |}
  else if Qltb (logoShotStartY court) y
  then {| name := "logo-shot"; details := "Logo Shot" |}
  else if isCornerThree court x y
  then {| name := "corner-three"; details := "Corner 3" |}
  else if beyondThreePointRadius hypot court x y
  then {| name := "three-point"; details := "Three-Point Range" |}
  else {| name := "mid-range"; details := "Mid-Range" |}.

End CourtZoneDetector.

(** ** Strings: the JavaScript string methods the engine uses *)

(** [s.startsWith(p)] *)
Definition startsWith (s p : string) : bool := String.prefix p s.

(** [s.includes(sub)] *)
Fixpoint includes (s sub : string) : bool :=
  String.prefix sub s
  || match s with
     | EmptyString => false
     | String _ s' => includes s' sub
     end.

(** [s.split(c)] for a one-character separator: never the empty array. *)
Fixpoint split (c : ascii) (s : string) : list string :=
  match s with
  | EmptyString => [EmptyString]
  | String a s' =>
      if Ascii.eqb a c then EmptyString :: split c s'
      else match split c s' with
           | h :: t => String a h :: t
           | [] => [String a EmptyString]
           end
  end.

(** [s.padStart(2, '0')] *)
Definition padStart2 (s : string) : string :=
  match String.length s with
  | O => "00"
  | S O => "0" ++ s
  | _ => s
  end.

(** Template-literal rendering of a number, and of a possibly missing one. *)
Definition showZ (z : Z) : string := pretty z.
Definition showOptZ (o : option Z) : string :=
  match o with Some z => showZ z | None => "undefined" end.
Definition showOpt (o : option string) : string :=
  match o with Some s => s | None => "undefined" end.

(** ** Data model *)

Inductive Team := home | away.
Inductive Status := setup | ready | live | paused | final.

Definition Team_eqb (s t : Team) : bool :=
  match s, t with home, home | away, away => true | _, _ => false end.

Definition teamName (t : Team) : string :=
  match t with home => "home" | away => "away" end.

(** An object [{ home: _, away: _ }]. *)
Record HomeAway (A : Type) := mkHomeAway { at_home : A; at_away : A }.
Arguments mkHomeAway {A}.
Arguments at_home {A}.
Arguments at_away {A}.

Definition getSide {A} (t : Team) (o : HomeAway A) : A :=
  match t with home => at_home o | away => at_away o end.
Definition setSide {A} (t : Team) (v : A) (o : HomeAway A) : HomeAway A :=
  match t with
  | home => mkHomeAway v (at_away o)
  | away => mkHomeAway (at_home o) v
  end.

Record GameState := mkGameState {
  period : Z; gameTime : Z; shotClock : Z;
  scores : HomeAway Z; fouls : HomeAway Z; timeouts : HomeAway Z
}.

Record MadeAttempted := mkMA { made : Z; attempted : Z }.

Record PlayerStats := mkPlayerStats {
  points : Z; rebounds : Z; assists : Z; s_fouls : Z; steals : Z;
  blocks : Z; turnovers : Z;
  fieldGoals : MadeAttempted; threePointers : MadeAttempted;
  freeThrows : MadeAttempted
}.

Record Analytics := mkAnalytics {
  totalShots : Z; madeShots : Z; threePointAttempts : Z;
  threePointMakes : Z; totalActions : Z
}.

Record Settings := mkSettings {
  gameFormat : string; periodDuration : Z; timeoutsPerTeam : Z;
  foulLimit : Z; shotClockEnabled : bool; shotClockTime : Z
}.

Record Player := mkPlayer {
  p_name : string; p_number : Z; p_position : string; p_id : string
}.

Record TeamInfo := mkTeamInfo {
  t_name : string; t_color : string; players : list Player
}.

(** The three shapes of action object the engine builds (a court
    [statEntry], a [quickStat] action, a [teamStatAdjustment]) share one
    record; a field an object does not have is [None]. The wall-clock
    [timestamp] is never read and is left out. *)
Record Action := mkAction {
  a_id : string;
  a_type : string;
  a_playerId : option string;
  a_playerNumber : option Z;
  a_playerName : option string;
  a_team : option Team;
  a_action : option string;
  a_location : option (Q * Q);
  a_distance : option string;
  a_period : option Z;
  a_gameClock : option string;
  a_result : option string;
  a_points : option Z;
  a_shotType : option string;
  a_statType : option string;
  a_stat : option string;
  a_oldValue : option Z;
  a_newValue : option Z
}.

Record PlayEvent := mkPlayEvent {
  e_message : string; e_time : string; e_period : Z
}.

Record Game := mkGame {
  g_code : string; g_name : string; adminPassword : string;
  g_type : string; status : Status;
  settings : Settings;
  teams : HomeAway TeamInfo;
  gameState : GameState;
  stats : gmap string PlayerStats;
  shots : list Action;
  playByPlay : list PlayEvent;
  analytics : Analytics
}.

Record UndoEntry := mkUndoEntry {
  action : Action;
  gameStateBefore : GameState;
  statsBefore : gmap string PlayerStats;
  analyticsBefore : Analytics
}.

(** The part of [ProfessionalCourtInterface] the engine talks to. *)
Record CourtInterface := mkCourtInterface {
  courtType : string;
  actionsToDisplay : list Action
}.

(** The application object. [clockInterval] and [shotClockInterval] tell
    whether the handle holds a running interval. The two [..PlayerSelect]
    fields are the [value] of the page's two player drop-downs ([None]: the
    element is not in the page); the engine reads them back when it
    refreshes the displays. The last two fields belong to the browser's
    timer table rather than to the object: the number of game-clock and of
    shot-clock intervals that still run although no handle refers to them
    any more. *)
Record App := mkApp {
  currentGame : option Game;
  currentGameCode : option string;
  isAdmin : bool;
  clockInterval : bool;
  shotClockInterval : bool;
  selectedQuickPlayer : option string;
  selectedCourtPlayer : option string;
  selectedQuickTeam : Team;
  selectedCourtTeam : Team;
  undoStack : list UndoEntry;
  courtInterface : option CourtInterface;
  quickPlayerSelect : option string;
  courtPlayerSelect : option string;
  strayClockIntervals : nat;
  strayShotClockIntervals : nat
}.

(** What a call takes from outside the engine: the fresh action id
    ([Date.now() + '_' + Math.random()...]), the text returned by the court
    view's [calculateDistance], whether the dialog library [Swal] is loaded,
    and the user's answer to a confirmation dialog. *)
Record Env := mkEnv {
  env_id : string; env_distance : string; env_swal : bool; env_confirmed : bool
}.

Inductive result := Ok (a : App) | TypeError (a : App).

Definition andThen (r : result) (k : App -> result) : result :=
  match r with Ok a => k a | TypeError a => TypeError a end.

Notation "r >>> k" := (andThen r k) (at level 61, left associativity).

Definition stateOf (r : result) : App :=
  match r with Ok a | TypeError a => a end.

(** ** Field updates *)

Definition set_period (v : Z) (s : GameState) : GameState :=
  mkGameState v (gameTime s) (shotClock s) (scores s) (fouls s) (timeouts s).
Definition set_gameTime (v : Z) (s : GameState) : GameState :=
  mkGameState (period s) v (shotClock s) (scores s) (fouls s) (timeouts s).
Definition set_shotClock (v : Z) (s : GameState) : GameState :=
  mkGameState (period s) (gameTime s) v (scores s) (fouls s) (timeouts s).
Definition set_scores (v : HomeAway Z) (s : GameState) : GameState :=
  mkGameState (period s) (gameTime s) (shotClock s) v (fouls s) (timeouts s).
Definition set_fouls (v : HomeAway Z) (s : GameState) : GameState :=
  mkGameState (period s) (gameTime s) (shotClock s) (scores s) v (timeouts s).
Definition set_timeouts (v : HomeAway Z) (s : GameState) : GameState :=
  mkGameState (period s) (gameTime s) (shotClock s) (scores s) (fouls s) v.

Definition set_status (v : Status) (g : Game) : Game :=
  mkGame (g_code g) (g_name g) (adminPassword g) (g_type g) v (settings g)
         (teams g) (gameState g) (stats g) (shots g) (playByPlay g)
         (analytics g).
Definition set_teams (v : HomeAway TeamInfo) (g : Game) : Game :=
  mkGame (g_code g) (g_name g) (adminPassword g) (g_type g) (status g)
         (settings g) v (gameState g) (stats g) (shots g) (playByPlay g)
         (analytics g).
Definition set_gameState (v : GameState) (g : Game) : Game :=
  mkGame (g_code g) (g_name g) (adminPassword g) (g_type g) (status g)
         (settings g) (teams g) v (stats g) (shots g) (playByPlay g)
         (analytics g).
Definition set_stats (v : gmap string PlayerStats) (g : Game) : Game :=
  mkGame (g_code g) (g_name g) (adminPassword g) (g_type g) (status g)
         (settings g) (teams g) (gameState g) v (shots g) (playByPlay g)
         (analytics g).
Definition set_shots (v : list Action) (g : Game) : Game :=
  mkGame (g_code g) (g_name g) (adminPassword g) (g_type g) (status g)
         (settings g) (teams g) (gameState g) (stats g) v (playByPlay g)
         (analytics g).
Definition set_playByPlay (v : list PlayEvent) (g : Game) : Game :=
  mkGame (g_code g) (g_name g) (adminPassword g) (g_type g) (status g)
         (settings g) (teams g) (gameState g) (stats g) (shots g) v
         (analytics g).
Definition set_analytics (v : Analytics) (g : Game) : Game :=
  mkGame (g_code g) (g_name g) (adminPassword g) (g_type g) (status g)
         (settings g) (teams g) (gameState g) (stats g) (shots g)
         (playByPlay g) v.

Definition set_currentGame (v : option Game) (a : App) : App :=
  mkApp v (currentGameCode a) (isAdmin a) (clockInterval a)
        (shotClockInterval a) (selectedQuickPlayer a) (selectedCourtPlayer a)
        (selectedQuickTeam a) (selectedCourtTeam a) (undoStack a)
        (courtInterface a) (quickPlayerSelect a)
        (courtPlayerSelect a) (strayClockIntervals a) (strayShotClockIntervals a).
Definition set_identity (code : option string) (admin : bool) (a : App) : App :=
  mkApp (currentGame a) code admin (clockInterval a)
        (shotClockInterval a) (selectedQuickPlayer a) (selectedCourtPlayer a)
        (selectedQuickTeam a) (selectedCourtTeam a) (undoStack a)
        (courtInterface a) (quickPlayerSelect a)
        (courtPlayerSelect a) (strayClockIntervals a) (strayShotClockIntervals a).
Definition set_clockInterval (v : bool) (a : App) : App :=
  mkApp (currentGame a) (currentGameCode a) (isAdmin a) v
        (shotClockInterval a) (selectedQuickPlayer a) (selectedCourtPlayer a)
        (selectedQuickTeam a) (selectedCourtTeam a) (undoStack a)
        (courtInterface a) (quickPlayerSelect a)
        (courtPlayerSelect a) (strayClockIntervals a) (strayShotClockIntervals a).
Definition set_shotClockInterval (v : bool) (a : App) : App :=
  mkApp (currentGame a) (currentGameCode a) (isAdmin a) (clockInterval a)
        v (selectedQuickPlayer a) (selectedCourtPlayer a)
        (selectedQuickTeam a) (selectedCourtTeam a) (undoStack a)
        (courtInterface a) (quickPlayerSelect a)
        (courtPlayerSelect a) (strayClockIntervals a) (strayShotClockIntervals a).
(** The quick drop-down: its [value] and [this.selectedQuickPlayer]. *)
Definition set_quickSelection (sel : option string) (dom : option string)
    (a : App) : App :=
  mkApp (currentGame a) (currentGameCode a) (isAdmin a) (clockInterval a)
        (shotClockInterval a) sel (selectedCourtPlayer a)
        (selectedQuickTeam a) (selectedCourtTeam a) (undoStack a)
        (courtInterface a) dom
        (courtPlayerSelect a) (strayClockIntervals a) (strayShotClockIntervals a).
(** The court drop-down: its [value] and [this.selectedCourtPlayer]. *)
Definition set_courtSelection (sel : option string) (dom : option string)
    (a : App) : App :=
  mkApp (currentGame a) (currentGameCode a) (isAdmin a) (clockInterval a)
        (shotClockInterval a) (selectedQuickPlayer a) sel
        (selectedQuickTeam a) (selectedCourtTeam a) (undoStack a)
        (courtInterface a) (quickPlayerSelect a)
        dom (strayClockIntervals a) (strayShotClockIntervals a).
Definition set_selectedQuickTeam (v : Team) (a : App) : App :=
  mkApp (currentGame a) (currentGameCode a) (isAdmin a) (clockInterval a)
        (shotClockInterval a) (selectedQuickPlayer a) (selectedCourtPlayer a)
        v (selectedCourtTeam a) (undoStack a)
        (courtInterface a) (quickPlayerSelect a)
        (courtPlayerSelect a) (strayClockIntervals a) (strayShotClockIntervals a).
Definition set_selectedCourtTeam (v : Team) (a : App) : App :=
  mkApp (currentGame a) (currentGameCode a) (isAdmin a) (clockInterval a)
        (shotClockInterval a) (selectedQuickPlayer a) (selectedCourtPlayer a)
        (selectedQuickTeam a) v (undoStack a)
        (courtInterface a) (quickPlayerSelect a)
        (courtPlayerSelect a) (strayClockIntervals a) (strayShotClockIntervals a).
Definition set_undoStack (v : list UndoEntry) (a : App) : App :=
  mkApp (currentGame a) (currentGameCode a) (isAdmin a) (clockInterval a)
        (shotClockInterval a) (selectedQuickPlayer a) (selectedCourtPlayer a)
        (selectedQuickTeam a) (selectedCourtTeam a) v
        (courtInterface a) (quickPlayerSelect a)
        (courtPlayerSelect a) (strayClockIntervals a) (strayShotClockIntervals a).
Definition set_courtInterface (v : option CourtInterface) (a : App) : App :=
  mkApp (currentGame a) (currentGameCode a) (isAdmin a) (clockInterval a)
        (shotClockInterval a) (selectedQuickPlayer a) (selectedCourtPlayer a)
        (selectedQuickTeam a) (selectedCourtTeam a) (undoStack a)
        v (quickPlayerSelect a)
        (courtPlayerSelect a) (strayClockIntervals a) (strayShotClockIntervals a).

(** The browser's timer table. *)
Definition set_strayClockIntervals (v : nat) (a : App) : App :=
  mkApp (currentGame a) (currentGameCode a) (isAdmin a) (clockInterval a)
        (shotClockInterval a) (selectedQuickPlayer a) (selectedCourtPlayer a)
        (selectedQuickTeam a) (selectedCourtTeam a) (undoStack a)
        (courtInterface a) (quickPlayerSelect a)
        (courtPlayerSelect a) v (strayShotClockIntervals a).
Definition set_strayShotClockIntervals (v : nat) (a : App) : App :=
  mkApp (currentGame a) (currentGameCode a) (isAdmin a) (clockInterval a)
        (shotClockInterval a) (selectedQuickPlayer a) (selectedCourtPlayer a)
        (selectedQuickTeam a) (selectedCourtTeam a) (undoStack a)
        (courtInterface a) (quickPlayerSelect a)
        (courtPlayerSelect a) (strayClockIntervals a) v.

(** [this.currentGame.<...> = ...]: a write through [this.currentGame],
    a [TypeError] when it is [null]. *)
Definition onGame (f : Game -> Game) (a : App) : result :=
  match currentGame a with
  | Some g => Ok (set_currentGame (Some (f g)) a)
  | None => TypeError a
  end.

Definition onGameState (f : GameState -> GameState) : App -> result :=
  onGame (fun g => set_gameState (f (gameState g)) g).
Definition onAnalytics (f : Analytics -> Analytics) : App -> result :=
  onGame (fun g => set_analytics (f (analytics g)) g).

(** [stats.<counter>++] through a reference [stats = this.currentGame.stats[id]]:
    the object is reached through its key only, so the reference is the key;
    the first property read on [undefined] throws. *)
Definition withStats (key : string) (f : PlayerStats -> PlayerStats)
    (a : App) : result :=
  match currentGame a with
  | None => TypeError a
  | Some g =>
      match stats g !! key with
      | None => TypeError a
      | Some s => Ok (set_currentGame (Some (set_stats (<[key := f s]> (stats g)) g)) a)
      end
  end.

Definition incMade (m : MadeAttempted) : MadeAttempted :=
  mkMA (made m + 1) (attempted m).
Definition incAttempted (m : MadeAttempted) : MadeAttempted :=
  mkMA (made m) (attempted m + 1).

Definition add_points (n : Z) (s : PlayerStats) : PlayerStats :=
  mkPlayerStats (points s + n) (rebounds s) (assists s) (s_fouls s) (steals s)
    (blocks s) (turnovers s) (fieldGoals s) (threePointers s) (freeThrows s).
Definition inc_rebounds (s : PlayerStats) : PlayerStats :=
  mkPlayerStats (points s) (rebounds s + 1) (assists s) (s_fouls s) (steals s)
    (blocks s) (turnovers s) (fieldGoals s) (threePointers s) (freeThrows s).
Definition inc_assists (s : PlayerStats) : PlayerStats :=
  mkPlayerStats (points s) (rebounds s) (assists s + 1) (s_fouls s) (steals s)
    (blocks s) (turnovers s) (fieldGoals s) (threePointers s) (freeThrows s).
Definition inc_steals (s : PlayerStats) : PlayerStats :=
  mkPlayerStats (points s) (rebounds s) (assists s) (s_fouls s) (steals s + 1)
    (blocks s) (turnovers s) (fieldGoals s) (threePointers s) (freeThrows s).
Definition inc_blocks (s : PlayerStats) : PlayerStats :=
  mkPlayerStats (points s) (rebounds s) (assists s) (s_fouls s) (steals s)
    (blocks s + 1) (turnovers s) (fieldGoals s) (threePointers s) (freeThrows s).
Definition inc_turnovers (s : PlayerStats) : PlayerStats :=
  mkPlayerStats (points s) (rebounds s) (assists s) (s_fouls s) (steals s)
    (blocks s) (turnovers s + 1) (fieldGoals s) (threePointers s) (freeThrows s).
Definition on_fieldGoals (f : MadeAttempted -> MadeAttempted) (s : PlayerStats) :=
  mkPlayerStats (points s) (rebounds s) (assists s) (s_fouls s) (steals s)
    (blocks s) (turnovers s) (f (fieldGoals s)) (threePointers s) (freeThrows s).
Definition on_threePointers (f : MadeAttempted -> MadeAttempted) (s : PlayerStats) :=
  mkPlayerStats (points s) (rebounds s) (assists s) (s_fouls s) (steals s)
    (blocks s) (turnovers s) (fieldGoals s) (f (threePointers s)) (freeThrows s).
Definition on_freeThrows (f : MadeAttempted -> MadeAttempted) (s : PlayerStats) :=
  mkPlayerStats (points s) (rebounds s) (assists s) (s_fouls s) (steals s)
    (blocks s) (turnovers s) (fieldGoals s) (threePointers s) (f (freeThrows s)).

Definition inc_totalShots (n : Analytics) : Analytics :=
  mkAnalytics (totalShots n + 1) (madeShots n) (threePointAttempts n)
    (threePointMakes n) (totalActions n).
Definition inc_madeShots (n : Analytics) : Analytics :=
  mkAnalytics (totalShots n) (madeShots n + 1) (threePointAttempts n)
    (threePointMakes n) (totalActions n).
Definition inc_threePointAttempts (n : Analytics) : Analytics :=
  mkAnalytics (totalShots n) (madeShots n) (threePointAttempts n + 1)
    (threePointMakes n) (totalActions n).
Definition inc_threePointMakes (n : Analytics) : Analytics :=
  mkAnalytics (totalShots n) (madeShots n) (threePointAttempts n)
    (threePointMakes n + 1) (totalActions n).
Definition inc_totalActions (n : Analytics) : Analytics :=
  mkAnalytics (totalShots n) (madeShots n) (threePointAttempts n)
    (threePointMakes n) (totalActions n + 1).

Definition zeroStats : PlayerStats :=
  mkPlayerStats 0 0 0 0 0 0 0 (mkMA 0 0) (mkMA 0 0) (mkMA 0 0).
Definition zeroAnalytics : Analytics := mkAnalytics 0 0 0 0 0.

(** ** Helpers of [BasketballGameManagerPro] *)

Definition formatTime (seconds : Z) : string :=
  let minutes := seconds / 60 in
  let secs := Z.rem seconds 60 in
  showZ minutes ++ ":" ++ padStart2 (showZ secs).

(** [names[i]] *)
Definition nameAt (names : list string) (i : Z) : option string :=
  if i <? 0 then None else names !! Z.to_nat i.

Definition getPeriodName (p : option Z) (a : App) : string :=
  match currentGame a with
  | None => "1st Quarter"
  | Some g =>
      let cur := period (gameState g) in
      let p := match p with
               | Some v => if v =? 0 then cur else v
               | None => cur
               end in
      if String.eqb (gameFormat (settings g)) "quarters"
      then match nameAt ["1st Quarter"; "2nd Quarter"; "3rd Quarter"; "4th Quarter"] (p - 1) with
           | Some n => n
           | None => "OT" ++ showZ (p - 4)
           end
      else match nameAt ["1st Half"; "2nd Half"] (p - 1) with
           | Some n => n
           | None => "OT" ++ showZ (p - 2)
           end
  end.

Definition findPlayer (playerId : string) (t : TeamInfo) : option Player :=
  List.find (fun p => String.eqb (p_id p) playerId) (players t).

Definition getPlayerById (playerId : string) (a : App) : option Player :=
  match currentGame a with
  | None => None
  | Some g =>
      match findPlayer playerId (at_home (teams g)) with
      | Some p => Some p
      | None => findPlayer playerId (at_away (teams g))
      end
  end.

Definition getPlayerTeam (playerId : string) (a : App) : option Team :=
  match currentGame a with
  | None => None
  | Some g =>
      match findPlayer playerId (at_home (teams g)) with
      | Some _ => Some home
      | None =>
          match findPlayer playerId (at_away (teams g)) with
          | Some _ => Some away
          | None => None
          end
      end
  end.

(** [getSelectedPlayer(type)]; [court] is [type === 'court']. A [null] or
    empty selection is falsy. *)
Definition getSelectedPlayer (court : bool) (a : App) : option Player :=
  let playerId := if court then selectedCourtPlayer a else selectedQuickPlayer a in
  match playerId with
  | None => None
  | Some pid => if String.eqb pid "" then None else getPlayerById pid a
  end.

Definition getAllActionsForTeam (teamId : Team) (a : App) : list Action :=
  match currentGame a with
  | None => []
  | Some g =>
      List.filter
        (fun act => match a_team act with
                    | Some t => Team_eqb t teamId
                    | None => false
                    end)
        (shots g)
  end.

(** [this.courtInterface.updateActionDisplay(actions)] *)
Definition updateActionDisplay (actions : list Action) (a : App) : result :=
  match courtInterface a with
  | None => TypeError a
  | Some ci => Ok (set_courtInterface (Some (mkCourtInterface (courtType ci) actions)) a)
  end.

Definition addPlayByPlayEvent (message : string) (a : App) : App :=
  match currentGame a with
  | None => a
  | Some g =>
      let event := mkPlayEvent message (formatTime (gameTime (gameState g)))
                               (period (gameState g)) in
      let log := event :: playByPlay g in
      let log := if (50 <? length log)%nat then take 50 log else log in
      set_currentGame (Some (set_playByPlay log g)) a
  end.

(** [players.sort((a, b) => a.number - b.number)]: a stable sort. *)
Fixpoint insertByNumber (x : Player) (l : list Player) : list Player :=
  match l with
  | [] => [x]
  | y :: l' =>
      if p_number x <=? p_number y then x :: y :: l'
      else y :: insertByNumber x l'
  end.
Fixpoint sortByNumber (l : list Player) : list Player :=
  match l with
  | [] => []
  | x :: l' => insertByNumber x (sortByNumber l')
  end.

Definition sortTeam (t : Team) (g : Game) : Game :=
  let ti := getSide t (teams g) in
  set_teams (setSide t (mkTeamInfo (t_name ti) (t_color ti) (sortByNumber (players ti)))
                     (teams g)) g.

(** Whether the rebuilt drop-down keeps [currentValue]: it is not empty and
    one of the listed players has it as id. *)
Definition keepsValue (currentValue : string) (t : Team) (g : Game) : bool :=
  negb (String.eqb currentValue "")
  && existsb (fun p => String.eqb (p_id p) currentValue) (players (getSide t (teams g))).

Definition updateQuickPlayerDropdown (a : App) : App :=
  match quickPlayerSelect a, currentGame a with
  | Some currentValue, Some g =>
      let team := selectedQuickTeam a in
      let a := set_currentGame (Some (sortTeam team g)) a in
      if keepsValue currentValue team g
      then set_quickSelection (Some currentValue) (Some currentValue) a
      else set_quickSelection None (Some "") a
  | _, _ => a
  end.

Definition updateCourtPlayerDropdown (a : App) : App :=
  match courtPlayerSelect a, currentGame a with
  | Some currentValue, Some g =>
      let team := selectedCourtTeam a in
      let a := set_currentGame (Some (sortTeam team g)) a in
      if keepsValue currentValue team g
      then set_courtSelection (Some currentValue) (Some currentValue) a
      else set_courtSelection None (Some "") a
  | _, _ => a
  end.

Definition selectQuickTeam (team : Team) (a : App) : App :=
  updateQuickPlayerDropdown (set_selectedQuickTeam team a).

Definition selectCourtTeam (team : Team) (a : App) : App :=
  let a := updateCourtPlayerDropdown (set_selectedCourtTeam team a) in
  match courtInterface a with
  | Some _ => stateOf (updateActionDisplay (getAllActionsForTeam team a) a)
  | None => a
  end.

Definition updatePlayerSelects (a : App) : App :=
  updateCourtPlayerDropdown
    (updateQuickPlayerDropdown (selectCourtTeam home (selectQuickTeam home a))).

(** [updateAllDisplays()]: of the five display updates only
    [updateTeamDisplays] writes to the application object, through
    [updatePlayerSelects] for a game of type ['professional']. *)
Definition updateTeamDisplays (a : App) : App :=
  match currentGame a with
  | None => a
  | Some g =>
      if String.eqb (g_type g) "professional" then updatePlayerSelects a else a
  end.

Definition updateAllDisplays (a : App) : App := updateTeamDisplays a.

(** The user picks the option of value [v] in a drop-down. The quick
    drop-down has a [change] listener ([setupEnhancedQuickStatsEvents]),
    which writes [this.selectedQuickPlayer]. The court drop-down has none:
    [setupEnhancedCourtEvents], which would install it, is never called, so
    the pick changes the control's value only, and
    [this.selectedCourtPlayer] follows at the next rebuild of the
    drop-down. *)
Definition courtPlayerSelectChange (v : string) (a : App) : App :=
  match courtPlayerSelect a with
  | Some _ => set_courtSelection (selectedCourtPlayer a) (Some v) a
  | None => a
  end.
Definition quickPlayerSelectChange (v : string) (a : App) : App :=
  match quickPlayerSelect a with
  | Some _ => set_quickSelection (Some v) (Some v) a
  | None => a
  end.

(** ** Undo stack *)

(** [this.maxUndoStackSize = 20], set by the constructor and never
    assigned again. *)
Definition maxUndoStackSize : nat := 20.

(** [this.undoStack.push(e)], then a [shift()] when the stack has grown
    past its bound. *)
Definition pushUndo (e : UndoEntry) (st : list UndoEntry) : list UndoEntry :=
  let st := (st ++ [e])%list in
  if (maxUndoStackSize <? length st)%nat then tail st else st.

Definition addToUndoStack (act : Action) (a : App) : result :=
  match currentGame a with
  | None => TypeError a
  | Some g =>
      Ok (set_undoStack
            (pushUndo (mkUndoEntry act (gameState g) (stats g) (analytics g))
                      (undoStack a)) a)
  end.

Definition undoLastAction (a : App) : result :=
  if negb (isAdmin a) || (length (undoStack a) =? 0)%nat then Ok a
  else
    match last (undoStack a) with
    | None => Ok a
    | Some undoData =>
        let act := action undoData in
        Ok (set_undoStack (removelast (undoStack a)) a)
        >>> onGame (fun g =>
              set_analytics (analyticsBefore undoData)
                (set_stats (statsBefore undoData)
                   (set_gameState (gameStateBefore undoData) g)))
        >>> onGame (fun g =>
              set_shots
                (List.filter (fun shot => negb (String.eqb (a_id shot) (a_id act)))
                             (shots g)) g)
        >>> (fun a => Ok (addPlayByPlayEvent
                            ("Undone: " ++ a_type act ++ " by #"
                             ++ showOptZ (a_playerNumber act) ++ " "
                             ++ showOpt (a_playerName act)) a))
        >>> (fun a => Ok (updateAllDisplays a))
        >>> (fun a => updateActionDisplay (getAllActionsForTeam (selectedCourtTeam a) a) a)
    end.

(** ** Stat aggregator *)

Definition optIs (o : option string) (s : string) : bool :=
  match o with Some x => String.eqb x s | None => false end.

(** [this.currentGame.settings.shotClockTime || 24] *)
Definition shotClockReset (g : Game) : Z :=
  if shotClockTime (settings g) =? 0 then 24 else shotClockTime (settings g).

Definition resetShotClock (a : App) : result :=
  if negb (isAdmin a) then Ok a
  else onGame (fun g => set_gameState (set_shotClock (shotClockReset g) (gameState g)) g) a.

(** [addScore(team, points)]. The quick path passes the result of
    [getPlayerTeam], [null] when the player is in neither roster: the
    addition then lands on a property that is neither [home] nor [away]. *)
Definition addScore (team : option Team) (pts : Z) (a : App) : result :=
  onGameState (fun s =>
      match team with
      | Some t => set_scores (setSide t (getSide t (scores s) + pts) (scores s)) s
      | None => s
      end) a
  >>> onAnalytics inc_totalActions.

Definition when (b : bool) (k : App -> result) (a : App) : result :=
  if b then k a else Ok a.

(** [handleShotAction(action, stats, team)], [stats] being
    [this.currentGame.stats[key]]. Its one caller always sets [result],
    [shotType] and [points] on [action]. *)
Definition handleShotAction (act : Action) (key : string) (team : Team)
    (a : App) : result :=
  let result := a_result act in
  let shotType := a_shotType act in
  let pts := default 0 (a_points act) in
  let isMake := optIs result "make" in
  (if optIs shotType "3PT" || optIs shotType "logo" then
     withStats key (on_threePointers incAttempted) a
     >>> when isMake (fun a =>
           withStats key (fun s => add_points pts (on_threePointers incMade s)) a
           >>> addScore (Some team) pts)
     >>> onAnalytics inc_threePointAttempts
     >>> when isMake (onAnalytics inc_threePointMakes)
   else if optIs shotType "ft" then
     withStats key (on_freeThrows incAttempted) a
     >>> when isMake (fun a =>
           withStats key (fun s => add_points pts (on_freeThrows incMade s)) a
           >>> addScore (Some team) pts)
   else
     withStats key (on_fieldGoals incAttempted) a
     >>> when isMake (fun a =>
           withStats key (fun s => add_points pts (on_fieldGoals incMade s)) a
           >>> addScore (Some team) pts))
  >>> onAnalytics inc_totalShots
  >>> when isMake (onAnalytics inc_madeShots)
  >>> (fun a =>
        match currentGame a with
        | None => TypeError a
        | Some g => when (isMake && shotClockEnabled (settings g)) resetShotClock a
        end)
  >>> (fun a => Ok (addPlayByPlayEvent
                      ("#" ++ showOptZ (a_playerNumber act) ++ " "
                       ++ showOpt (a_playerName act) ++ " "
                       ++ showOpt result ++ "s " ++ showOpt shotType
                       ++ " (" ++ showOpt (a_gameClock act) ++ ")") a)).

Definition handleStatAction (actionType : string) (key : string)
    (player : Player) (a : App) : result :=
  let line verb := "#" ++ showZ (p_number player) ++ " " ++ p_name player ++ " " ++ verb in
  if String.eqb actionType "rebound" then
    withStats key inc_rebounds a >>> (fun a => Ok (addPlayByPlayEvent (line "rebound") a))
  else if String.eqb actionType "assist" then
    withStats key inc_assists a >>> (fun a => Ok (addPlayByPlayEvent (line "assist") a))
  else if String.eqb actionType "block" then
    withStats key inc_blocks a >>> (fun a => Ok (addPlayByPlayEvent (line "block") a))
  else Ok a.

(** ** Court actions *)

(** The points of a shot: the first of the digits 3, 2, 1 the outcome
    contains, else 0. *)
Definition shotPoints (outcome : string) : Z :=
  if includes outcome "3" then 3
  else if includes outcome "2" then 2
  else if includes outcome "1" then 1
  else 0.

(** [shotType || 'shot'] *)
Definition shotTypeOr (shotType : option string) : string :=
  match shotType with
  | Some s => if String.eqb s "" then "shot" else s
  | None => "shot"
  end.

Definition isShotOutcome (outcome : string) : bool :=
  includes outcome "make" || includes outcome "miss".

(** The [statEntry] of [handleNewCourtAction], once its shot fields or its
    [type] are filled in. *)
Definition statEntry (env : Env) (player : Player) (team : Team)
    (act : string) (location : Q * Q) (g : Game) : Action :=
  let parts := split "-" act in
  let outcome := hd "" parts in
  let shotType := parts !! 1%nat in
  let shot := isShotOutcome outcome in
  {| a_id := env_id env;
     a_type := if shot then "shot" else act;
     a_playerId := Some (p_id player);
     a_playerNumber := Some (p_number player);
     a_playerName := Some (p_name player);
     a_team := Some team;
     a_action := Some act;
     a_location := Some location;
     a_distance := Some (env_distance env);
     a_period := Some (period (gameState g));
     a_gameClock := Some (formatTime (gameTime (gameState g)));
     a_result := if shot
                 then Some (if startsWith outcome "make" then "make" else "miss")
                 else None;
     a_points := if shot then Some (shotPoints outcome) else None;
     a_shotType := if shot then Some (shotTypeOr shotType) else None;
     a_statType := None; a_stat := None; a_oldValue := None; a_newValue := None |}.

(** The second half of [handleNewCourtAction], once the statistics are
    updated: the ledger entry, the undo entry, the display refresh. *)
Definition recordEntry (entry : Action) (a : App) : result :=
  onGame (fun g => set_shots (shots g ++ [entry])%list g) a
  >>> addToUndoStack entry
  >>> (fun a => Ok (updateAllDisplays a))
  >>> (fun a => updateActionDisplay (getAllActionsForTeam (selectedCourtTeam a) a) a).

Definition handleNewCourtAction (env : Env) (act : string) (location : Q * Q)
    (a : App) : result :=
  match getSelectedPlayer true a with
  | None => Ok a
  | Some player =>
      match courtInterface a, currentGame a with
      | Some _, Some g =>
          let entry := statEntry env player (selectedCourtTeam a) act location g in
          (if isShotOutcome (hd "" (split "-" act))
           then handleShotAction entry (p_id player) (selectedCourtTeam a) a
           else handleStatAction act (p_id player) player a)
          >>> recordEntry entry
      | _, _ => TypeError a
      end
  end.

(** ** Team adjustments and quick stats *)

Inductive TeamStat := fouls_stat | timeouts_stat.

Definition getTeamStat (stat : TeamStat) (team : Team) (s : GameState) : Z :=
  match stat with
  | fouls_stat => getSide team (fouls s)
  | timeouts_stat => getSide team (timeouts s)
  end.
Definition setTeamStat (stat : TeamStat) (team : Team) (v : Z) (s : GameState) : GameState :=
  match stat with
  | fouls_stat => set_fouls (setSide team v (fouls s)) s
  | timeouts_stat => set_timeouts (setSide team v (timeouts s)) s
  end.
Definition statString (stat : TeamStat) : string :=
  match stat with fouls_stat => "fouls" | timeouts_stat => "timeouts" end.

Definition applyStatAdjustment (env : Env) (team : Team) (stat : TeamStat)
    (newValue : Z) (a : App) : result :=
  match currentGame a with
  | None => TypeError a
  | Some g =>
      let oldValue := getTeamStat stat team (gameState g) in
      let act :=
        {| a_id := env_id env; a_type := "teamStatAdjustment";
           a_playerId := None; a_playerNumber := None; a_playerName := None;
           a_team := Some team; a_action := None; a_location := None;
           a_distance := None; a_period := None; a_gameClock := None;
           a_result := None; a_points := None; a_shotType := None;
           a_statType := None; a_stat := Some (statString stat);
           a_oldValue := Some oldValue; a_newValue := Some newValue |} in
      let statName := match stat with fouls_stat => "foul" | timeouts_stat => "timeout" end in
      let verb := if oldValue <? newValue then "added" else "removed" in
      addToUndoStack act a
      >>> onGameState (setTeamStat stat team newValue)
      >>> (fun a => Ok (addPlayByPlayEvent
                          (t_name (getSide team (teams g)) ++ " " ++ statName ++ " "
                           ++ verb ++ " (" ++ showZ newValue ++ ")") a))
      >>> (fun a => Ok (updateAllDisplays a))
  end.

(** [adjustTeamStat]: with [Swal] loaded, a foul beyond the limit is applied
    only once the dialog is confirmed (the [then] callback is run at once
    with the answer of [env]). *)
Definition adjustTeamStat (env : Env) (team : Team) (stat : TeamStat)
    (adjustment : Z) (a : App) : result :=
  match currentGame a with
  | None => Ok a
  | Some g =>
      if negb (isAdmin a) then Ok a
      else
        let currentValue := getTeamStat stat team (gameState g) in
        let newValue := Z.max 0 (currentValue + adjustment) in
        if env_swal env
           && match stat with
              | fouls_stat => (foulLimit (settings g) <? newValue) && (0 <? adjustment)
              | timeouts_stat => false
              end
        then (if env_confirmed env then applyStatAdjustment env team stat newValue a
              else Ok a)
        else if env_swal env
                && match stat with
                   | timeouts_stat => newValue <? 0
                   | fouls_stat => false
                   end
        then Ok a
        else applyStatAdjustment env team stat newValue a
  end.

Definition quickAction (env : Env) (statType : string) (pts : Z)
    (player : Player) (a : App) (g : Game) : Action :=
  {| a_id := env_id env; a_type := "quickStat";
     a_playerId := Some (p_id player);
     a_playerNumber := Some (p_number player);
     a_playerName := Some (p_name player);
     a_team := getPlayerTeam (p_id player) a;
     a_action := None; a_location := None; a_distance := None;
     a_period := Some (period (gameState g));
     a_gameClock := Some (formatTime (gameTime (gameState g)));
     a_result := None; a_points := Some pts; a_shotType := None;
     a_statType := Some statType; a_stat := None;
     a_oldValue := None; a_newValue := None |}.

(** The shot-clock reset that follows a quick field goal. *)
Definition quickShotClock (a : App) : result :=
  match currentGame a with
  | None => TypeError a
  | Some g => when (shotClockEnabled (settings g)) resetShotClock a
  end.

Definition recordQuickStat (env : Env) (statType : string) (pts : Z)
    (a : App) : result :=
  if negb (isAdmin a) then Ok a
  else
    let selectedPlayer := getSelectedPlayer false a in
    if match selectedPlayer with None => true | Some _ => false end
       && negb (includes statType "timeout")
    then Ok a
    else if includes statType "foul" || includes statType "timeout" then
      adjustTeamStat env (selectedQuickTeam a)
        (if includes statType "foul" then fouls_stat else timeouts_stat)
        (if includes statType "+" then 1 else -1) a
    else
      match selectedPlayer, currentGame a with
      | Some sp, Some g =>
          let key := p_id sp in
          match stats g !! key with
          | None => Ok a
          | Some _ =>
              let team := getPlayerTeam key a in
              let line txt := "#" ++ showZ (p_number sp) ++ " " ++ p_name sp ++ " " ++ txt in
              let say txt := fun a => Ok (addPlayByPlayEvent (line txt) a) in
              addToUndoStack (quickAction env statType pts sp a g) a
              >>> (fun a =>
                    if String.eqb statType "ft" then
                      withStats key (fun s => add_points pts (on_freeThrows incAttempted (on_freeThrows incMade s))) a
                      >>> addScore team pts
                      >>> say "makes free throw"
                    else if String.eqb statType "fg2" then
                      withStats key (fun s => add_points pts (on_fieldGoals incAttempted (on_fieldGoals incMade s))) a
                      >>> addScore team pts
                      >>> onAnalytics inc_totalShots
                      >>> onAnalytics inc_madeShots
                      >>> say "makes 2-pointer"
                      >>> quickShotClock
                    else if String.eqb statType "fg3" then
                      withStats key (fun s => add_points pts (on_threePointers incAttempted (on_threePointers incMade s))) a
                      >>> addScore team pts
                      >>> onAnalytics inc_totalShots
                      >>> onAnalytics inc_madeShots
                      >>> onAnalytics inc_threePointAttempts
                      >>> onAnalytics inc_threePointMakes
                      >>> say "makes 3-pointer"
                      >>> quickShotClock
                    else if String.eqb statType "rebound" then
                      withStats key inc_rebounds a >>> say "rebound"
                    else if String.eqb statType "assist" then
                      withStats key inc_assists a >>> say "assist"
                    else if String.eqb statType "block" then
                      withStats key inc_blocks a >>> say "block"
                    else if String.eqb statType "steal" then
                      withStats key inc_steals a >>> say "steal"
                    else if String.eqb statType "turnover" then
                      withStats key inc_turnovers a >>> say "turnover"
                    else Ok a)
              >>> onAnalytics inc_totalActions
              >>> (fun a => Ok (updateAllDisplays a))
          end
      | _, _ => TypeError a
      end.

(** ** Clock subsystem *)

Definition clearIntervals (a : App) : App :=
  set_shotClockInterval false (set_clockInterval false a).

Definition endGame (a : App) : result :=
  onGame (set_status final) (clearIntervals a)
  >>> (fun a =>
        match currentGame a with
        | None => TypeError a
        | Some g =>
            let homeScore := at_home (scores (gameState g)) in
            let awayScore := at_away (scores (gameState g)) in
            let message :=
              "Game Over! " ++
              (if awayScore <? homeScore
               then t_name (at_home (teams g)) ++ " wins " ++ showZ homeScore ++ "-" ++ showZ awayScore ++ "!"
               else if homeScore <? awayScore
               then t_name (at_away (teams g)) ++ " wins " ++ showZ awayScore ++ "-" ++ showZ homeScore ++ "!"
               else "Game ended in a tie " ++ showZ homeScore ++ "-" ++ showZ awayScore ++ "!") in
            Ok (updateAllDisplays (addPlayByPlayEvent message a))
        end).

Definition maxPeriods (g : Game) : Z :=
  if String.eqb (gameFormat (settings g)) "quarters" then 4 else 2.

Definition handlePeriodEnd (a : App) : result :=
  onGame (set_status paused) (clearIntervals a)
  >>> (fun a =>
        match currentGame a with
        | None => TypeError a
        | Some g =>
            if period (gameState g) <? maxPeriods g then
              onGameState (fun s => set_gameTime (periodDuration (settings g) * 60)
                                      (set_period (period s + 1) s)) a
              >>> (fun a => Ok (addPlayByPlayEvent
                                  ("End of " ++ getPeriodName (Some (period (gameState g) + 1 - 1)) a) a))
              >>> (fun a => Ok (updateAllDisplays a))
            else if at_home (scores (gameState g)) =? at_away (scores (gameState g)) then
              onGameState (fun s => set_gameTime 300 (set_period (period s + 1) s)) a
              >>> (fun a => Ok (addPlayByPlayEvent "Overtime period started" a))
              >>> (fun a => Ok (updateAllDisplays a))
            else endGame a
        end).

Definition pauseGame (a : App) : result :=
  onGame (set_status paused) a
  >>> (fun a => Ok (updateAllDisplays (clearIntervals (addPlayByPlayEvent "Game paused" a)))).

(** [this.clockInterval = setInterval(...)], and the same for the shot
    clock: the new interval goes into the handle. An interval the handle
    still referred to is not cleared by the assignment: it stays in the
    browser's timer table and keeps firing, and no [clearInterval] reaches
    it any more. *)
Definition startClockInterval (a : App) : App :=
  set_clockInterval true
    (if clockInterval a
     then set_strayClockIntervals (S (strayClockIntervals a)) a
     else a).
Definition startShotClockInterval (a : App) : App :=
  set_shotClockInterval true
    (if shotClockInterval a
     then set_strayShotClockIntervals (S (strayShotClockIntervals a)) a
     else a).

Definition resumeGame (a : App) : result :=
  onGame (set_status live) a
  >>> (fun a => Ok (startClockInterval
                      (addPlayByPlayEvent ("Game resumed - " ++ getPeriodName None a) a)))
  >>> (fun a =>
        match currentGame a with
        | None => TypeError a
        | Some g =>
            Ok (updateAllDisplays
                  (if shotClockEnabled (settings g) then startShotClockInterval a else a))
        end).

Definition toggleGameClock (a : App) : result :=
  match currentGame a with
  | None => Ok a
  | Some g =>
      if negb (isAdmin a) then Ok a
      else match status g with
           | live => pauseGame a
           | _ => resumeGame a
           end
  end.

(** What one run of the game-clock callback did. *)
Inductive TickEffect := Idle | Decremented | PeriodEnded.

(** The callback of [this.clockInterval], with the branch it took:
    [PeriodEnded] is the branch that calls [handlePeriodEnd]. *)
Definition gameClockTick (a : App) : TickEffect * result :=
  match currentGame a with
  | None => (Idle, TypeError a)
  | Some g =>
      if 0 <? gameTime (gameState g) then
        let r := onGameState (fun s => set_gameTime (gameTime s - 1) s) a in
        if gameTime (gameState g) - 1 =? 0
        then (PeriodEnded, r >>> handlePeriodEnd)
        else (Decremented, r)
      else (Idle, Ok a)
  end.

(** The callback of [this.shotClockInterval]. *)
Definition shotClockTick (a : App) : result :=
  match currentGame a with
  | None => TypeError a
  | Some g =>
      if 0 <? shotClock (gameState g)
      then onGameState (fun s => set_shotClock (shotClock s - 1) s) a
      else Ok a
  end.

(** The two kinds of timer. All the intervals of a kind run the same
    callback, so a timer of a kind fires while any interval of that kind
    runs: the one in the handle or a stray one. The one-second tick
    relation [tick a t a'] is one firing that returns. *)
Inductive Timer := GameTimer | ShotTimer.

Definition running (t : Timer) (a : App) : bool :=
  match t with
  | GameTimer => clockInterval a || Nat.ltb 0 (strayClockIntervals a)
  | ShotTimer => shotClockInterval a || Nat.ltb 0 (strayShotClockIntervals a)
  end.

(** The stray intervals, and a session without any. *)
Definition strays (a : App) : nat * nat :=
  (strayClockIntervals a, strayShotClockIntervals a).

Definition noStrayIntervals (a : App) : Prop := strays a = (O, O).

Definition fire (t : Timer) (a : App) : TickEffect * result :=
  if running t a then
    match t with
    | GameTimer => gameClockTick a
    | ShotTimer => (Idle, shotClockTick a)
    end
  else (Idle, Ok a).

Inductive tick : App -> Timer -> App -> Prop :=
| tick_fire a t a' :
    running t a = true -> snd (fire t a) = Ok a' -> tick a t a'.

(** A schedule of timer expiries, run in order; the count is the number of
    calls of [handlePeriodEnd] the callbacks made. *)
Fixpoint runTimers (sched : list Timer) (a : App) : nat * result :=
  match sched with
  | [] => (O, Ok a)
  | t :: sched' =>
      match fire t a with
      | (eff, Ok a') =>
          let '(n, r) := runTimers sched' a' in
          ((match eff with PeriodEnded => 1 | _ => 0 end + n)%nat, r)
      | (eff, TypeError a') =>
          (match eff with PeriodEnded => 1%nat | _ => O end, TypeError a')
      end
  end.

(** ** Creating a game *)

Definition newApp : App :=
  {| currentGame := None; currentGameCode := None; isAdmin := false;
     clockInterval := false; shotClockInterval := false;
     selectedQuickPlayer := None; selectedCourtPlayer := None;
     selectedQuickTeam := home; selectedCourtTeam := home;
     undoStack := [];
     courtInterface := None;
     quickPlayerSelect := Some ""; courtPlayerSelect := Some "";
     strayClockIntervals := O; strayShotClockIntervals := O |}.

(** [gameName || 'Basketball Game'] and the like. *)
Definition orElse (s d : string) : string := if String.eqb s "" then d else s.

Definition createNewGame (code gameName password : string) (a : App) : App :=
  if String.eqb password "" then a
  else
    set_currentGame
      (Some {| g_code := code; g_name := orElse gameName "Basketball Game";
               adminPassword := password; g_type := "professional";
               status := setup;
               settings := mkSettings "quarters" 12 7 7 true 24;
               teams := mkHomeAway (mkTeamInfo "Home Team" "bg-1" [])
                                   (mkTeamInfo "Away Team" "bg-4" []);
               gameState := mkGameState 1 720 24 (mkHomeAway 0 0) (mkHomeAway 0 0)
                                        (mkHomeAway 7 7);
               stats := ∅; shots := []; playByPlay := [];
               analytics := zeroAnalytics |})
      (set_identity (Some code) true a).

(** [addPlayer(team)] with the trimmed name, the parsed number ([None] for
    [NaN]) and the position read from the form. *)
Definition addPlayer (team : Team) (name : string) (number : option Z)
    (position : string) (a : App) : result :=
  if String.eqb name "" then Ok a
  else
    match number with
    | None => Ok a
    | Some n =>
        if (n <? 0) || (99 <? n) then Ok a
        else
          match currentGame a with
          | None => TypeError a
          | Some g =>
              let ti := getSide team (teams g) in
              if existsb (fun p => p_number p =? n) (players ti) then Ok a
              else
                let player := mkPlayer name n (orElse position "N/A")
                                       (teamName team ++ "_" ++ showZ n) in
                let ti' := mkTeamInfo (t_name ti) (t_color ti) (players ti ++ [player])%list in
                Ok (set_currentGame
                      (Some (set_stats (<[p_id player := zeroStats]> (stats g))
                               (set_teams (setSide team ti' (teams g)) g))) a)
          end
    end.

(** [startGame()]; [switchPage('controller')] builds the court interface
    when there is none yet. *)
Definition startGame (a : App) : App :=
  match currentGame a with
  | None => a
  | Some g =>
      let a := addPlayByPlayEvent "Game started" (set_currentGame (Some (set_status ready g)) a) in
      let a := match courtInterface a with
               | Some _ => a
               | None => set_courtInterface (Some (mkCourtInterface "fiba" [])) a
               end in
      updatePlayerSelects (updateAllDisplays a)
  end.

(** ** A concrete session

    The operator creates a game (quarters, 12-minute periods, shot clock on),
    adds player A (#1) to the home team and player B (#2) to the away team,
    starts the game and picks player A in both drop-downs. In [runningGame]
    the clock has then been started, which refreshes the displays and so
    takes the court drop-down's value into [this.selectedCourtPlayer], and
    the shot clock has run for three seconds. *)

Definition env0 : Env := mkEnv "1700000000000_k3j9x2a1b" "22.0" false true.
Definition env1 : Env := mkEnv "1700000001000_p0q8w7e6r" "3.1" false true.

Definition createdGame : App := createNewGame "AB12CD" "" "secret" newApp.

Definition readyGame : App :=
  quickPlayerSelectChange "home_1"
    (courtPlayerSelectChange "home_1"
       (startGame
          (stateOf (addPlayer away "B" (Some 2) ""
             (stateOf (addPlayer home "A" (Some 1) "" createdGame)))))).

Definition runningGame : App :=
  stateOf (snd (runTimers [ShotTimer; GameTimer; ShotTimer; GameTimer; ShotTimer]
                  (stateOf (toggleGameClock readyGame)))).

(** Three period ends forced by the operator after [runningGame]: the
    fourth quarter, scores level at 0-0. *)
Definition fourthQuarter : App :=
  stateOf (handlePeriodEnd (stateOf (handlePeriodEnd (stateOf (handlePeriodEnd runningGame))))).

(** A corner of the FIBA court, the paint, and the free-throw line. *)
Definition cornerSpot : Q * Q := (40, 100)%Q.
Definition paintSpot : Q * Q := (750, 300)%Q.
Definition ftSpot : Q * Q := (750, 580)%Q.

(** The game ended by the operator ([confirmEndGame], confirmed). *)
Definition endedGame : App := stateOf (endGame runningGame).

(** ** Concrete recordings

    Each of these starts from [runningGame]: home 0, away 0, player A with
    all-zero statistics, all-zero analytics, shot clock at 21. *)

(** The court action [make3-corner] for player A. *)
Definition afterCorner3 : App :=
  stateOf (handleNewCourtAction env0 "make3-corner" cornerSpot runningGame).
(** The catalog's code for a made corner three, [make3]. *)
Definition afterMake3 : App :=
  stateOf (handleNewCourtAction env0 "make3" cornerSpot runningGame).
(** A made and a missed layup, a rebound and a made free throw on the court. *)
Definition afterLayup : App :=
  stateOf (handleNewCourtAction env0 "make2-layup" paintSpot runningGame).
Definition afterMissedLayup : App :=
  stateOf (handleNewCourtAction env0 "miss2-layup" paintSpot runningGame).
Definition afterCourtRebound : App :=
  stateOf (handleNewCourtAction env0 "rebound" paintSpot runningGame).
Definition afterCourtFreeThrow : App :=
  stateOf (handleNewCourtAction env0 "make1-ft" ftSpot runningGame).
(** Quick stats: keys [1], [2], [r]. *)
Definition afterQuickFreeThrow : App := stateOf (recordQuickStat env0 "ft" 1 runningGame).
Definition afterQuickTwo : App := stateOf (recordQuickStat env0 "fg2" 2 runningGame).
Definition afterQuickRebound : App := stateOf (recordQuickStat env0 "rebound" 0 runningGame).
(** Undo right after the made layup, and right after the quick two. *)
Definition afterLayupUndone : App := stateOf (undoLastAction afterLayup).
Definition afterQuickTwoUndone : App := stateOf (undoLastAction afterQuickTwo).

(** Player A's line, the home score, the shot clock and the analytics. *)
Definition statsOfA (a : App) : option PlayerStats :=
  match currentGame a with Some g => stats g !! "home_1" | None => None end.
Definition homeScore (a : App) : option Z :=
  option_map (fun g => at_home (scores (gameState g))) (currentGame a).
Definition shotClockOf (a : App) : option Z :=
  option_map (fun g => shotClock (gameState g)) (currentGame a).
Definition analyticsOf (a : App) : option Analytics :=
  option_map analytics (currentGame a).
Definition ledgerOf (a : App) : option (list string) :=
  option_map (fun g => List.map a_id (shots g)) (currentGame a).
(** The three aggregates an undo entry snapshots. *)
Definition aggregates (a : App) : option (GameState * gmap string PlayerStats * Analytics) :=
  option_map (fun g => (gameState g, stats g, analytics g)) (currentGame a).
Definition snapshotOf (e : UndoEntry) : GameState * gmap string PlayerStats * Analytics :=
  (gameStateBefore e, statsBefore e, analyticsBefore e).

(** ** Schedules *)

Definition isGameTimer (t : Timer) : bool :=
  match t with GameTimer => true | ShotTimer => false end.

(** How many times the game-clock interval expires in a schedule. *)
Definition gameTicks (sched : list Timer) : nat :=
  length (List.filter isGameTimer sched).

(** ** What the displays leave alone

    [engine a] is the application object without the rosters' order, the
    selections, the court view and the play-by-play log: what neither a
    display update nor a log line ever writes. *)

Definition gameCore (g : Game) :=
  (status g, settings g, gameState g, stats g, shots g, analytics g).

Definition engine (a : App) :=
  (option_map gameCore (currentGame a), isAdmin a, clockInterval a,
   shotClockInterval a, undoStack a).

(** Whether the court view has been built. *)
Definition hasCourt (a : App) : bool :=
  match courtInterface a with Some _ => true | None => false end.

(** ** Tracking a method's effect

    [shell a] is the application object outside the game. [steps k f]: run
    on a loaded game, a method [k] that returns leaves the shell, the
    settings, the status and the ledger alone, keeps the game loaded, and
    changes the analytics by [f]. *)

Definition shell (a : App) :=
  (isAdmin a, clockInterval a, shotClockInterval a, undoStack a, hasCourt a).

Definition steps (k : App -> result) (f : Analytics -> Analytics) : Prop :=
  forall a a' g,
    currentGame a = Some g -> k a = Ok a' ->
    shell a' = shell a
    /\ exists g', currentGame a' = Some g'
                  /\ analytics g' = f (analytics g)
                  /\ settings g' = settings g
                  /\ status g' = status g
                  /\ shots g' = shots g.

(** The analytics after a court shot, as [handleShotAction] leaves them. *)
Definition shotAnalytics (act : Action) (n : Analytics) : Analytics :=
  let make := optIs (a_result act) "make" in
  let three := optIs (a_shotType act) "3PT" || optIs (a_shotType act) "logo" in
  mkAnalytics (totalShots n + 1)
              (madeShots n + (if make then 1 else 0))
              (threePointAttempts n + (if three then 1 else 0))
              (threePointMakes n + (if three && make then 1 else 0))
              (totalActions n + (if make then 1 else 0)).

(** The analytics a court action leaves. *)
Definition courtAnalytics (entry : Action) (act : string) (n : Analytics) : Analytics :=
  if isShotOutcome (hd "" (split "-" act)) then shotAnalytics entry n else n.

(** The analytics after a quick stat that reaches the [switch]. *)
Definition quickAnalytics (statType : string) (n : Analytics) : Analytics :=
  if String.eqb statType "ft" then
    mkAnalytics (totalShots n) (madeShots n) (threePointAttempts n)
                (threePointMakes n) (totalActions n + 2)
  else if String.eqb statType "fg2" then
    mkAnalytics (totalShots n + 1) (madeShots n + 1) (threePointAttempts n)
                (threePointMakes n) (totalActions n + 2)
  else if String.eqb statType "fg3" then
    mkAnalytics (totalShots n + 1) (madeShots n + 1) (threePointAttempts n + 1)
                (threePointMakes n + 1) (totalActions n + 2)
  else
    mkAnalytics (totalShots n) (madeShots n) (threePointAttempts n)
                (threePointMakes n) (totalActions n + 1).

(** ** More of the session

    Twenty quick rebounds for player A, each with an id of its own: the
    undo stack is full. *)

Definition envN (n : nat) : Env :=
  mkEnv ("17000000" ++ showZ (Z.of_nat n) ++ "_q") "0.0" false true.

Fixpoint quickRebounds (n : nat) (a : App) : App :=
  match n with
  | O => a
  | S n' => stateOf (recordQuickStat (envN n) "rebound" 0 (quickRebounds n' a))
  end.

Definition fullStack : App := quickRebounds 20 runningGame.

(** The new line of the play-by-play log. *)
Definition playEvent (message : string) (g : Game) : PlayEvent :=
  mkPlayEvent message (formatTime (gameTime (gameState g))) (period (gameState g)).

(** ** The aggregator's effect on a player's line and on the scoreboard *)

(** One more attempt, and one more make when the shot went in. *)
Definition bump (make : bool) (m : MadeAttempted) : MadeAttempted :=
  mkMA (made m + (if make then 1 else 0)) (attempted m + 1).

(** A player's line after a court shot, as [handleShotAction] leaves it. *)
Definition shotStats (act : Action) (s : PlayerStats) : PlayerStats :=
  let make := optIs (a_result act) "make" in
  let pts := default 0 (a_points act) in
  let s := if optIs (a_shotType act) "3PT" || optIs (a_shotType act) "logo"
           then on_threePointers (bump make) s
           else if optIs (a_shotType act) "ft"
           then on_freeThrows (bump make) s
           else on_fieldGoals (bump make) s in
  if make then add_points pts s else s.

(** A line is sound when none of its counters is negative (the points, the
    seven plain counters and the three pairs) and no more shots are made
    than attempted. *)
Definition soundMA (m : MadeAttempted) : Prop := 0 <= made m <= attempted m.

Definition soundLine (s : PlayerStats) : Prop :=
  0 <= points s /\ 0 <= rebounds s /\ 0 <= assists s /\ 0 <= s_fouls s
  /\ 0 <= steals s /\ 0 <= blocks s /\ 0 <= turnovers s
  /\ soundMA (fieldGoals s) /\ soundMA (threePointers s) /\ soundMA (freeThrows s).

Definition soundStats (m : gmap string PlayerStats) : Prop :=
  forall key s, m !! key = Some s -> soundLine s.

(** A player's line after a quick stat that reaches the [switch]. *)
Definition quickStats (statType : string) (pts : Z) (s : PlayerStats) : PlayerStats :=
  if String.eqb statType "ft" then add_points pts (on_freeThrows (bump true) s)
  else if String.eqb statType "fg2" then add_points pts (on_fieldGoals (bump true) s)
  else if String.eqb statType "fg3" then add_points pts (on_threePointers (bump true) s)
  else if String.eqb statType "rebound" then inc_rebounds s
  else if String.eqb statType "assist" then inc_assists s
  else if String.eqb statType "block" then inc_blocks s
  else if String.eqb statType "steal" then inc_steals s
  else if String.eqb statType "turnover" then inc_turnovers s
  else s.

(** Whether a quick stat scores, and whether it resets the shot clock. *)
Definition quickScores (statType : string) : bool :=
  String.eqb statType "ft" || String.eqb statType "fg2" || String.eqb statType "fg3".
Definition quickFieldGoal (statType : string) : bool :=
  String.eqb statType "fg2" || String.eqb statType "fg3".

(** The sum of the points of all players' lines. *)
Definition totalPoints (m : gmap string PlayerStats) : Z :=
  map_fold (fun _ s acc => points s + acc) 0 m.

(** The scoreboard adds up: the two scores together are the points of all
    players together. *)
Definition scoresAddUp (g : Game) : Prop :=
  at_home (scores (gameState g)) + at_away (scores (gameState g))
  = totalPoints (stats g).

(** ** Tracking a method's whole effect on the game

    A [Core] is what [gameCore] keeps of a game. [acts key admin k F]: on a
    loaded game in which [key] has a line, run by an application object
    whose admin flag is [admin], the method [k] returns, leaves the shell
    alone, takes the core of the game from [c] to [F c], and [key] still
    has a line. *)

Definition Core : Type :=
  Status * Settings * GameState * gmap string PlayerStats * list Action * Analytics.

Definition coreSettings (c : Core) : Settings :=
  let '(_, se, _, _, _, _) := c in se.
Definition coreGameState (c : Core) : GameState :=
  let '(_, _, gs, _, _, _) := c in gs.
Definition coreStats (c : Core) : gmap string PlayerStats :=
  let '(_, _, _, ss, _, _) := c in ss.
Definition coreAnalytics (c : Core) : Analytics :=
  let '(_, _, _, _, _, an) := c in an.

Definition onCoreGameState (f : GameState -> GameState) (c : Core) : Core :=
  let '(st, se, gs, ss, sh, an) := c in (st, se, f gs, ss, sh, an).
Definition onCoreStats (f : gmap string PlayerStats -> gmap string PlayerStats)
    (c : Core) : Core :=
  let '(st, se, gs, ss, sh, an) := c in (st, se, gs, f ss, sh, an).
Definition onCoreAnalytics (f : Analytics -> Analytics) (c : Core) : Core :=
  let '(st, se, gs, ss, sh, an) := c in (st, se, gs, ss, sh, f an).

Definition hasLine (key : string) (c : Core) : Prop := is_Some (coreStats c !! key).

Definition acts (key : string) (admin : bool) (k : App -> result) (F : Core -> Core)
  : Prop :=
  forall a g,
    currentGame a = Some g -> isAdmin a = admin -> hasLine key (gameCore g) ->
    exists a',
      k a = Ok a' /\ shell a' = shell a
      /\ option_map gameCore (currentGame a') = Some (F (gameCore g))
      /\ hasLine key (F (gameCore g)).

(** [scores[team] += pts], [team] possibly [null]. *)
Definition creditScore (team : option Team) (pts : Z) (s : GameState) : GameState :=
  match team with
  | Some t => set_scores (setSide t (getSide t (scores s) + pts) (scores s)) s
  | None => s
  end.

(** [this.currentGame.settings.shotClockTime || 24], from the settings. *)
Definition shotClockResetOf (se : Settings) : Z :=
  if shotClockTime se =? 0 then 24 else shotClockTime se.

(** The shot-clock reset at the end of a make, when it applies. *)
Definition coreShotClock (b admin : bool) (c : Core) : Core :=
  if b && shotClockEnabled (coreSettings c) && admin
  then onCoreGameState (set_shotClock (shotClockResetOf (coreSettings c))) c
  else c.

(** The core of the game after [handleShotAction]. *)
Definition shotCore (act : Action) (key : string) (team : Team) (admin : bool)
    (c : Core) : Core :=
  let make := optIs (a_result act) "make" in
  let pts := default 0 (a_points act) in
  coreShotClock make admin
    (onCoreAnalytics (shotAnalytics act)
       (onCoreGameState (if make then creditScore (Some team) pts else fun s => s)
          (onCoreStats (alter (shotStats act) key) c))).

(** The core of the game after the [switch] of a quick stat and the final
    [totalActions++]. *)
Definition quickCore (statType : string) (pts : Z) (key : string)
    (team : option Team) (admin : bool) (c : Core) : Core :=
  coreShotClock (quickFieldGoal statType) admin
    (onCoreAnalytics (quickAnalytics statType)
       (onCoreGameState (if quickScores statType then creditScore team pts else fun s => s)
          (onCoreStats (alter (quickStats statType pts) key) c))).

(** The line a non-shot court action leaves. *)
Definition statLine (act : string) : PlayerStats -> PlayerStats :=
  if String.eqb act "rebound" then inc_rebounds
  else if String.eqb act "assist" then inc_assists
  else if String.eqb act "block" then inc_blocks
  else fun s => s.

Definition appendShot (entry : Action) (c : Core) : Core :=
  let '(st, se, gs, ss, sh, an) := c in (st, se, gs, ss, (sh ++ [entry])%list, an).

(** The core of the game after a recorded court action. *)
Definition courtCore (entry : Action) (act key : string) (team : Team)
    (admin : bool) (c : Core) : Core :=
  appendShot entry
    (if isShotOutcome (hd "" (split "-" act))
     then shotCore entry key team admin c
     else onCoreStats (alter (statLine act) key) c).

(** The attempts and the makes of a line, over its three counters. *)
Definition attempts (s : PlayerStats) : Z :=
  attempted (fieldGoals s) + attempted (threePointers s) + attempted (freeThrows s).
Definition makes (s : PlayerStats) : Z :=
  made (fieldGoals s) + made (threePointers s) + made (freeThrows s).

(** The two invariants of the box score, on cores. *)
Definition coreSound (c : Core) : Prop := soundStats (coreStats c).
Definition coreAddsUp (c : Core) : Prop :=
  at_home (scores (coreGameState c)) + at_away (scores (coreGameState c))
  = totalPoints (coreStats c).

(** A player added after a quick stat whose undo then takes the
    statistics back to before the addition: player C (#3) is in the home
    roster and picked in both drop-downs (the click on the court's home tab
    rebuilds the court drop-down and takes the pick), but has no line. *)
Definition lineless : App :=
  selectCourtTeam home
    (quickPlayerSelectChange "home_3"
       (courtPlayerSelectChange "home_3"
          (stateOf (undoLastAction
             (stateOf (addPlayer home "C" (Some 3) "" afterQuickRebound)))))).

(** ** Configuring a game

    [saveGameConfig()] reads the configuration form: the text inputs, the
    three number inputs as [parseInt] gives them for inputs that hold
    integers, the shot-clock checkbox and the [data-type] of the selected
    game-type card ([None] when no card is selected, in which case
    [querySelector] gives [null] and the method throws there, the name, the
    teams and the settings already written). *)
Record ConfigForm := mkConfigForm {
  cf_gameName : string;
  cf_homeTeamName : string; cf_awayTeamName : string;
  cf_homeTeamColor : string; cf_awayTeamColor : string;
  cf_gameFormat : string;
  cf_periodDuration : Z; cf_timeoutsPerTeam : Z; cf_foulLimit : Z;
  cf_shotClockEnabled : bool;
  cf_selectedType : option string
}.

(** The writes of [saveGameConfig] up to the game-type card. *)
Definition configured (f : ConfigForm) (g : Game) : Game :=
  let h := at_home (teams g) in
  let w := at_away (teams g) in
  mkGame (g_code g) (orElse (cf_gameName f) "Basketball Game") (adminPassword g)
         (g_type g) (status g)
         (mkSettings (cf_gameFormat f) (cf_periodDuration f) (cf_timeoutsPerTeam f)
                     (cf_foulLimit f) (cf_shotClockEnabled f)
                     (shotClockTime (settings g)))
         (mkHomeAway
            (mkTeamInfo (orElse (cf_homeTeamName f) "Home Team") (cf_homeTeamColor f)
                        (players h))
            (mkTeamInfo (orElse (cf_awayTeamName f) "Away Team") (cf_awayTeamColor f)
                        (players w)))
         (gameState g) (stats g) (shots g) (playByPlay g) (analytics g).

(** The writes from the game-type card on. *)
Definition typed (ty : string) (g : Game) : Game :=
  let se := settings g in
  let gs := set_gameTime (periodDuration se * 60) (gameState g) in
  let gs := set_timeouts (mkHomeAway (timeoutsPerTeam se) (timeoutsPerTeam se)) gs in
  let gs := if shotClockEnabled se
            then set_shotClock (if shotClockTime se =? 0 then 24 else shotClockTime se) gs
            else gs in
  mkGame (g_code g) (g_name g) (adminPassword g) ty (status g) se (teams g) gs
         (stats g) (shots g) (playByPlay g) (analytics g).

Definition saveGameConfig (f : ConfigForm) (a : App) : result :=
  match currentGame a with
  | None => Ok a
  | Some g =>
      let g := configured f g in
      match cf_selectedType f with
      | None => TypeError (set_currentGame (Some g) a)
      | Some ty =>
          let a := set_currentGame (Some (typed ty g)) a in
          if String.eqb ty "professional" then Ok a else Ok (startGame a)
      end
  end.

(** ** Removing a player *)

(** [doRemovePlayer(team, playerId)] *)
Definition doRemovePlayer (team : Team) (playerId : string) (a : App) : result :=
  match currentGame a with
  | None => TypeError a
  | Some g =>
      let ti := getSide team (teams g) in
      let ti' := mkTeamInfo (t_name ti) (t_color ti)
                   (List.filter (fun p => negb (String.eqb (p_id p) playerId))
                                (players ti)) in
      Ok (set_currentGame
            (Some (set_stats (delete playerId (stats g))
                     (set_teams (setSide team ti' (teams g)) g))) a)
  end.

(** A basic game: the form of the configuration page with the shot clock
    switched off, ten-minute periods and the basic card selected, which
    starts the game at once. *)
Definition basicForm : ConfigForm :=
  mkConfigForm "Friendly" "Lions" "Tigers" "bg-1" "bg-4" "halves" 10 5 5 false
               (Some "basic").

Definition basicGame : App := stateOf (saveGameConfig basicForm createdGame).

(** A session with a negative period length. After the quick rebound of
    [afterQuickRebound] the operator saves a configuration that has -1 in
    the period-duration input, which puts the game clock at -60, and then
    undoes the rebound, which puts the game state of before the rebound
    back: the clocks are at 718 and 21 again, the clock is running, and
    the settings say -1 minute. In [lastSecond] the game clock's interval
    has then expired 717 times. *)
Definition negativeDurationForm : ConfigForm :=
  mkConfigForm "" "" "" "bg-1" "bg-4" "quarters" (-1) 7 7 true (Some "professional").

Definition misconfigured : App :=
  stateOf (undoLastAction (stateOf (saveGameConfig negativeDurationForm afterQuickRebound))).

Definition lastSecond : App :=
  stateOf (snd (runTimers (repeat GameTimer 717) misconfigured)).

(** ** Rosters

    A team's roster, and what [addPlayer] and [doRemovePlayer] maintain:
    within a team no jersey number is taken twice and every player's id is
    [<team>_<number>]; every player has a line in [stats], and every line
    in [stats] belongs to a player. *)
Definition roster (team : Team) (g : Game) : list Player :=
  players (getSide team (teams g)).

Definition rosterSound (g : Game) : Prop :=
  (forall team,
     NoDup (map p_number (roster team g))
     /\ Forall (fun p => p_id p = teamName team ++ "_" ++ showZ (p_number p))
               (roster team g))
  /\ (forall team p, In p (roster team g) -> is_Some (stats g !! p_id p))
  /\ (forall k, is_Some (stats g !! k) ->
                exists team p, In p (roster team g) /\ p_id p = k).

(** ** The selection

    What the two player pickers hold: for each, the team tab, the selected
    player and the drop-down's value. [ascending]: a roster in the order
    of the jersey numbers. *)
Definition selection (a : App) :=
  (selectedQuickTeam a, selectedQuickPlayer a, quickPlayerSelect a,
   selectedCourtTeam a, selectedCourtPlayer a, courtPlayerSelect a).

Fixpoint ascending (l : list Player) : Prop :=
  match l with
  | [] => True
  | x :: l' =>
      match l' with [] => True | y :: _ => p_number x <= p_number y end
      /\ ascending l'
  end.

(** What a rebuilt drop-down keeps of its value. *)
Definition kept (v : string) (g : Game) : option string :=
  if keepsValue v home g then Some v else None.

(** The away player B picked in both pickers, on the away tabs; a second
    click on the court's away tab takes the court pick. *)
Definition awayPicked : App :=
  selectCourtTeam away
    (quickPlayerSelectChange "away_2"
       (courtPlayerSelectChange "away_2"
          (selectQuickTeam away (selectCourtTeam away readyGame)))).

(** ** The radial menus

    [setupMenus()] and [showSmartRadialMenu]: the options offered at a tap,
    by zone. The two objects are looked up under the name of the zone
    [detectZone] returns and under ['mid-range'] and ['default'] only. *)
Record MenuOption := mkOption { o_action : string; o_label : string; o_icon : string }.

Definition primaryActions : list (string * list MenuOption) :=
  [("paint",
     [mkOption "make2-layup" "Layup ✓" "🏀";
      mkOption "miss2-layup" "Layup ✗" "❌";
      mkOption "rebound" "Rebound" "🙌";
      mkOption "more" "More..." "..."]);
   ("mid-range",
     [mkOption "make2-jumper" "Jumper ✓" "🏀";
      mkOption "miss2-jumper" "Jumper ✗" "❌";
      mkOption "rebound" "Rebound" "🙌";
      mkOption "more" "More..." "..."]);
   ("three-point",
     [mkOption "make3" "3PT ✓" "🎯";
      mkOption "miss3" "3PT ✗" "❌";
      mkOption "rebound" "Rebound" "🙌";
      mkOption "more" "More..." "..."]);
   ("corner-three",
     [mkOption "make3" "Corner 3 ✓" "🎯";
      mkOption "miss3" "Corner 3 ✗" "❌";
      mkOption "rebound" "Rebound" "🙌";
      mkOption "more" "More..." "..."]);
   ("logo-shot",
     [mkOption "make3-logo" "Logo Shot ✓" "🎯";
      mkOption "miss3-logo" "Logo Shot ✗" "❌"]);
   ("free-throw",
     [mkOption "make1-ft" "FT ✓" "🎯";
      mkOption "miss1-ft" "FT ✗" "❌"])].

Definition secondaryActions : list (string * list MenuOption) :=
  [("paint",
     [mkOption "make2-dunk" "Dunk ✓" "💥";
      mkOption "make2-post" "Post Up ✓" "💪";
      mkOption "miss2-post" "Post Up ✗" "🧱";
      mkOption "make2-floater" "Floater ✓" "💧";
      mkOption "miss2-floater" "Floater ✗" "💨";
      mkOption "assist" "Assist" "🤝";
      mkOption "foul" "Foul" "✋";
      mkOption "back" "Back" "↩️"]);
   ("mid-range",
     [mkOption "make2-fadeaway" "Fadeaway ✓" "🏃";
      mkOption "miss2-fadeaway" "Fadeaway ✗" "💨";
      mkOption "assist" "Assist" "🤝";
      mkOption "foul" "Foul" "✋";
      mkOption "back" "Back" "↩️"]);
   ("default",
     [mkOption "assist" "Assist" "🤝";
      mkOption "foul" "Foul" "✋";
      mkOption "back" "Back" "↩️"])].

(** [menu[key]]: [None] for [undefined]. *)
Fixpoint menuAt (menu : list (string * list MenuOption)) (key : string)
    : option (list MenuOption) :=
  match menu with
  | [] => None
  | (k, options) :: menu' => if String.eqb k key then Some options else menuAt menu' key
  end.

(** [a || b] on two look-ups: an array is truthy. *)
Definition orMenu (a b : option (list MenuOption)) : option (list MenuOption) :=
  match a with Some o => Some o | None => b end.

(** The [options] that [showSmartRadialMenu] hands to [renderRadialMenu]. *)
Definition showSmartRadialMenu (hypot : Hypot) (court : CourtDims) (svgX svgY : Q)
    (isSecondary : bool) : option (list MenuOption) :=
  let zone := CourtZoneDetector.detectZone hypot court svgX svgY in
  if isSecondary then
    orMenu (menuAt secondaryActions (name zone))
           (orMenu (menuAt secondaryActions "mid-range")
                   (menuAt secondaryActions "default"))
  else
    orMenu (menuAt primaryActions (name zone)) (menuAt primaryActions "mid-range").

(** What a click on a button of the menu does: show the secondary or the
    primary menu at the same spot, or hand the action to [onAction]. *)
Inductive Clicked :=
| ShowMenu (isSecondary : bool)
| SendAction (action : string).

Definition onclick (option : MenuOption) : Clicked :=
  if String.eqb (o_action option) "more" then ShowMenu true
  else if String.eqb (o_action option) "back" then ShowMenu false
  else SendAction (o_action option).

(** The style class [renderRadialMenu] gives a button. *)
Definition buttonClass (option : MenuOption) : string :=
  if includes (o_action option) "make" then "make"
  else if includes (o_action option) "miss" then "miss"
  else "play".

(** The points a make is worth in a zone. *)
Definition zonePoints (zone : string) : Z :=
  if String.eqb zone "free-throw" then 1
  else if String.eqb zone "three-point" || String.eqb zone "corner-three"
          || String.eqb zone "logo-shot" then 3
  else 2.

(** The clock started on the set-up pages (the space bar works on every
    page), then the game started: the status is back at [ready] while both
    intervals of the first start still run. *)
Definition withPlayers : App :=
  stateOf (addPlayer away "B" (Some 2) ""
             (stateOf (addPlayer home "A" (Some 1) "" createdGame))).

Definition startedEarly : App := startGame (stateOf (toggleGameClock withPlayers)).

(** * Properties *)

(** ** Sanity checks of the embedding *)

Example detectZone_fiba_basket :
  name (CourtZoneDetector.detectZone hypotDown FIBA_DIMS 750 157.5) = "paint".
Proof. reflexivity. Qed.

Example detectZone_fiba_corner :
  name (CourtZoneDetector.detectZone hypotDown FIBA_DIMS (fst cornerSpot) (snd cornerSpot))
  = "corner-three".
Proof. reflexivity. Qed.

Example split_make3_corner : split "-" "make3-corner" = ["make3"; "corner"].
Proof. reflexivity. Qed.

Example split_make3 : split "-" "make3" = ["make3"].
Proof. reflexivity. Qed.

Example includes_make : includes "make3" "make" = true.
Proof. reflexivity. Qed.

Example includes_foul : includes "foul" "make" = false.
Proof. reflexivity. Qed.

Example formatTime_718 : formatTime 718 = "11:58".
Proof. reflexivity. Qed.

Example readyGame_selection :
  getSelectedPlayer false readyGame = Some (mkPlayer "A" 1 "N/A" "home_1")
  /\ getSelectedPlayer true readyGame = None
  /\ getSelectedPlayer true runningGame = Some (mkPlayer "A" 1 "N/A" "home_1").
Proof. repeat apply conj; vm_compute; reflexivity. Qed.

Example runningGame_clocks :
  option_map (fun g => (status g, gameTime (gameState g), shotClock (gameState g)))
             (currentGame runningGame)
  = Some (live, 718, 21).
Proof. reflexivity. Qed.

(** ** Display updates and log lines leave the engine alone *)

Lemma engine_updateQuickPlayerDropdown a :
  engine (updateQuickPlayerDropdown a) = engine a.
Proof.
  unfold updateQuickPlayerDropdown.
  destruct (quickPlayerSelect a) as [v|]; [|reflexivity].
  destruct (currentGame a) as [g|] eqn:Hg; [|reflexivity].
  destruct (keepsValue v (selectedQuickTeam a) g);
    unfold engine; cbn; rewrite Hg; reflexivity.
Qed.

Lemma engine_updateCourtPlayerDropdown a :
  engine (updateCourtPlayerDropdown a) = engine a.
Proof.
  unfold updateCourtPlayerDropdown.
  destruct (courtPlayerSelect a) as [v|]; [|reflexivity].
  destruct (currentGame a) as [g|] eqn:Hg; [|reflexivity].
  destruct (keepsValue v (selectedCourtTeam a) g);
    unfold engine; cbn; rewrite Hg; reflexivity.
Qed.

Lemma engine_updateActionDisplay l a :
  engine (stateOf (updateActionDisplay l a)) = engine a.
Proof.
  unfold updateActionDisplay. destruct (courtInterface a); reflexivity.
Qed.

Lemma engine_selectCourtTeam t a : engine (selectCourtTeam t a) = engine a.
Proof.
  unfold selectCourtTeam.
  destruct (courtInterface _);
    rewrite ?engine_updateActionDisplay, engine_updateCourtPlayerDropdown;
    reflexivity.
Qed.

Lemma engine_selectQuickTeam t a : engine (selectQuickTeam t a) = engine a.
Proof.
  unfold selectQuickTeam. now rewrite engine_updateQuickPlayerDropdown.
Qed.

Lemma engine_updatePlayerSelects a : engine (updatePlayerSelects a) = engine a.
Proof.
  unfold updatePlayerSelects.
  now rewrite engine_updateCourtPlayerDropdown, engine_updateQuickPlayerDropdown,
    engine_selectCourtTeam, engine_selectQuickTeam.
Qed.

Lemma engine_updateAllDisplays a : engine (updateAllDisplays a) = engine a.
Proof.
  unfold updateAllDisplays, updateTeamDisplays.
  destruct (currentGame a) as [g|]; [|reflexivity].
  destruct (String.eqb _ _); [apply engine_updatePlayerSelects | reflexivity].
Qed.

Lemma engine_addPlayByPlayEvent m a : engine (addPlayByPlayEvent m a) = engine a.
Proof.
  unfold addPlayByPlayEvent.
  destruct (currentGame a) as [g|] eqn:Hg; [|reflexivity].
  unfold engine; cbn; rewrite Hg; reflexivity.
Qed.

(** Reading a game back from an engine view. *)
Lemma engine_game a g st se gs ss sh an ad ci si us :
  engine a = (Some (st, se, gs, ss, sh, an), ad, ci, si, us) ->
  currentGame a = Some g ->
  status g = st /\ settings g = se /\ gameState g = gs /\ stats g = ss
  /\ shots g = sh /\ analytics g = an.
Proof.
  unfold engine. intros H Hg. rewrite Hg in H. cbn in H.
  injection H as <- <- <- <- <- <- _ _ _ _. repeat split.
Qed.

Lemma engine_has_game a x ad ci si us :
  engine a = (Some x, ad, ci, si, us) -> exists g, currentGame a = Some g.
Proof.
  unfold engine. destruct (currentGame a) as [g|]; [eauto | discriminate].
Qed.

Lemma engine_eq_game a a' g :
  engine a' = engine a -> currentGame a = Some g ->
  exists g', currentGame a' = Some g' /\ gameCore g' = gameCore g.
Proof.
  unfold engine. intros H Hg. rewrite Hg in H.
  destruct (currentGame a') as [g'|]; [|discriminate].
  exists g'. split; [reflexivity|]. cbn in H. congruence.
Qed.

Lemma engine_eq_flags a a' :
  engine a' = engine a ->
  isAdmin a' = isAdmin a /\ clockInterval a' = clockInterval a
  /\ shotClockInterval a' = shotClockInterval a /\ undoStack a' = undoStack a.
Proof. unfold engine. intros H. injection H as _ -> -> -> ->. repeat split. Qed.

Lemma gameCore_fields g g' :
  gameCore g' = gameCore g ->
  status g' = status g /\ settings g' = settings g /\ gameState g' = gameState g
  /\ stats g' = stats g /\ shots g' = shots g /\ analytics g' = analytics g.
Proof. unfold gameCore. intros H. injection H as -> -> -> -> -> ->. repeat split. Qed.

(** A line in the log followed by a display refresh. *)
Lemma engine_logged m a :
  engine (updateAllDisplays (addPlayByPlayEvent m a)) = engine a.
Proof. now rewrite engine_updateAllDisplays, engine_addPlayByPlayEvent. Qed.

(** ** Nothing but a second start leaves an interval without a handle *)

Lemma strays_updateQuickPlayerDropdown a :
  strays (updateQuickPlayerDropdown a) = strays a.
Proof.
  unfold updateQuickPlayerDropdown.
  destruct (quickPlayerSelect a) as [v|]; [|reflexivity].
  destruct (currentGame a) as [g|]; [|reflexivity].
  destruct (keepsValue v (selectedQuickTeam a) g); reflexivity.
Qed.

Lemma strays_updateCourtPlayerDropdown a :
  strays (updateCourtPlayerDropdown a) = strays a.
Proof.
  unfold updateCourtPlayerDropdown.
  destruct (courtPlayerSelect a) as [v|]; [|reflexivity].
  destruct (currentGame a) as [g|]; [|reflexivity].
  destruct (keepsValue v (selectedCourtTeam a) g); reflexivity.
Qed.

Lemma strays_updateActionDisplay l a :
  strays (stateOf (updateActionDisplay l a)) = strays a.
Proof. unfold updateActionDisplay. destruct (courtInterface a); reflexivity. Qed.

Lemma strays_selectCourtTeam t a : strays (selectCourtTeam t a) = strays a.
Proof.
  unfold selectCourtTeam.
  destruct (courtInterface _);
    rewrite ?strays_updateActionDisplay, strays_updateCourtPlayerDropdown;
    reflexivity.
Qed.

Lemma strays_selectQuickTeam t a : strays (selectQuickTeam t a) = strays a.
Proof. unfold selectQuickTeam. now rewrite strays_updateQuickPlayerDropdown. Qed.

Lemma strays_updatePlayerSelects a : strays (updatePlayerSelects a) = strays a.
Proof.
  unfold updatePlayerSelects.
  now rewrite strays_updateCourtPlayerDropdown, strays_updateQuickPlayerDropdown,
    strays_selectCourtTeam, strays_selectQuickTeam.
Qed.

Lemma strays_updateAllDisplays a : strays (updateAllDisplays a) = strays a.
Proof.
  unfold updateAllDisplays, updateTeamDisplays.
  destruct (currentGame a) as [g|]; [|reflexivity].
  destruct (String.eqb _ _); [apply strays_updatePlayerSelects | reflexivity].
Qed.

Lemma strays_addPlayByPlayEvent m a : strays (addPlayByPlayEvent m a) = strays a.
Proof. unfold addPlayByPlayEvent. destruct (currentGame a); reflexivity. Qed.

Lemma strays_onGame f a a' : onGame f a = Ok a' -> strays a' = strays a.
Proof.
  unfold onGame. destruct (currentGame a); [|discriminate]. now intros [= <-].
Qed.

Lemma strays_endGame a a' : endGame a = Ok a' -> strays a' = strays a.
Proof.
  unfold endGame, onGame.
  cbn [clearIntervals set_clockInterval set_shotClockInterval currentGame].
  destruct (currentGame a) as [g|]; [|discriminate].
  cbn [andThen set_currentGame currentGame]. intros [= <-].
  now rewrite strays_updateAllDisplays, strays_addPlayByPlayEvent.
Qed.

Lemma strays_handlePeriodEnd a a' : handlePeriodEnd a = Ok a' -> strays a' = strays a.
Proof.
  unfold handlePeriodEnd, onGame.
  cbn [clearIntervals set_clockInterval set_shotClockInterval currentGame].
  destruct (currentGame a) as [g|] eqn:Hg; [|discriminate].
  cbn [andThen set_currentGame currentGame].
  destruct (period _ <? maxPeriods _).
  - unfold onGameState, onGame. cbn [set_currentGame currentGame andThen].
    intros [= <-]. now rewrite strays_updateAllDisplays, strays_addPlayByPlayEvent.
  - destruct (at_home _ =? at_away _).
    + unfold onGameState, onGame. cbn [set_currentGame currentGame andThen].
      intros [= <-]. now rewrite strays_updateAllDisplays, strays_addPlayByPlayEvent.
    + intros H. now rewrite (strays_endGame _ _ H).
Qed.

Lemma strays_pauseGame a a' : pauseGame a = Ok a' -> strays a' = strays a.
Proof.
  unfold pauseGame, onGame. destruct (currentGame a) as [g|]; [|discriminate].
  cbn [andThen]. intros [= <-].
  now rewrite strays_updateAllDisplays.
Qed.

Lemma strays_gameClockTick a a' :
  snd (gameClockTick a) = Ok a' -> strays a' = strays a.
Proof.
  unfold gameClockTick. destruct (currentGame a) as [g|] eqn:Hg; [|discriminate].
  destruct (0 <? gameTime (gameState g)); [|now intros [= <-]].
  unfold onGameState, onGame. rewrite Hg. cbn [andThen].
  destruct (_ =? 0); cbn [snd]; [|now intros [= <-]].
  intros H. now rewrite (strays_handlePeriodEnd _ _ H).
Qed.

Lemma strays_shotClockTick a a' : shotClockTick a = Ok a' -> strays a' = strays a.
Proof.
  unfold shotClockTick. destruct (currentGame a) as [g|] eqn:Hg; [|discriminate].
  destruct (0 <? shotClock (gameState g)); [|now intros [= <-]].
  apply strays_onGame.
Qed.

(** Without stray intervals a timer fires exactly while its handle is
    set. *)
Lemma running_noStray t a :
  noStrayIntervals a ->
  running t a = match t with GameTimer => clockInterval a
                           | ShotTimer => shotClockInterval a end.
Proof.
  unfold noStrayIntervals, strays. intros [= H1 H2].
  destruct t; cbn [running]; rewrite ?H1, ?H2; apply orb_false_r.
Qed.

(** ** Period end *)

Lemma maxPeriods_quarters g :
  gameFormat (settings g) = "quarters" -> maxPeriods g = 4.
Proof. unfold maxPeriods. now intros ->. Qed.

Lemma maxPeriods_halves g :
  gameFormat (settings g) = "halves" -> maxPeriods g = 2.
Proof. unfold maxPeriods. now intros ->. Qed.

(** The engine after [endGame]: the status is [final], both intervals are
    cleared, nothing else moves. *)
Lemma endGame_engine a g :
  currentGame a = Some g ->
  exists a', endGame a = Ok a'
    /\ engine a' = (Some (final, settings g, gameState g, stats g, shots g, analytics g),
                    isAdmin a, false, false, undoStack a).
Proof.
  intros Hg. unfold endGame, onGame.
  cbn [clearIntervals set_clockInterval set_shotClockInterval currentGame].
  rewrite Hg. cbn [andThen set_currentGame currentGame].
  eexists. split; [reflexivity|].
  rewrite engine_logged. reflexivity.
Qed.

(** The engine after [handlePeriodEnd], case by case. *)
Lemma handlePeriodEnd_engine a g :
  currentGame a = Some g ->
  exists a', handlePeriodEnd a = Ok a'
    /\ engine a' =
       (Some
          (if period (gameState g) <? maxPeriods g
           then (paused, settings g,
                 set_gameTime (periodDuration (settings g) * 60)
                   (set_period (period (gameState g) + 1) (gameState g)),
                 stats g, shots g, analytics g)
           else if at_home (scores (gameState g)) =? at_away (scores (gameState g))
           then (paused, settings g,
                 set_gameTime 300 (set_period (period (gameState g) + 1) (gameState g)),
                 stats g, shots g, analytics g)
           else (final, settings g, gameState g, stats g, shots g, analytics g)),
        isAdmin a, false, false, undoStack a).
Proof.
  intros Hg. unfold handlePeriodEnd, onGame.
  cbn [clearIntervals set_clockInterval set_shotClockInterval currentGame].
  rewrite Hg. cbn [andThen set_currentGame currentGame].
  change (maxPeriods (set_status paused g)) with (maxPeriods g).
  cbn [set_status gameState].
  destruct (period (gameState g) <? maxPeriods g).
  - unfold onGameState, onGame. cbn [set_currentGame currentGame andThen].
    eexists. split; [reflexivity|].
    rewrite engine_updateAllDisplays, engine_addPlayByPlayEvent. reflexivity.
  - destruct (at_home (scores (gameState g)) =? at_away (scores (gameState g))).
    + unfold onGameState, onGame. cbn [set_currentGame currentGame andThen].
      eexists. split; [reflexivity|].
      rewrite engine_updateAllDisplays, engine_addPlayByPlayEvent. reflexivity.
    + destruct (endGame_engine
                  (mkApp (Some (set_status paused g)) (currentGameCode a) (isAdmin a)
                     false false (selectedQuickPlayer a) (selectedCourtPlayer a)
                     (selectedQuickTeam a) (selectedCourtTeam a) (undoStack a)
                     (courtInterface a) (quickPlayerSelect a) (courtPlayerSelect a)
                     (strayClockIntervals a) (strayShotClockIntervals a))
                  (set_status paused g) eq_refl) as (a' & Ha' & E).
      exists a'. split; [exact Ha' | exact E].
Qed.

(** C5. Period-end handling: below the format's number of regulation
    periods (4 for quarters, 2 for halves) the period goes up by one, the
    game clock is back at the configured period length ([periodDuration]
    minutes, in seconds) and the status is paused; once regulation is used
    up and the scores are level the period goes up by one, the game clock
    is 300 seconds and the status is paused; otherwise the status is final.
    Both intervals are cleared in every case. *)
Theorem handlePeriodEnd_transitions (a : App) (g : Game) :
  currentGame a = Some g ->
  exists a' g',
    handlePeriodEnd a = Ok a' /\ currentGame a' = Some g'
    /\ clockInterval a' = false /\ shotClockInterval a' = false
    /\ (gameFormat (settings g) = "quarters" -> maxPeriods g = 4)
    /\ (gameFormat (settings g) = "halves" -> maxPeriods g = 2)
    /\ (period (gameState g) < maxPeriods g ->
        period (gameState g') = period (gameState g) + 1
        /\ gameTime (gameState g') = periodDuration (settings g) * 60
        /\ status g' = paused)
    /\ (maxPeriods g <= period (gameState g) ->
        at_home (scores (gameState g)) = at_away (scores (gameState g)) ->
        period (gameState g') = period (gameState g) + 1
        /\ gameTime (gameState g') = 300
        /\ status g' = paused)
    /\ (maxPeriods g <= period (gameState g) ->
        at_home (scores (gameState g)) <> at_away (scores (gameState g)) ->
        status g' = final).
Proof.
  intros Hg.
  destruct (handlePeriodEnd_engine a g Hg) as (a' & Ha' & E).
  destruct (engine_has_game _ _ _ _ _ _ E) as (g' & Hg').
  exists a', g'.
  split; [exact Ha'|]. split; [exact Hg'|].
  assert (Hc : clockInterval a' = false /\ shotClockInterval a' = false).
  { unfold engine in E. injection E as _ _ -> -> _. split; reflexivity. }
  destruct Hc as [-> ->]. do 2 (split; [reflexivity|]).
  split; [apply maxPeriods_quarters|]. split; [apply maxPeriods_halves|].
  repeat split; intros.
  all: destruct (Z.ltb_spec (period (gameState g)) (maxPeriods g)); try lia.
  all: try (destruct (Z.eqb_spec (at_home (scores (gameState g)))
                                 (at_away (scores (gameState g)))); try congruence).
  all: destruct (engine_game _ _ _ _ _ _ _ _ _ _ _ _ E Hg')
         as (Hst & _ & Hgs & _); rewrite ?Hgs, ?Hst; reflexivity.
Qed.

Lemma handlePeriodEnd_transitions_witness :
  exists a' g',
    handlePeriodEnd fourthQuarter = Ok a' /\ currentGame a' = Some g'
    /\ period (gameState g') = 5 /\ gameTime (gameState g') = 300
    /\ status g' = paused.
Proof.
  assert (Hg : exists g, currentGame fourthQuarter = Some g
                         /\ gameFormat (settings g) = "quarters"
                         /\ period (gameState g) = 4
                         /\ at_home (scores (gameState g)) = at_away (scores (gameState g))).
  { vm_compute. eexists. repeat split. }
  destruct Hg as (g & Hg & Hf & Hp & Hs).
  destruct (handlePeriodEnd_transitions fourthQuarter g Hg)
    as (a' & g' & Ha' & Hg' & _ & _ & Hq & _ & _ & Hot & _).
  exists a', g'. rewrite (Hq Hf), Hp in Hot.
  destruct (Hot ltac:(lia) Hs) as (H1 & H2 & H3).
  repeat split; assumption.
Defined.

(** ** Starting and stopping the clock *)

Lemma engine_startClockInterval a :
  engine (startClockInterval a)
  = (option_map gameCore (currentGame a), isAdmin a, true, shotClockInterval a,
     undoStack a).
Proof. unfold startClockInterval. destruct (clockInterval a); reflexivity. Qed.

Lemma engine_startShotClockInterval a :
  engine (startShotClockInterval a)
  = (option_map gameCore (currentGame a), isAdmin a, clockInterval a, true,
     undoStack a).
Proof. unfold startShotClockInterval. destruct (shotClockInterval a); reflexivity. Qed.

Lemma resumeGame_engine a g :
  currentGame a = Some g ->
  exists a', resumeGame a = Ok a'
    /\ engine a' = (Some (live, settings g, gameState g, stats g, shots g, analytics g),
                    isAdmin a, true,
                    if shotClockEnabled (settings g) then true else shotClockInterval a,
                    undoStack a).
Proof.
  intros Hg. unfold resumeGame, onGame. rewrite Hg. cbn [andThen].
  set (a0 := addPlayByPlayEvent _ _).
  assert (E0 : engine a0
               = (Some (live, settings g, gameState g, stats g, shots g, analytics g),
                  isAdmin a, clockInterval a, shotClockInterval a, undoStack a)).
  { unfold a0. rewrite engine_addPlayByPlayEvent. reflexivity. }
  set (a1 := startClockInterval a0).
  assert (E1 : engine a1
               = (Some (live, settings g, gameState g, stats g, shots g, analytics g),
                  isAdmin a, true, shotClockInterval a, undoStack a)).
  { unfold a1. rewrite engine_startClockInterval. reflexivity. }
  destruct (engine_has_game _ _ _ _ _ _ E1) as (g1 & Hg1).
  rewrite Hg1.
  destruct (engine_game _ _ _ _ _ _ _ _ _ _ _ _ E1 Hg1) as (_ & -> & _).
  eexists. split; [reflexivity|].
  rewrite engine_updateAllDisplays.
  destruct (shotClockEnabled (settings g)); [|exact E1].
  rewrite engine_startShotClockInterval.
  unfold engine in E1. congruence.
Qed.

Lemma pauseGame_engine a g :
  currentGame a = Some g ->
  exists a', pauseGame a = Ok a'
    /\ engine a' = (Some (paused, settings g, gameState g, stats g, shots g, analytics g),
                    isAdmin a, false, false, undoStack a).
Proof.
  intros Hg. unfold pauseGame, onGame. rewrite Hg. cbn [andThen].
  eexists. split; [reflexivity|].
  rewrite engine_updateAllDisplays.
  reflexivity.
Qed.

(** C6, as the code has it. Called by an admin on a loaded game,
    [toggleGameClock] takes the session to [live] and starts the game-clock
    countdown (and the shot-clock countdown when it is enabled) from every
    status other than [live]: from [ready] and [paused], and from [setup]
    and [final] as well, [resumeGame] having no status check. *)
Theorem toggleGameClock_starts_unless_live (a : App) (g : Game) :
  currentGame a = Some g -> isAdmin a = true -> status g <> live ->
  exists a' g',
    toggleGameClock a = Ok a' /\ currentGame a' = Some g'
    /\ status g' = live /\ clockInterval a' = true
    /\ (shotClockEnabled (settings g) = true -> shotClockInterval a' = true).
Proof.
  intros Hg Had Hst. unfold toggleGameClock. rewrite Hg, Had. cbn [negb].
  destruct (resumeGame_engine a g Hg) as (a' & Ha' & E).
  destruct (engine_has_game _ _ _ _ _ _ E) as (g' & Hg').
  exists a', g'.
  destruct (engine_game _ _ _ _ _ _ _ _ _ _ _ _ E Hg') as (Hs & _).
  assert (Hc : clockInterval a' = true
               /\ (shotClockEnabled (settings g) = true -> shotClockInterval a' = true)).
  { unfold engine in E. injection E as _ _ -> -> _.
    split; [reflexivity|]. now intros ->. }
  destruct (status g); try contradiction; repeat split; tauto.
Qed.

Lemma toggleGameClock_starts_unless_live_witness :
  exists a' g',
    toggleGameClock readyGame = Ok a' /\ currentGame a' = Some g'
    /\ status g' = live /\ clockInterval a' = true.
Proof.
  assert (Hg : exists g, currentGame readyGame = Some g /\ status g = ready).
  { vm_compute. eexists. split; reflexivity. }
  destruct Hg as (g & Hg & Hs).
  destruct (toggleGameClock_starts_unless_live readyGame g Hg eq_refl)
    as (a' & g' & H1 & H2 & H3 & H4 & _).
  { rewrite Hs. discriminate. }
  exists a', g'. repeat split; assumption.
Defined.

(** C6 as stated fails: the start operation takes a session in status
    [setup] (a game just created) to [live] with both countdowns started,
    and likewise a session in status [final]. *)
Lemma toggleGameClock_from_setup_and_final_goes_live :
  (option_map status (currentGame createdGame) = Some setup
   /\ exists a' g',
        toggleGameClock createdGame = Ok a' /\ currentGame a' = Some g'
        /\ status g' = live /\ clockInterval a' = true /\ shotClockInterval a' = true)
  /\ (option_map status (currentGame endedGame) = Some final
      /\ exists a' g',
           toggleGameClock endedGame = Ok a' /\ currentGame a' = Some g'
           /\ status g' = live /\ clockInterval a' = true /\ shotClockInterval a' = true).
Proof.
  split; (split; [reflexivity|]); vm_compute; do 2 eexists; repeat split.
Qed.

(** ** The one-second ticks *)

Lemma gameClockTick_idle a g :
  currentGame a = Some g -> gameTime (gameState g) <= 0 ->
  gameClockTick a = (Idle, Ok a).
Proof.
  intros Hg Hz. unfold gameClockTick. rewrite Hg.
  destruct (Z.ltb_spec 0 (gameTime (gameState g))); [lia | reflexivity].
Qed.

Lemma gameClockTick_decrement a g :
  currentGame a = Some g -> 1 < gameTime (gameState g) ->
  gameClockTick a
  = (Decremented,
     Ok (set_currentGame
           (Some (set_gameState (set_gameTime (gameTime (gameState g) - 1) (gameState g)) g))
           a)).
Proof.
  intros Hg Hz. unfold gameClockTick. rewrite Hg.
  destruct (Z.ltb_spec 0 (gameTime (gameState g))); [|lia].
  destruct (Z.eqb_spec (gameTime (gameState g) - 1) 0); [lia|].
  unfold onGameState, onGame. now rewrite Hg.
Qed.

Lemma gameClockTick_period_end a g :
  currentGame a = Some g -> gameTime (gameState g) = 1 ->
  gameClockTick a
  = (PeriodEnded,
     handlePeriodEnd
       (set_currentGame (Some (set_gameState (set_gameTime 0 (gameState g)) g)) a)).
Proof.
  intros Hg Hz. unfold gameClockTick. rewrite Hg, Hz. cbn [Z.ltb Z.compare Z.sub Z.eqb].
  unfold onGameState, onGame. rewrite Hg, Hz. reflexivity.
Qed.

Lemma shotClockTick_idle a g :
  currentGame a = Some g -> shotClock (gameState g) <= 0 ->
  shotClockTick a = Ok a.
Proof.
  intros Hg Hz. unfold shotClockTick. rewrite Hg.
  destruct (Z.ltb_spec 0 (shotClock (gameState g))); [lia | reflexivity].
Qed.

Lemma shotClockTick_decrement a g :
  currentGame a = Some g -> 0 < shotClock (gameState g) ->
  shotClockTick a
  = Ok (set_currentGame
          (Some (set_gameState (set_shotClock (shotClock (gameState g) - 1) (gameState g)) g))
          a).
Proof.
  intros Hg Hz. unfold shotClockTick. rewrite Hg.
  destruct (Z.ltb_spec 0 (shotClock (gameState g))); [|lia].
  unfold onGameState, onGame. now rewrite Hg.
Qed.

(** The game clock's callback calls [handlePeriodEnd] exactly when it takes
    the clock from 1 to 0. *)
Lemma gameClockTick_effect a g :
  currentGame a = Some g ->
  fst (gameClockTick a) = PeriodEnded <-> gameTime (gameState g) = 1.
Proof.
  intros Hg.
  destruct (Z.lt_trichotomy (gameTime (gameState g)) 1) as [H|[H|H]].
  - rewrite (gameClockTick_idle a g Hg) by lia. cbn. split; [discriminate | lia].
  - rewrite (gameClockTick_period_end a g Hg H). cbn. tauto.
  - rewrite (gameClockTick_decrement a g Hg H). cbn. split; [discriminate | lia].
Qed.

(** The period end keeps the shot clock, and sets the game clock from the
    settings, to 300 or not at all. *)
Lemma handlePeriodEnd_clocks a g :
  currentGame a = Some g ->
  exists a' g', handlePeriodEnd a = Ok a' /\ currentGame a' = Some g'
    /\ settings g' = settings g
    /\ shotClock (gameState g') = shotClock (gameState g)
    /\ (gameTime (gameState g') = periodDuration (settings g) * 60
        \/ gameTime (gameState g') = 300
        \/ gameTime (gameState g') = gameTime (gameState g)).
Proof.
  intros Hg.
  destruct (handlePeriodEnd_engine a g Hg) as (a' & Ha' & E).
  destruct (engine_has_game _ _ _ _ _ _ E) as (g' & Hg').
  exists a', g'. split; [exact Ha'|]. split; [exact Hg'|].
  destruct (period (gameState g) <? maxPeriods g);
    [|destruct (at_home (scores (gameState g)) =? at_away (scores (gameState g)))];
    destruct (engine_game _ _ _ _ _ _ _ _ _ _ _ _ E Hg') as (_ & -> & -> & _);
    cbn; auto.
Qed.

(** A tick that returns leaves a game loaded; it never takes the shot clock
    below zero, nor the game clock when the period length of the settings
    is not negative. *)
Lemma tick_never_negative a t a' g :
  currentGame a = Some g -> tick a t a' ->
  exists g', currentGame a' = Some g'
    /\ settings g' = settings g
    /\ (0 <= shotClock (gameState g) -> 0 <= shotClock (gameState g'))
    /\ (0 <= gameTime (gameState g) -> 0 <= periodDuration (settings g) ->
        0 <= gameTime (gameState g')).
Proof.
  intros Hg Ht. destruct Ht as [a t a' Hrun Hfire].
  unfold fire in Hfire. rewrite Hrun in Hfire. destruct t; cbn [snd] in Hfire.
  - destruct (Z.lt_trichotomy (gameTime (gameState g)) 1) as [H|[H|H]].
    + rewrite (gameClockTick_idle a g Hg) in Hfire by lia.
      injection Hfire as <-. exists g. repeat split; auto.
    + rewrite (gameClockTick_period_end a g Hg H) in Hfire. cbn [snd] in Hfire.
      destruct (handlePeriodEnd_clocks
                  (set_currentGame (Some (set_gameState (set_gameTime 0 (gameState g)) g)) a)
                  _ eq_refl) as (a1 & g1 & Ha1 & Hg1 & Hse & Hsc & Hgt).
      rewrite Ha1 in Hfire. injection Hfire as <-.
      exists g1. split; [exact Hg1|]. split; [exact Hse|].
      cbn [gameState set_gameState shotClock set_gameTime gameTime settings] in Hsc, Hgt.
      split; [lia|]. intros _ Hpd. destruct Hgt as [Hgt|[Hgt|Hgt]]; lia.
    + rewrite (gameClockTick_decrement a g Hg H) in Hfire. cbn [snd] in Hfire.
      injection Hfire as <-.
      eexists. split; [reflexivity|]. cbn. repeat split; auto; lia.
  - destruct (Z.lt_trichotomy (shotClock (gameState g)) 1) as [H|H].
    + rewrite (shotClockTick_idle a g Hg) in Hfire by lia.
      injection Hfire as <-. exists g. repeat split; auto.
    + rewrite (shotClockTick_decrement a g Hg) in Hfire by lia.
      injection Hfire as <-.
      eexists. split; [reflexivity|]. cbn. repeat split; auto; lia.
Qed.

(** Once both handles are cleared, and with no stray interval, no callback
    runs any more. *)
Lemma runTimers_stopped sched a :
  clockInterval a = false -> shotClockInterval a = false -> noStrayIntervals a ->
  runTimers sched a = (O, Ok a).
Proof.
  intros Hc Hs Hn. induction sched as [|t sched IH]; [reflexivity|].
  cbn [runTimers]. unfold fire.
  replace (running t a) with false
    by (rewrite (running_noStray t a Hn); destruct t; congruence).
  now rewrite IH.
Qed.

(** The shot clock's callback leaves everything but the shot clock alone. *)
Lemma shotClockTick_frame a g :
  currentGame a = Some g ->
  exists a' g', shotClockTick a = Ok a' /\ currentGame a' = Some g'
    /\ gameTime (gameState g') = gameTime (gameState g)
    /\ period (gameState g') = period (gameState g)
    /\ scores (gameState g') = scores (gameState g)
    /\ status g' = status g /\ settings g' = settings g
    /\ clockInterval a' = clockInterval a
    /\ strays a' = strays a.
Proof.
  intros Hg.
  destruct (Z.lt_trichotomy (shotClock (gameState g)) 1) as [H|H].
  - rewrite (shotClockTick_idle a g Hg) by lia. exists a, g. repeat split; auto.
  - rewrite (shotClockTick_decrement a g Hg) by lia.
    do 2 eexists. split; [reflexivity|]. cbn. repeat split.
Qed.

(** One firing of the shot-clock timer, whether its interval runs or not. *)
Lemma fire_ShotTimer_frame a g :
  currentGame a = Some g ->
  exists a' g', fire ShotTimer a = (Idle, Ok a') /\ currentGame a' = Some g'
    /\ gameTime (gameState g') = gameTime (gameState g)
    /\ period (gameState g') = period (gameState g)
    /\ scores (gameState g') = scores (gameState g)
    /\ status g' = status g /\ settings g' = settings g
    /\ clockInterval a' = clockInterval a
    /\ strays a' = strays a.
Proof.
  intros Hg. unfold fire. destruct (running ShotTimer a).
  - destruct (shotClockTick_frame a g Hg) as (a' & g' & -> & H).
    exists a', g'. split; [reflexivity | exact H].
  - exists a, g. repeat split; auto.
Qed.

(** While the game clock shows zero (or less) no tick handles a period
    end, whatever intervals run. *)
Lemma runTimers_at_zero sched : forall a g,
  currentGame a = Some g -> gameTime (gameState g) <= 0 ->
  fst (runTimers sched a) = O
  /\ exists a' g', snd (runTimers sched a) = Ok a' /\ currentGame a' = Some g'
       /\ gameTime (gameState g') = gameTime (gameState g)
       /\ period (gameState g') = period (gameState g)
       /\ status g' = status g.
Proof.
  induction sched as [|t sched IH]; intros a g Hg Hz.
  - split; [reflexivity|]. exists a, g. repeat split; auto.
  - cbn [runTimers]. destruct t.
    + assert (Hf : fire GameTimer a = (Idle, Ok a)).
      { unfold fire. destruct (running GameTimer a); [|reflexivity].
        apply (gameClockTick_idle a g Hg Hz). }
      rewrite Hf. destruct (IH a g Hg Hz) as (Hn & a' & g' & Hr & H).
      destruct (runTimers sched a) as [n r]. cbn [fst snd] in *.
      split; [now rewrite Hn|]. exists a', g'. split; [exact Hr | exact H].
    + destruct (fire_ShotTimer_frame a g Hg)
        as (a1 & g1 & -> & Hg1 & Hgt1 & Hp1 & _ & Hst1 & _).
      destruct (IH a1 g1 Hg1) as (Hn & a' & g' & Hr & Hg' & Hgt & Hp & Hst); [lia|].
      destruct (runTimers sched a1) as [n r]. cbn [fst snd] in *.
      split; [now rewrite Hn|]. exists a', g'. repeat split; congruence.
Qed.

(** A countdown from [gameTime] seconds with no stray interval: along any
    schedule of the two timers, nothing but the clocks moves while the game
    clock's interval has expired fewer than [gameTime] times; the expiry
    number [gameTime] calls [handlePeriodEnd] with the game clock at zero,
    and what that call returns is the state the schedule ends in. *)
Lemma runTimers_period_end_once sched : forall a g,
  currentGame a = Some g -> clockInterval a = true -> noStrayIntervals a ->
  0 < gameTime (gameState g) ->
  (Z.of_nat (gameTicks sched) < gameTime (gameState g) ->
   fst (runTimers sched a) = O
   /\ exists a' g', snd (runTimers sched a) = Ok a' /\ currentGame a' = Some g'
        /\ gameTime (gameState g') = gameTime (gameState g) - Z.of_nat (gameTicks sched)
        /\ period (gameState g') = period (gameState g)
        /\ status g' = status g)
  /\ (gameTime (gameState g) <= Z.of_nat (gameTicks sched) ->
      fst (runTimers sched a) = 1%nat
      /\ exists a0 g0 a',
           currentGame a0 = Some g0
           /\ gameTime (gameState g0) = 0
           /\ period (gameState g0) = period (gameState g)
           /\ scores (gameState g0) = scores (gameState g)
           /\ status g0 = status g /\ settings g0 = settings g
           /\ handlePeriodEnd a0 = Ok a'
           /\ snd (runTimers sched a) = Ok a').
Proof.
  induction sched as [|t sched IH]; intros a g Hg Hc Hn Hgt.
  - change (Z.of_nat (gameTicks [])) with 0. split; [|lia].
    intros _. split; [reflexivity|]. exists a, g.
    rewrite Z.sub_0_r. repeat split; auto.
  - cbn [runTimers]. destruct t.
    + assert (Hticks : Z.of_nat (gameTicks (GameTimer :: sched))
                       = Z.of_nat (gameTicks sched) + 1).
      { unfold gameTicks. cbn [List.filter isGameTimer length]. lia. }
      rewrite Hticks. unfold fire. rewrite (running_noStray _ _ Hn), Hc.
      destruct (Z.eq_dec (gameTime (gameState g)) 1) as [H1|H1].
      * rewrite (gameClockTick_period_end a g Hg H1).
        set (a0 := set_currentGame _ a).
        destruct (handlePeriodEnd_engine a0 _ eq_refl) as (a1 & Ha1 & E).
        rewrite Ha1.
        assert (Hoff : clockInterval a1 = false /\ shotClockInterval a1 = false).
        { unfold engine in E. injection E as _ _ -> -> _. split; reflexivity. }
        destruct Hoff as [Hoff1 Hoff2].
        assert (Hn1 : noStrayIntervals a1).
        { unfold noStrayIntervals. rewrite (strays_handlePeriodEnd _ _ Ha1). exact Hn. }
        rewrite (runTimers_stopped sched a1 Hoff1 Hoff2 Hn1). cbn [fst snd].
        split; [lia|]. intros _. split; [reflexivity|].
        exists a0, (set_gameState (set_gameTime 0 (gameState g)) g), a1.
        repeat split; auto.
      * rewrite (gameClockTick_decrement a g Hg) by lia.
        set (a1 := set_currentGame _ a).
        destruct (IH a1 _ eq_refl Hc Hn) as [Hlt Hge]; [cbn; lia|].
        cbn [gameState set_gameState gameTime set_gameTime period scores status
             settings] in Hlt, Hge.
        destruct (runTimers sched a1) as [n r]. cbn [fst snd] in *.
        split.
        -- intros Hk. destruct Hlt as (H0 & a' & g' & Hr & Hg' & Hgt' & H); [lia|].
           split; [now rewrite H0|]. exists a', g'.
           split; [exact Hr|]. split; [exact Hg'|]. split; [lia | exact H].
        -- intros Hk. destruct Hge as (H0 & H); [lia|].
           split; [now rewrite H0 | exact H].
    + change (Z.of_nat (gameTicks (ShotTimer :: sched)))
        with (Z.of_nat (gameTicks sched)).
      destruct (fire_ShotTimer_frame a g Hg)
        as (a1 & g1 & -> & Hg1 & Hgt1 & Hp1 & Hs1 & Hst1 & Hse1 & Hc1 & Hn1).
      destruct (IH a1 g1 Hg1) as [Hlt Hge];
        [congruence | unfold noStrayIntervals; congruence | lia |].
      rewrite Hgt1, Hp1, Hst1 in Hlt. rewrite Hgt1, Hp1, Hs1, Hst1, Hse1 in Hge.
      destruct (runTimers sched a1) as [n r]. cbn [fst snd] in *.
      split; assumption.
Qed.

(** C7. Under the one-second ticks of the running clocks a tick changes a
    counter only when it is positive, and then takes exactly one off it.
    The shot clock therefore never becomes negative, and neither does the
    game clock on a session whose configured period length is not
    negative (the tick that ends a period sets the clock of the next one
    from it). [handlePeriodEnd] is called by the tick that takes
    [gameTime] from 1 to 0, whose result is what that call returns on the
    state with the clock at zero, and by no other tick: while the clock
    shows zero no tick calls it, whatever intervals run; and in a
    countdown from [gameTime > 0], with no interval running without a
    handle, it is called exactly once along any schedule in which the game
    clock's interval expires at least [gameTime] times, and not at all
    along the others. *)
Theorem ticks_clamp_at_zero_period_end_once :
  (forall a g, currentGame a = Some g ->
     (gameTime (gameState g) <= 0 -> gameClockTick a = (Idle, Ok a))
     /\ (1 < gameTime (gameState g) ->
         gameClockTick a
         = (Decremented,
            Ok (set_currentGame
                  (Some (set_gameState
                           (set_gameTime (gameTime (gameState g) - 1) (gameState g)) g))
                  a)))
     /\ (gameTime (gameState g) = 1 ->
         gameClockTick a
         = (PeriodEnded,
            handlePeriodEnd
              (set_currentGame
                 (Some (set_gameState (set_gameTime 0 (gameState g)) g)) a)))
     /\ (shotClock (gameState g) <= 0 -> shotClockTick a = Ok a)
     /\ (0 < shotClock (gameState g) ->
         shotClockTick a
         = Ok (set_currentGame
                 (Some (set_gameState
                          (set_shotClock (shotClock (gameState g) - 1) (gameState g)) g))
                 a)))
  /\ (forall a t a' g,
        currentGame a = Some g -> tick a t a' ->
        exists g', currentGame a' = Some g'
          /\ settings g' = settings g
          /\ (0 <= shotClock (gameState g) -> 0 <= shotClock (gameState g'))
          /\ (0 <= gameTime (gameState g) -> 0 <= periodDuration (settings g) ->
              0 <= gameTime (gameState g')))
  /\ (forall sched a g,
        currentGame a = Some g -> gameTime (gameState g) <= 0 ->
        fst (runTimers sched a) = O
        /\ exists a' g', snd (runTimers sched a) = Ok a' /\ currentGame a' = Some g'
             /\ gameTime (gameState g') = gameTime (gameState g)
             /\ period (gameState g') = period (gameState g)
             /\ status g' = status g)
  /\ (forall sched a g,
        currentGame a = Some g -> clockInterval a = true -> noStrayIntervals a ->
        0 < gameTime (gameState g) ->
        (Z.of_nat (gameTicks sched) < gameTime (gameState g) ->
         fst (runTimers sched a) = O
         /\ exists a' g', snd (runTimers sched a) = Ok a' /\ currentGame a' = Some g'
              /\ gameTime (gameState g')
                 = gameTime (gameState g) - Z.of_nat (gameTicks sched)
              /\ period (gameState g') = period (gameState g)
              /\ status g' = status g)
        /\ (gameTime (gameState g) <= Z.of_nat (gameTicks sched) ->
            fst (runTimers sched a) = 1%nat
            /\ exists a0 g0 a',
                 currentGame a0 = Some g0
                 /\ gameTime (gameState g0) = 0
                 /\ period (gameState g0) = period (gameState g)
                 /\ scores (gameState g0) = scores (gameState g)
                 /\ status g0 = status g /\ settings g0 = settings g
                 /\ handlePeriodEnd a0 = Ok a'
                 /\ snd (runTimers sched a) = Ok a')).
Proof.
  split; [|split; [exact tick_never_negative|split]].
  - intros a g Hg.
    split; [apply gameClockTick_idle, Hg|].
    split; [apply gameClockTick_decrement, Hg|].
    split; [apply gameClockTick_period_end, Hg|].
    split; [apply shotClockTick_idle, Hg | apply shotClockTick_decrement, Hg].
  - intros sched a g. apply runTimers_at_zero.
  - intros sched a g. apply runTimers_period_end_once.
Qed.

Lemma ticks_clamp_at_zero_period_end_once_witness :
  fst (runTimers (ShotTimer :: repeat GameTimer 718) runningGame) = 1%nat
  /\ exists a' g',
       snd (runTimers (ShotTimer :: repeat GameTimer 718) runningGame) = Ok a'
       /\ currentGame a' = Some g'
       /\ period (gameState g') = 2 /\ gameTime (gameState g') = 720.
Proof.
  assert (Hg : exists g, currentGame runningGame = Some g
                         /\ gameTime (gameState g) = 718
                         /\ period (gameState g) = 1
                         /\ maxPeriods g = 4
                         /\ periodDuration (settings g) = 12).
  { vm_compute. eexists. repeat apply conj; reflexivity. }
  destruct Hg as (g & Hg & Hgt & Hp & Hm & Hpd).
  destruct ticks_clamp_at_zero_period_end_once as (_ & _ & _ & Hrun).
  destruct (Hrun (ShotTimer :: repeat GameTimer 718) runningGame g Hg)
    as [_ Hge].
  - vm_compute; reflexivity.
  - vm_compute; reflexivity.
  - lia.
  - assert (Hk : Z.of_nat (gameTicks (ShotTimer :: repeat GameTimer 718)) = 718)
      by (vm_compute; reflexivity).
    destruct Hge as (Hn & a0 & g0 & a' & Hg0 & Hz & Hp0 & _ & _ & Hse0 & Hend & Hr);
      [lia|].
    split; [exact Hn|].
    destruct (handlePeriodEnd_engine a0 g0 Hg0) as (a1 & Ha1 & E).
    rewrite Hend in Ha1. injection Ha1 as <-.
    destruct (engine_has_game _ _ _ _ _ _ E) as (g' & Hg').
    exists a', g'. split; [exact Hr|]. split; [exact Hg'|].
    assert (Hm0 : maxPeriods g0 = 4) by (unfold maxPeriods in *; now rewrite Hse0).
    rewrite Hm0, Hp0, Hp in E. cbn [Z.ltb Z.compare] in E.
    destruct (engine_game _ _ _ _ _ _ _ _ _ _ _ _ E Hg') as (_ & _ & Hgs & _).
    rewrite Hgs, Hse0, Hpd. split; reflexivity.
Defined.

(** The claim as it stands fails on a session with a negative period
    length: in [lastSecond] both clocks are non-negative (1 and 21), the
    game clock's interval runs, and the tick that ends the period leaves
    [gameTime] at -60. *)
Lemma period_end_tick_leaves_game_clock_negative :
  option_map (fun g => (gameTime (gameState g), shotClock (gameState g),
                        periodDuration (settings g)))
             (currentGame lastSecond)
  = Some (1, 21, -1)
  /\ tick lastSecond GameTimer (stateOf (snd (fire GameTimer lastSecond)))
  /\ option_map (fun g => gameTime (gameState g))
                (currentGame (stateOf (snd (fire GameTimer lastSecond))))
     = Some (-60).
Proof.
  split; [vm_compute; reflexivity|]. split; [|vm_compute; reflexivity].
  apply tick_fire; vm_compute; reflexivity.
Qed.

(** ** Zone classification *)

Lemma Qleb_true a b : Qleb a b = true <-> (a <= b)%Q.
Proof. apply Qle_bool_iff. Qed.

Lemma Qltb_true a b : Qltb a b = true <-> (a < b)%Q.
Proof.
  unfold Qltb. rewrite negb_true_iff, <- not_true_iff_false, Qle_bool_iff.
  split; [apply Qnot_le_lt | apply Qlt_not_le].
Qed.

Lemma Qltb_false a b : Qltb a b = false <-> (b <= a)%Q.
Proof.
  unfold Qltb. rewrite negb_false_iff. apply Qle_bool_iff.
Qed.

Lemma Qleb_false a b : Qleb a b = false <-> (b < a)%Q.
Proof.
  unfold Qleb. rewrite <- not_true_iff_false, Qle_bool_iff.
  split; [apply Qnot_le_lt | apply Qlt_not_le].
Qed.

(** *** The comparisons with a radius *)

Lemma Qleb_wd a a' b b' : (a == a')%Q -> (b == b')%Q -> Qleb a b = Qleb a' b'.
Proof.
  intros Ha Hb. apply eq_true_iff_eq. rewrite !Qleb_true, Ha, Hb. reflexivity.
Qed.

Lemma nearCircle_spec dx dy r :
  nearCircle dx dy r = true
  <-> ((1 - hypotTolerance) * (1 - hypotTolerance) * (r * r) <= dx * dx + dy * dy
       /\ dx * dx + dy * dy <= (1 + hypotTolerance) * (1 + hypotTolerance) * (r * r))%Q.
Proof. unfold nearCircle. now rewrite andb_true_iff, !Qleb_true. Qed.

Lemma tolerance_small :
  ((1 + hypotTolerance) * (1 + hypotTolerance) <= 3 # 2)%Q
  /\ (1 # 2 <= (1 - hypotTolerance) * (1 - hypotTolerance))%Q.
Proof. split; vm_compute; discriminate. Qed.

(** Well outside the circle the comparisons are those of the exact
    squares, whatever the implementation. *)
Lemma hypot_far hypot dx dy r :
  ((3 # 2) * (r * r) < dx * dx + dy * dy)%Q ->
  hypot_le hypot dx dy r = false /\ hypot_gt hypot dx dy r = true.
Proof.
  intros H. destruct tolerance_small as [Hup _].
  assert (Hrr : (0 <= r * r)%Q) by nra.
  assert (Hn : nearCircle dx dy r = false).
  { apply not_true_iff_false. rewrite nearCircle_spec. intros [_ Hle]. nra. }
  unfold hypot_le, hypot_gt. rewrite Hn. split.
  - apply Qleb_false. nra.
  - apply Qltb_true. nra.
Qed.

(** What [dist <= r] tells about the exact squares, whatever the
    implementation. *)
Lemma hypot_le_inside hypot dx dy r :
  hypot_le hypot dx dy r = true -> (dx * dx + dy * dy <= (3 # 2) * (r * r))%Q.
Proof.
  destruct tolerance_small as [Hup _].
  assert (Hrr : (0 <= r * r)%Q) by nra.
  unfold hypot_le. destruct (nearCircle dx dy r) eqn:Hn.
  - apply nearCircle_spec in Hn as [_ Hle]. intros _. nra.
  - rewrite Qleb_true. intros Hle. nra.
Qed.

(** The comparisons only see the absolute value of a difference. *)
Lemma hypot_mirror hypot dx dx' dy r :
  (dx' == - dx)%Q ->
  hypot_le hypot dx' dy r = hypot_le hypot dx dy r
  /\ hypot_gt hypot dx' dy r = hypot_gt hypot dx dy r.
Proof.
  intros H.
  assert (Hs : (dx' * dx' + dy * dy == dx * dx + dy * dy)%Q) by (rewrite H; ring).
  assert (Hn : nearCircle dx' dy r = nearCircle dx dy r).
  { unfold nearCircle. f_equal; apply Qleb_wd; try reflexivity; exact Hs. }
  assert (Hd : dist hypot dx' dy = dist hypot dx dy).
  { unfold dist. f_equal. apply Qred_complete. rewrite H. apply Qabs_opp. }
  pose proof (Qleb_wd _ _ _ _ Hs (Qeq_refl (r * r))) as Hle.
  unfold hypot_le, hypot_gt, Qltb. rewrite Hn, Hd.
  unfold Qleb in *. rewrite Hle.
  split; reflexivity.
Qed.

(** A point past the logo threshold that the three earlier tests reject is a
    logo shot, whatever the later tests would say. *)
Lemma detectZone_logo hypot court x y :
  CourtZoneDetector.isAtFreeThrowLine court x y = false ->
  CourtZoneDetector.inRestrictedArea hypot court x y = false ->
  CourtZoneDetector.isInPaint court x y = false ->
  (logoShotStartY court < y)%Q ->
  CourtZoneDetector.detectZone hypot court x y
  = {| name := "logo-shot"; details := "Logo Shot" |}.
Proof.
  intros Hft Hra Hpaint Hy. unfold CourtZoneDetector.detectZone.
  rewrite Hft, Hra, Hpaint.
  apply Qltb_true in Hy. now rewrite Hy.
Qed.

Ltac unfold_zone_tests :=
  unfold CourtZoneDetector.isAtFreeThrowLine, CourtZoneDetector.inRestrictedArea,
    CourtZoneDetector.isInPaint, CourtZoneDetector.beyondThreePointRadius;
  cbn [FIBA_DIMS NBA_DIMS keyHeight keyLeftX keyRightX basketX basketY
       restrictedRadius baselineY threePointRadius logoShotStartY width] in *.

(** On the centre line of either court, past the logo threshold: outside
    the free-throw band, the restricted area and the paint, and farther
    from the basket than the three-point radius. *)
Lemma centre_line_past_logo hypot court y :
  court = FIBA_DIMS \/ court = NBA_DIMS ->
  (logoShotStartY court < y)%Q ->
  CourtZoneDetector.isAtFreeThrowLine court (basketX court) y = false
  /\ CourtZoneDetector.inRestrictedArea hypot court (basketX court) y = false
  /\ CourtZoneDetector.isInPaint court (basketX court) y = false
  /\ CourtZoneDetector.beyondThreePointRadius hypot court (basketX court) y = true.
Proof.
  intros [-> | ->] Hy; unfold_zone_tests; repeat split.
  - rewrite !andb_false_iff. left; left; right. apply Qltb_false. lra.
  - apply hypot_far. nra.
  - rewrite !andb_false_iff. right. apply Qleb_false. lra.
  - apply hypot_far. nra.
  - rewrite !andb_false_iff. left; left; right. apply Qltb_false. lra.
  - apply hypot_far. nra.
  - rewrite !andb_false_iff. right. apply Qleb_false. lra.
  - apply hypot_far. nra.
Qed.

(** C8. A point whose y is past the court's logo-shot threshold and that is
    outside the free-throw band, the restricted area and the paint box is
    classified [logo-shot]. On both courts this holds in particular on the
    centre line ([x] the basket's x, half the width) for every y past the
    threshold, although such a point is also beyond the three-point radius:
    the logo test comes before the corner and three-point tests. This is so
    whatever the implementation of [Math.hypot]. *)
Theorem detectZone_logo_before_three_point :
  (forall hypot court x y,
      CourtZoneDetector.isAtFreeThrowLine court x y = false ->
      CourtZoneDetector.inRestrictedArea hypot court x y = false ->
      CourtZoneDetector.isInPaint court x y = false ->
      (logoShotStartY court < y)%Q ->
      CourtZoneDetector.detectZone hypot court x y
      = {| name := "logo-shot"; details := "Logo Shot" |})
  /\ (forall hypot court y,
        court = FIBA_DIMS \/ court = NBA_DIMS ->
        (logoShotStartY court < y)%Q ->
        (basketX court == width court / 2)%Q
        /\ CourtZoneDetector.beyondThreePointRadius hypot court (basketX court) y = true
        /\ name (CourtZoneDetector.detectZone hypot court (basketX court) y) = "logo-shot").
Proof.
  split; [exact detectZone_logo|].
  intros hypot court y Hc Hy.
  destruct (centre_line_past_logo hypot court y Hc Hy) as (H1 & H2 & H3 & H4).
  split; [destruct Hc as [-> | ->]; reflexivity|].
  split; [exact H4|].
  now rewrite (detectZone_logo hypot court _ y H1 H2 H3 Hy).
Qed.

Lemma detectZone_logo_before_three_point_witness :
  CourtZoneDetector.detectZone hypotDown FIBA_DIMS 750 1200
  = {| name := "logo-shot"; details := "Logo Shot" |}
  /\ CourtZoneDetector.beyondThreePointRadius hypotDown NBA_DIMS 250 400 = true
  /\ name (CourtZoneDetector.detectZone hypotDown NBA_DIMS 250 400) = "logo-shot".
Proof.
  destruct detectZone_logo_before_three_point as [Hgen Hmid].
  split.
  - apply Hgen; reflexivity.
  - apply (Hmid hypotDown NBA_DIMS 400%Q); [right; reflexivity | reflexivity].
Defined.

(** ** Undo *)

(** C9. [undoLastAction] with an empty undo stack, or by a caller who is
    not admin, returns at once: the application object, and with it the
    game state, the statistics, the analytics, the action ledger and the
    undo stack, is unchanged. *)
Theorem undoLastAction_noop (a : App) :
  isAdmin a = false \/ undoStack a = [] -> undoLastAction a = Ok a.
Proof.
  unfold undoLastAction. intros [-> | ->]; [reflexivity|].
  cbn. now rewrite orb_true_r.
Qed.

Lemma undoLastAction_noop_witness :
  (undoStack runningGame = [] /\ undoLastAction runningGame = Ok runningGame)
  /\ (isAdmin newApp = false /\ undoLastAction newApp = Ok newApp).
Proof.
  split; (split; [reflexivity|]); apply undoLastAction_noop.
  - right. reflexivity.
  - left. reflexivity.
Defined.

(** ** Recording a court action *)

Lemma hasCourt_updateQuickPlayerDropdown a :
  hasCourt (updateQuickPlayerDropdown a) = hasCourt a.
Proof.
  unfold updateQuickPlayerDropdown.
  destruct (quickPlayerSelect a) as [v|], (currentGame a) as [g|]; try reflexivity.
  destruct (keepsValue _ _ _); reflexivity.
Qed.

Lemma hasCourt_updateCourtPlayerDropdown a :
  hasCourt (updateCourtPlayerDropdown a) = hasCourt a.
Proof.
  unfold updateCourtPlayerDropdown.
  destruct (courtPlayerSelect a) as [v|], (currentGame a) as [g|]; try reflexivity.
  destruct (keepsValue _ _ _); reflexivity.
Qed.

Lemma hasCourt_updateActionDisplay l a :
  hasCourt (stateOf (updateActionDisplay l a)) = hasCourt a.
Proof.
  unfold updateActionDisplay, hasCourt.
  destruct (courtInterface a) eqn:H; cbn; rewrite ?H; reflexivity.
Qed.

Lemma hasCourt_selectCourtTeam t a : hasCourt (selectCourtTeam t a) = hasCourt a.
Proof.
  unfold selectCourtTeam.
  pose proof (hasCourt_updateCourtPlayerDropdown (set_selectedCourtTeam t a)) as H.
  destruct (courtInterface (updateCourtPlayerDropdown _)) eqn:Hc.
  - rewrite hasCourt_updateActionDisplay. exact H.
  - exact H.
Qed.

Lemma hasCourt_selectQuickTeam t a : hasCourt (selectQuickTeam t a) = hasCourt a.
Proof. unfold selectQuickTeam. now rewrite hasCourt_updateQuickPlayerDropdown. Qed.

Lemma hasCourt_updateAllDisplays a : hasCourt (updateAllDisplays a) = hasCourt a.
Proof.
  unfold updateAllDisplays, updateTeamDisplays.
  destruct (currentGame a) as [g|]; [|reflexivity].
  destruct (String.eqb _ _); [|reflexivity].
  unfold updatePlayerSelects.
  now rewrite hasCourt_updateCourtPlayerDropdown, hasCourt_updateQuickPlayerDropdown,
    hasCourt_selectCourtTeam, hasCourt_selectQuickTeam.
Qed.

Lemma updateActionDisplay_ok l a :
  hasCourt a = true ->
  exists a', updateActionDisplay l a = Ok a' /\ engine a' = engine a
             /\ hasCourt a' = true.
Proof.
  unfold hasCourt, updateActionDisplay.
  destruct (courtInterface a); [|discriminate].
  intros _. eexists. repeat split.
Qed.

(** The ledger entry and the undo entry of a court action: the snapshot
    stored with the entry is the state at the time of the push. *)
Lemma recordEntry_engine entry a g :
  currentGame a = Some g -> hasCourt a = true ->
  exists a', recordEntry entry a = Ok a'
    /\ engine a'
       = (Some (status g, settings g, gameState g, stats g,
                (shots g ++ [entry])%list, analytics g),
          isAdmin a, clockInterval a, shotClockInterval a,
          pushUndo (mkUndoEntry entry (gameState g) (stats g) (analytics g))
                   (undoStack a))
    /\ hasCourt a' = true.
Proof.
  intros Hg Hc. unfold recordEntry, onGame. rewrite Hg. cbn [andThen].
  unfold addToUndoStack. cbn [currentGame set_currentGame andThen].
  match goal with
  | |- context [updateAllDisplays ?x] => set (a2 := x)
  end.
  destruct (updateActionDisplay_ok
              (getAllActionsForTeam (selectedCourtTeam (updateAllDisplays a2))
                                    (updateAllDisplays a2))
              (updateAllDisplays a2)) as (a' & Ha' & E & Hc').
  { rewrite hasCourt_updateAllDisplays. exact Hc. }
  exists a'. split; [exact Ha'|]. split; [|exact Hc'].
  rewrite E, engine_updateAllDisplays. reflexivity.
Qed.

Lemma handleStatAction_other act key player a :
  act <> "rebound" -> act <> "assist" -> act <> "block" ->
  handleStatAction act key player a = Ok a.
Proof.
  intros H1 H2 H3. unfold handleStatAction.
  apply String.eqb_neq in H1, H2, H3. now rewrite H1, H2, H3.
Qed.

(** The entry just pushed is on top of the undo stack, evicted or not. *)
Lemma last_pushUndo e st : last (pushUndo e st) = Some e.
Proof.
  unfold pushUndo.
  destruct (Nat.ltb_spec maxUndoStackSize (length (st ++ [e])%list)) as [H|H].
  - destruct st as [|e0 st]; [cbn in H; unfold maxUndoStackSize in H; lia|].
    cbn [app tail]. apply last_snoc.
  - apply last_snoc.
Qed.

Lemma length_pushUndo e st :
  (length (pushUndo e st) <= maxUndoStackSize)%nat
  \/ (maxUndoStackSize < length st)%nat.
Proof.
  unfold pushUndo.
  destruct (Nat.ltb_spec maxUndoStackSize (length (st ++ [e])%list)) as [H|H].
  - rewrite length_app in H. cbn in H.
    destruct st as [|e0 st]; [cbn in *; lia|].
    cbn [app tail]. rewrite length_app. cbn in *. lia.
  - left. exact H.
Qed.

(** C10. Recording a court action that is no shot and is none of
    [rebound], [assist], [block] (the catalog's [foul] is one) for the
    selected player appends the entry to the action ledger and pushes an
    undo entry; the statistics of every player, the game state (both
    scores, both foul counts) and every analytics counter stay as they
    were. *)
Theorem court_foul_is_ledger_only (env : Env) (act : string) (location : Q * Q)
    (a : App) (g : Game) (player : Player) :
  getSelectedPlayer true a = Some player ->
  currentGame a = Some g ->
  hasCourt a = true ->
  isShotOutcome (hd "" (split "-" act)) = false ->
  act <> "rebound" -> act <> "assist" -> act <> "block" ->
  let entry := statEntry env player (selectedCourtTeam a) act location g in
  exists a' g',
    handleNewCourtAction env act location a = Ok a'
    /\ currentGame a' = Some g'
    /\ shots g' = (shots g ++ [entry])%list
    /\ undoStack a'
       = pushUndo (mkUndoEntry entry (gameState g) (stats g) (analytics g)) (undoStack a)
    /\ last (undoStack a')
       = Some (mkUndoEntry entry (gameState g) (stats g) (analytics g))
    /\ stats g' = stats g
    /\ gameState g' = gameState g
    /\ analytics g' = analytics g.
Proof.
  intros Hp Hg Hc Hshot H1 H2 H3 entry.
  destruct (recordEntry_engine entry a g Hg Hc) as (a' & Ha' & E & _).
  destruct (engine_has_game _ _ _ _ _ _ E) as (g' & Hg').
  exists a', g'.
  split.
  { unfold handleNewCourtAction. rewrite Hp, Hg.
    unfold hasCourt in Hc. destruct (courtInterface a); [|discriminate].
    rewrite Hshot, (handleStatAction_other act _ _ a H1 H2 H3).
    exact Ha'. }
  split; [exact Hg'|].
  destruct (engine_game _ _ _ _ _ _ _ _ _ _ _ _ E Hg') as (_ & _ & Hgs & Hss & Hsh & Han).
  assert (Hu : undoStack a'
               = pushUndo (mkUndoEntry entry (gameState g) (stats g) (analytics g))
                          (undoStack a)).
  { unfold engine in E. now injection E. }
  repeat split; try assumption.
  rewrite Hu. apply last_pushUndo.
Qed.

Lemma court_foul_is_ledger_only_witness :
  exists a' g' g,
    currentGame runningGame = Some g
    /\ handleNewCourtAction env0 "foul" paintSpot runningGame = Ok a'
    /\ currentGame a' = Some g'
    /\ length (shots g') = 1%nat
    /\ length (undoStack a') = 1%nat
    /\ stats g' = stats g /\ gameState g' = gameState g /\ analytics g' = analytics g.
Proof.
  assert (Hg : exists g, currentGame runningGame = Some g /\ shots g = []
                         /\ undoStack runningGame = []).
  { vm_compute. eexists. repeat split. }
  destruct Hg as (g & Hg & Hs & Hu).
  destruct (court_foul_is_ledger_only env0 "foul" paintSpot runningGame g
              (mkPlayer "A" 1 "N/A" "home_1"))
    as (a' & g' & H1 & H2 & H3 & H4 & _ & H5 & H6 & H7).
  - vm_compute; reflexivity.
  - exact Hg.
  - vm_compute; reflexivity.
  - vm_compute; reflexivity.
  - discriminate.
  - discriminate.
  - discriminate.
  - exists a', g', g. rewrite H3, H4, Hs, Hu.
    repeat split; assumption.
Defined.

(** ** The effect of the aggregator on the analytics *)

Lemma andThen_Ok r k a' :
  r >>> k = Ok a' -> exists a1, r = Ok a1 /\ k a1 = Ok a'.
Proof. destruct r as [a1|a1]; cbn; [eauto | discriminate]. Qed.

Lemma steps_ext k f f' : steps k f -> (forall n, f n = f' n) -> steps k f'.
Proof.
  intros H Hext a a' g Hg Hk.
  destruct (H a a' g Hg Hk) as (Hsh & g' & Hg' & Han & Hrest).
  split; [exact Hsh|]. exists g'. rewrite <- Hext. tauto.
Qed.

Lemma steps_andThen k1 k2 f1 f2 :
  steps k1 f1 -> steps k2 f2 -> steps (fun a => k1 a >>> k2) (fun n => f2 (f1 n)).
Proof.
  intros H1 H2 a a' g Hg Hk.
  apply andThen_Ok in Hk. destruct Hk as (a1 & Hk1 & Hk2).
  destruct (H1 a a1 g Hg Hk1) as (Hsh1 & g1 & Hg1 & Han1 & Hse1 & Hst1 & Hsho1).
  destruct (H2 a1 a' g1 Hg1 Hk2) as (Hsh2 & g2 & Hg2 & Han2 & Hse2 & Hst2 & Hsho2).
  split; [congruence|]. exists g2. repeat split; congruence.
Qed.

Lemma steps_Ok : steps Ok (fun n => n).
Proof.
  intros a a' g Hg Hk. injection Hk as <-. split; [reflexivity|].
  exists g. repeat split; assumption.
Qed.

Lemma steps_when (b : bool) k f :
  steps k f -> steps (when b k) (fun n => if b then f n else n).
Proof. destruct b; intros H; [exact H | exact steps_Ok]. Qed.

Lemma steps_onAnalytics f : steps (onAnalytics f) f.
Proof.
  intros a a' g Hg Hk. unfold onAnalytics, onGame in Hk. rewrite Hg in Hk.
  injection Hk as <-. split; [reflexivity|].
  eexists. split; [reflexivity|]. repeat split.
Qed.

Lemma steps_onGameState f : steps (onGameState f) (fun n => n).
Proof.
  intros a a' g Hg Hk. unfold onGameState, onGame in Hk. rewrite Hg in Hk.
  injection Hk as <-. split; [reflexivity|].
  eexists. split; [reflexivity|]. repeat split.
Qed.

Lemma steps_withStats key f : steps (withStats key f) (fun n => n).
Proof.
  intros a a' g Hg Hk. unfold withStats in Hk. rewrite Hg in Hk.
  destruct (stats g !! key); [|discriminate].
  injection Hk as <-. split; [reflexivity|].
  eexists. split; [reflexivity|]. repeat split.
Qed.

Lemma steps_addScore team pts : steps (addScore team pts) inc_totalActions.
Proof.
  unfold addScore.
  eapply steps_ext; [apply steps_andThen; [apply steps_onGameState | apply steps_onAnalytics]|].
  reflexivity.
Qed.

Lemma steps_resetShotClock : steps resetShotClock (fun n => n).
Proof.
  intros a a' g Hg Hk. unfold resetShotClock in Hk.
  destruct (negb (isAdmin a)).
  - now apply (steps_Ok a a' g).
  - unfold onGame in Hk. rewrite Hg in Hk. injection Hk as <-.
    split; [reflexivity|]. eexists. split; [reflexivity|]. repeat split.
Qed.

Lemma shell_of_engine a a' :
  engine a' = engine a -> hasCourt a' = hasCourt a -> shell a' = shell a.
Proof.
  intros E Hc. destruct (engine_eq_flags a a' E) as (H1 & H2 & H3 & H4).
  unfold shell. congruence.
Qed.

(** A step that leaves the engine and the court view alone. *)
Lemma steps_display (d : App -> App) :
  (forall a, engine (d a) = engine a) -> (forall a, hasCourt (d a) = hasCourt a) ->
  steps (fun a => Ok (d a)) (fun n => n).
Proof.
  intros He Hc a a' g Hg Hk. injection Hk as <-.
  split; [apply shell_of_engine; [apply He | apply Hc]|].
  destruct (engine_eq_game a (d a) g (He a) Hg) as (g' & Hg' & Hcore).
  exists g'. destruct (gameCore_fields g g' Hcore) as (? & ? & ? & ? & ? & ?).
  repeat split; assumption.
Qed.

Lemma hasCourt_addPlayByPlayEvent m a : hasCourt (addPlayByPlayEvent m a) = hasCourt a.
Proof.
  unfold addPlayByPlayEvent. destruct (currentGame a); reflexivity.
Qed.

Lemma steps_log m : steps (fun a => Ok (addPlayByPlayEvent m a)) (fun n => n).
Proof.
  apply steps_display; intros a;
    [apply engine_addPlayByPlayEvent | apply hasCourt_addPlayByPlayEvent].
Qed.

Lemma steps_updateAllDisplays : steps (fun a => Ok (updateAllDisplays a)) (fun n => n).
Proof.
  apply steps_display; intros a;
    [apply engine_updateAllDisplays | apply hasCourt_updateAllDisplays].
Qed.

(** The shot-clock reset at the end of a shot or of a quick field goal. *)
Lemma steps_shotClockAfter (b : bool) :
  steps (fun a => match currentGame a with
                  | None => TypeError a
                  | Some g => when (b && shotClockEnabled (settings g)) resetShotClock a
                  end) (fun n => n).
Proof.
  intros a a' g Hg Hk. rewrite Hg in Hk.
  destruct (b && shotClockEnabled (settings g)); cbn [when] in Hk.
  - exact (steps_resetShotClock a a' g Hg Hk).
  - exact (steps_Ok a a' g Hg Hk).
Qed.

Lemma steps_quickShotClock : steps quickShotClock (fun n => n).
Proof. exact (steps_shotClockAfter true). Qed.

Create HintDb steps.
#[local] Hint Resolve steps_Ok steps_onAnalytics steps_onGameState steps_withStats
  steps_addScore steps_resetShotClock steps_log steps_updateAllDisplays
  steps_shotClockAfter steps_quickShotClock : steps.

Ltac unfold_analytics :=
  cbv [inc_totalShots inc_madeShots inc_threePointAttempts inc_threePointMakes
       inc_totalActions totalShots madeShots threePointAttempts threePointMakes
       totalActions andb].

(** Break a chain of [>>>] into its steps. *)
Ltac steps_chain :=
  repeat first
    [ apply steps_andThen
    | apply steps_when
    | solve [eauto with steps] ].

Lemma steps_handleShotAction act key team :
  steps (handleShotAction act key team) (shotAnalytics act).
Proof.
  unfold handleShotAction, shotAnalytics. cbv zeta.
  destruct (optIs (a_shotType act) "3PT" || optIs (a_shotType act) "logo");
    [|destruct (optIs (a_shotType act) "ft")];
    (eapply steps_ext; [steps_chain|]);
    intros [ts ms ta tm tt]; destruct (optIs (a_result act) "make");
    unfold_analytics; f_equal; lia.
Qed.

Lemma steps_handleStatAction act key player :
  steps (handleStatAction act key player) (fun n => n).
Proof.
  unfold handleStatAction. cbv zeta.
  destruct (String.eqb act "rebound");
    [|destruct (String.eqb act "assist"); [|destruct (String.eqb act "block")]];
    try exact steps_Ok;
    (eapply steps_ext; [steps_chain | reflexivity]).
Qed.

(** What a recorded court action does, for every session: the analytics
    move by [courtAnalytics], the entry is appended to the ledger, and the
    undo entry on top of the stack holds the game state, the statistics
    and the analytics as they are after the action. *)
Lemma handleNewCourtAction_effect env act location a a' g player :
  getSelectedPlayer true a = Some player ->
  currentGame a = Some g ->
  handleNewCourtAction env act location a = Ok a' ->
  let entry := statEntry env player (selectedCourtTeam a) act location g in
  exists g',
    currentGame a' = Some g'
    /\ analytics g' = courtAnalytics entry act (analytics g)
    /\ shots g' = (shots g ++ [entry])%list
    /\ isAdmin a' = isAdmin a
    /\ hasCourt a' = true
    /\ undoStack a'
       = pushUndo (mkUndoEntry entry (gameState g') (stats g') (analytics g'))
                  (undoStack a).
Proof.
  intros Hp Hg Hrun entry.
  unfold handleNewCourtAction in Hrun. rewrite Hp, Hg in Hrun.
  destruct (courtInterface a) as [ci|] eqn:Hci; [|discriminate].
  apply andThen_Ok in Hrun. destruct Hrun as (a1 & Hhead & Htail).
  fold entry in Hhead, Htail.
  assert (H1 : shell a1 = shell a
               /\ exists g1, currentGame a1 = Some g1
                             /\ analytics g1 = courtAnalytics entry act (analytics g)
                             /\ settings g1 = settings g /\ status g1 = status g
                             /\ shots g1 = shots g).
  { unfold courtAnalytics.
    destruct (isShotOutcome (hd "" (split "-" act))).
    - exact (steps_handleShotAction entry _ _ a a1 g Hg Hhead).
    - exact (steps_handleStatAction act _ _ a a1 g Hg Hhead). }
  destruct H1 as (Hsh & g1 & Hg1 & Han & _ & _ & Hshots).
  assert (Hc1 : hasCourt a1 = true).
  { unfold shell in Hsh. injection Hsh as _ _ _ _ ->. unfold hasCourt. now rewrite Hci. }
  destruct (recordEntry_engine entry a1 g1 Hg1 Hc1) as (a2 & Ha2 & E & Hc2).
  rewrite Ha2 in Htail. injection Htail as ->.
  destruct (engine_has_game _ _ _ _ _ _ E) as (g' & Hg').
  destruct (engine_game _ _ _ _ _ _ _ _ _ _ _ _ E Hg') as (_ & _ & Hgs & Hss & Hsh' & Han').
  exists g'. split; [exact Hg'|].
  split; [congruence|]. split; [congruence|].
  unfold engine in E. injection E as _ Had _ _ Hu.
  unfold shell in Hsh. injection Hsh as Hsa _ _ Hsu _.
  split; [congruence|].
  split; [exact Hc2|].
  rewrite Hu, Hgs, Hss, Han', Hsu. reflexivity.
Qed.

(** [undoLastAction] by an admin with a non-empty stack: the three
    aggregates become the snapshot of the top entry, the entry's action
    leaves the ledger, the entry leaves the stack. *)
Lemma undoLastAction_restores a g e :
  isAdmin a = true -> currentGame a = Some g -> hasCourt a = true ->
  last (undoStack a) = Some e ->
  exists a' g',
    undoLastAction a = Ok a' /\ currentGame a' = Some g'
    /\ (gameState g', stats g', analytics g') = snapshotOf e
    /\ shots g'
       = List.filter (fun shot => negb (String.eqb (a_id shot) (a_id (action e)))) (shots g)
    /\ undoStack a' = removelast (undoStack a).
Proof.
  intros Had Hg Hc Hlast. unfold undoLastAction. rewrite Had, Hlast.
  destruct (undoStack a) as [|e0 st] eqn:Hst; [discriminate|].
  cbn [negb orb length Nat.eqb andThen]. unfold onGame.
  cbn [currentGame set_undoStack]. rewrite Hg.
  cbn [andThen currentGame set_currentGame].
  match goal with
  | |- context [updateAllDisplays (addPlayByPlayEvent ?m ?x)] =>
      set (msg := m); set (a2 := x)
  end.
  destruct (updateActionDisplay_ok
              (getAllActionsForTeam
                 (selectedCourtTeam (updateAllDisplays (addPlayByPlayEvent msg a2)))
                 (updateAllDisplays (addPlayByPlayEvent msg a2)))
              (updateAllDisplays (addPlayByPlayEvent msg a2))) as (a' & Ha' & E & _).
  { rewrite hasCourt_updateAllDisplays, hasCourt_addPlayByPlayEvent. exact Hc. }
  rewrite engine_logged in E.
  destruct (engine_eq_game a2 a' _ E eq_refl) as (g' & Hg' & Hcore).
  exists a', g'. split; [exact Ha'|]. split; [exact Hg'|].
  destruct (gameCore_fields _ _ Hcore) as (_ & _ & -> & -> & -> & ->).
  destruct (engine_eq_flags _ _ E) as (_ & _ & _ & ->).
  repeat split.
Qed.

(** Recording a court action and undoing it at once, for every session of
    an admin: the undo returns, and the three aggregates are what they were
    after the action. *)
Lemma court_action_then_undo env act location a a1 g player :
  getSelectedPlayer true a = Some player ->
  currentGame a = Some g -> isAdmin a = true ->
  handleNewCourtAction env act location a = Ok a1 ->
  exists a2, undoLastAction a1 = Ok a2 /\ aggregates a2 = aggregates a1.
Proof.
  intros Hp Hg Had Hrun.
  destruct (handleNewCourtAction_effect env act location a a1 g player Hp Hg Hrun)
    as (g1 & Hg1 & _ & _ & Had1 & Hc1 & Hu).
  destruct (undoLastAction_restores a1 g1 _ (eq_trans Had1 Had) Hg1 Hc1
              (eq_trans (f_equal last Hu) (last_pushUndo _ _)))
    as (a2 & g2 & Ha2 & Hg2 & Hsnap & _).
  exists a2. split; [exact Ha2|].
  unfold aggregates. rewrite Hg1, Hg2. cbn [option_map].
  now rewrite Hsnap.
Qed.

(** What a quick stat that reaches the [switch] does, for every session:
    the analytics move by [quickAnalytics], and the undo entry on top of
    the stack holds the aggregates as they were before the stat. *)
Lemma recordQuickStat_effect env statType pts a a' g player s :
  isAdmin a = true ->
  getSelectedPlayer false a = Some player ->
  currentGame a = Some g ->
  stats g !! p_id player = Some s ->
  includes statType "foul" = false -> includes statType "timeout" = false ->
  recordQuickStat env statType pts a = Ok a' ->
  exists g',
    currentGame a' = Some g'
    /\ analytics g' = quickAnalytics statType (analytics g)
    /\ isAdmin a' = isAdmin a
    /\ hasCourt a' = hasCourt a
    /\ undoStack a'
       = pushUndo (mkUndoEntry (quickAction env statType pts player a g)
                               (gameState g) (stats g) (analytics g))
                  (undoStack a).
Proof.
  intros Had Hp Hg Hs Hf Ht Hrun.
  unfold recordQuickStat in Hrun.
  rewrite Had, Hp, Hf, Ht, Hg, Hs in Hrun. cbn [negb andb orb] in Hrun. cbv zeta in Hrun.
  unfold addToUndoStack in Hrun at 1. rewrite Hg in Hrun.
  match type of Hrun with
  | ((Ok ?x >>> ?k1) >>> ?k2) >>> ?k3 = _ =>
      set (a0 := x) in *;
      assert (Hsteps : steps (fun a => (k1 a >>> k2) >>> k3) (quickAnalytics statType))
  end.
  { unfold quickAnalytics.
    destruct (String.eqb statType "ft");
      [|destruct (String.eqb statType "fg2");
        [|destruct (String.eqb statType "fg3");
          [|destruct (String.eqb statType "rebound");
            [|destruct (String.eqb statType "assist");
              [|destruct (String.eqb statType "block");
                [|destruct (String.eqb statType "steal");
                  [|destruct (String.eqb statType "turnover")]]]]]]];
      (eapply steps_ext; [steps_chain|]);
      intros [ts ms ta tm tt]; unfold_analytics; f_equal; lia. }
  destruct (Hsteps a0 a' g Hg Hrun) as (Hsh & g' & Hg' & Han & _).
  exists g'. split; [exact Hg'|]. split; [exact Han|].
  unfold shell in Hsh. injection Hsh as H1 _ _ H4 H5.
  repeat split; assumption.
Qed.

(** A quick stat undone at once, for every session with the court view
    built: the aggregates are back at what they were before the stat. *)
Lemma quick_stat_then_undo env statType pts a a1 g player s :
  isAdmin a = true -> hasCourt a = true ->
  getSelectedPlayer false a = Some player ->
  currentGame a = Some g ->
  stats g !! p_id player = Some s ->
  includes statType "foul" = false -> includes statType "timeout" = false ->
  recordQuickStat env statType pts a = Ok a1 ->
  exists a2, undoLastAction a1 = Ok a2 /\ aggregates a2 = aggregates a.
Proof.
  intros Had Hc Hp Hg Hs Hf Ht Hrun.
  destruct (recordQuickStat_effect env statType pts a a1 g player s Had Hp Hg Hs Hf Ht Hrun)
    as (g1 & Hg1 & _ & Had1 & Hc1 & Hu).
  destruct (undoLastAction_restores a1 g1 _ (eq_trans Had1 Had) Hg1 (eq_trans Hc1 Hc)
              (eq_trans (f_equal last Hu) (last_pushUndo _ _)))
    as (a2 & g2 & Ha2 & Hg2 & Hsnap & _).
  exists a2. split; [exact Ha2|].
  unfold aggregates. rewrite Hg, Hg2. cbn [option_map].
  now rewrite Hsnap.
Qed.

(** The counters of the analytics after a court action, for every session:
    every shot counts in [totalShots] and every make in [madeShots], while
    [totalActions] moves for a make only. *)
Lemma court_action_counters env act location a a' g player :
  getSelectedPlayer true a = Some player ->
  currentGame a = Some g ->
  handleNewCourtAction env act location a = Ok a' ->
  let outcome := hd "" (split "-" act) in
  let shot := isShotOutcome outcome in
  let make := shot && startsWith outcome "make" in
  exists g',
    currentGame a' = Some g'
    /\ totalShots (analytics g') = totalShots (analytics g) + (if shot then 1 else 0)
    /\ madeShots (analytics g') = madeShots (analytics g) + (if make then 1 else 0)
    /\ totalActions (analytics g') = totalActions (analytics g) + (if make then 1 else 0).
Proof.
  intros Hp Hg Hrun outcome shot make.
  destruct (handleNewCourtAction_effect env act location a a' g player Hp Hg Hrun)
    as (g' & Hg' & Han & _).
  exists g'. split; [exact Hg'|]. rewrite Han.
  unfold courtAnalytics, shotAnalytics, statEntry. fold outcome. fold shot.
  subst make. destruct shot; cbn [a_result a_shotType optIs andb].
  - destruct (startsWith outcome "make"); cbn; repeat split; lia.
  - repeat split; lia.
Qed.

(** The counters after a quick free throw, for every session: neither
    [totalShots] nor [madeShots] moves, and [totalActions] goes up by two. *)
Lemma quick_free_throw_counters env pts a a' g player s :
  isAdmin a = true ->
  getSelectedPlayer false a = Some player ->
  currentGame a = Some g ->
  stats g !! p_id player = Some s ->
  recordQuickStat env "ft" pts a = Ok a' ->
  exists g',
    currentGame a' = Some g'
    /\ totalShots (analytics g') = totalShots (analytics g)
    /\ madeShots (analytics g') = madeShots (analytics g)
    /\ totalActions (analytics g') = totalActions (analytics g) + 2.
Proof.
  intros Had Hp Hg Hs Hrun.
  destruct (recordQuickStat_effect env "ft" pts a a' g player s Had Hp Hg Hs
              eq_refl eq_refl Hrun) as (g' & Hg' & Han & _).
  exists g'. split; [exact Hg'|]. rewrite Han. repeat split.
Qed.

(** ** Where the code departs from its description *)

(** C1 (the code differs). The single court action [make3-corner] for
    player A gives home score 3, 3 points for A, one shot attempted and
    made in the analytics, and the shot clock back at 24; but the shot is
    booked as a field goal, not as a three-pointer: [threePointers] stays
    0/0 and the analytics' three-point counters stay 0. The same holds for
    [make3], the catalog's code in the corner-three zone. *)
Theorem make3_corner_booked_as_field_goal :
  statsOfA runningGame = Some zeroStats
  /\ analyticsOf runningGame = Some zeroAnalytics
  /\ shotClockOf runningGame = Some 21
  /\ handleNewCourtAction env0 "make3-corner" cornerSpot runningGame = Ok afterCorner3
  /\ homeScore afterCorner3 = Some 3
  /\ shotClockOf afterCorner3 = Some 24
  /\ statsOfA afterCorner3
     = Some (mkPlayerStats 3 0 0 0 0 0 0 (mkMA 1 1) (mkMA 0 0) (mkMA 0 0))
  /\ analyticsOf afterCorner3 = Some (mkAnalytics 1 1 0 0 1)
  /\ handleNewCourtAction env0 "make3" cornerSpot runningGame = Ok afterMake3
  /\ statsOfA afterMake3
     = Some (mkPlayerStats 3 0 0 0 0 0 0 (mkMA 1 1) (mkMA 0 0) (mkMA 0 0))
  /\ analyticsOf afterMake3 = Some (mkAnalytics 1 1 0 0 1).
Proof. repeat apply conj; vm_compute; reflexivity. Qed.

(** C2 (the code differs). The undo entry of a court action is pushed
    after the action is applied, so its snapshot is the state after the
    action: recording a made layup and undoing it at once removes the
    entry from the ledger but leaves the home score at 2, player A's line
    at 2 points and 1/1 field goals, and the analytics at one shot made.
    The quick path snapshots before it applies: a quick two undone is back
    at the aggregates of [runningGame]. *)
Theorem court_undo_keeps_the_action_applied :
  handleNewCourtAction env0 "make2-layup" paintSpot runningGame = Ok afterLayup
  /\ option_map snapshotOf (last (undoStack afterLayup)) = aggregates afterLayup
  /\ undoLastAction afterLayup = Ok afterLayupUndone
  /\ homeScore runningGame = Some 0
  /\ homeScore afterLayupUndone = Some 2
  /\ statsOfA afterLayupUndone
     = Some (mkPlayerStats 2 0 0 0 0 0 0 (mkMA 1 1) (mkMA 0 0) (mkMA 0 0))
  /\ analyticsOf afterLayupUndone = Some (mkAnalytics 1 1 0 0 1)
  /\ aggregates afterLayupUndone = aggregates afterLayup
  /\ ledgerOf afterLayup = Some [env_id env0]
  /\ ledgerOf afterLayupUndone = Some []
  /\ recordQuickStat env0 "fg2" 2 runningGame = Ok afterQuickTwo
  /\ homeScore afterQuickTwo = Some 2
  /\ undoLastAction afterQuickTwo = Ok afterQuickTwoUndone
  /\ aggregates afterQuickTwoUndone = aggregates runningGame.
Proof. repeat apply conj; vm_compute; reflexivity. Qed.

(** C3 (the code differs). A quick free throw is a made shot (free throws
    1/1, one point) but moves neither [totalShots] nor [madeShots]; the
    same free throw recorded on the court counts in both, as does a quick
    two. *)
Theorem quick_free_throw_not_counted_as_shot :
  recordQuickStat env0 "ft" 1 runningGame = Ok afterQuickFreeThrow
  /\ statsOfA afterQuickFreeThrow
     = Some (mkPlayerStats 1 0 0 0 0 0 0 (mkMA 0 0) (mkMA 0 0) (mkMA 1 1))
  /\ option_map totalShots (analyticsOf afterQuickFreeThrow) = Some 0
  /\ option_map madeShots (analyticsOf afterQuickFreeThrow) = Some 0
  /\ handleNewCourtAction env0 "make1-ft" ftSpot runningGame = Ok afterCourtFreeThrow
  /\ statsOfA afterCourtFreeThrow
     = Some (mkPlayerStats 1 0 0 0 0 0 0 (mkMA 0 0) (mkMA 0 0) (mkMA 1 1))
  /\ option_map totalShots (analyticsOf afterCourtFreeThrow) = Some 1
  /\ option_map madeShots (analyticsOf afterCourtFreeThrow) = Some 1
  /\ option_map totalShots (analyticsOf afterQuickTwo) = Some 1
  /\ option_map madeShots (analyticsOf afterQuickTwo) = Some 1.
Proof. repeat apply conj; vm_compute; reflexivity. Qed.

(** C4 (the code differs). [totalActions] starts at 0. On the court a
    missed layup and a rebound leave it at 0 and a made layup takes it to
    1 (through [addScore]); a quick rebound takes it to 1, a quick two and
    a quick free throw take it to 2 ([addScore] and the final increment). *)
Theorem totalActions_not_one_per_action :
  option_map totalActions (analyticsOf runningGame) = Some 0
  /\ handleNewCourtAction env0 "miss2-layup" paintSpot runningGame = Ok afterMissedLayup
  /\ option_map totalActions (analyticsOf afterMissedLayup) = Some 0
  /\ option_map (fun s => attempted (fieldGoals s)) (statsOfA afterMissedLayup) = Some 1
  /\ handleNewCourtAction env0 "rebound" paintSpot runningGame = Ok afterCourtRebound
  /\ option_map totalActions (analyticsOf afterCourtRebound) = Some 0
  /\ option_map rebounds (statsOfA afterCourtRebound) = Some 1
  /\ option_map totalActions (analyticsOf afterLayup) = Some 1
  /\ recordQuickStat env0 "rebound" 0 runningGame = Ok afterQuickRebound
  /\ option_map totalActions (analyticsOf afterQuickRebound) = Some 1
  /\ recordQuickStat env0 "fg2" 2 runningGame = Ok afterQuickTwo
  /\ option_map totalActions (analyticsOf afterQuickTwo) = Some 2
  /\ option_map totalActions (analyticsOf afterQuickFreeThrow) = Some 2.
Proof. repeat apply conj; vm_compute; reflexivity. Qed.


(** * Further properties of the engine *)

(** ** The undo stack *)

(** X1. [addToUndoStack] keeps the undo stack within 20 entries. The new
    entry, with the game state, the statistics and the analytics of the
    moment, goes on top; below 20 entries nothing is dropped, and at 20 the
    oldest entry is dropped and the others move down by one. The game
    itself is not touched. *)
Theorem addToUndoStack_bounded_fifo (act : Action) (a : App) (g : Game) :
  currentGame a = Some g ->
  (length (undoStack a) <= 20)%nat ->
  let e := mkUndoEntry act (gameState g) (stats g) (analytics g) in
  exists a',
    addToUndoStack act a = Ok a'
    /\ currentGame a' = Some g
    /\ (length (undoStack a') <= 20)%nat
    /\ last (undoStack a') = Some e
    /\ ((length (undoStack a) < 20)%nat -> undoStack a' = (undoStack a ++ [e])%list)
    /\ (length (undoStack a) = 20%nat -> undoStack a' = (tail (undoStack a) ++ [e])%list).
Proof.
  intros Hg Hlen e. unfold addToUndoStack. rewrite Hg.
  eexists. split; [reflexivity|].
  cbn [set_undoStack currentGame undoStack]. fold e.
  split; [exact Hg|].
  split.
  { destruct (length_pushUndo e (undoStack a)) as [H|H];
      unfold maxUndoStackSize in H; lia. }
  split; [apply last_pushUndo|].
  unfold pushUndo, maxUndoStackSize. rewrite length_app. cbn [length].
  split; intros H.
  - destruct (Nat.ltb_spec 20 (length (undoStack a) + 1)); [lia | reflexivity].
  - destruct (Nat.ltb_spec 20 (length (undoStack a) + 1)); [|lia].
    destruct (undoStack a); [discriminate | reflexivity].
Qed.

Lemma addToUndoStack_bounded_fifo_witness :
  length (undoStack fullStack) = 20%nat
  /\ exists a' g,
       currentGame fullStack = Some g
       /\ addToUndoStack (quickAction env0 "assist" 0 (mkPlayer "A" 1 "N/A" "home_1") fullStack g)
                         fullStack = Ok a'
       /\ length (undoStack a') = 20%nat
       /\ option_map (fun e => a_id (action e)) (head (undoStack fullStack))
          = Some (env_id (envN 1))
       /\ option_map (fun e => a_id (action e)) (head (undoStack a'))
          = Some (env_id (envN 2))
       /\ option_map (fun e => a_id (action e)) (last (undoStack a'))
          = Some (env_id env0).
Proof.
  assert (Hlen : length (undoStack fullStack) = 20%nat) by (vm_compute; reflexivity).
  split; [exact Hlen|].
  assert (Hg : exists g, currentGame fullStack = Some g).
  { vm_compute. eexists. reflexivity. }
  destruct Hg as (g & Hg).
  destruct (addToUndoStack_bounded_fifo
              (quickAction env0 "assist" 0 (mkPlayer "A" 1 "N/A" "home_1") fullStack g)
              fullStack g Hg) as (a' & Ha' & _ & _ & Hlast & _ & Hfull).
  { rewrite Hlen. lia. }
  exists a', g. split; [exact Hg|]. split; [exact Ha'|].
  rewrite Hlast, (Hfull Hlen).
  split; [rewrite length_app; cbn [length];
          assert (Ht : length (tail (undoStack fullStack)) = 19%nat)
            by (vm_compute; reflexivity); rewrite Ht; reflexivity|].
  split; [vm_compute; reflexivity|].
  split; [|reflexivity].
  assert (Hh : option_map (fun e => a_id (action e)) (head (tail (undoStack fullStack)))
               = Some (env_id (envN 2))) by (vm_compute; reflexivity).
  destruct (tail (undoStack fullStack)); [discriminate | exact Hh].
Defined.

(** X2. [undoLastAction] by an admin, with an entry on the stack and the
    court view built, returns; the game state, the statistics and the
    analytics are then the snapshot of the top entry, every ledger entry
    with the id of that entry's action is gone, the others keep their
    order, and the entry is off the stack. *)
Theorem undoLastAction_restores_top_snapshot (a : App) (g : Game) (e : UndoEntry) :
  isAdmin a = true -> currentGame a = Some g -> hasCourt a = true ->
  last (undoStack a) = Some e ->
  exists a' g',
    undoLastAction a = Ok a' /\ currentGame a' = Some g'
    /\ gameState g' = gameStateBefore e
    /\ stats g' = statsBefore e
    /\ analytics g' = analyticsBefore e
    /\ shots g'
       = List.filter (fun shot => negb (String.eqb (a_id shot) (a_id (action e)))) (shots g)
    /\ undoStack a' = removelast (undoStack a)
    /\ length (undoStack a') = pred (length (undoStack a)).
Proof.
  intros Had Hg Hc Hlast.
  destruct (undoLastAction_restores a g e Had Hg Hc Hlast)
    as (a' & g' & Ha' & Hg' & Hsnap & Hsh & Hu).
  exists a', g'. unfold snapshotOf in Hsnap. injection Hsnap as H1 H2 H3.
  repeat (split; [assumption|]).
  rewrite Hu. clear Hu. destruct (undoStack a) as [|e0 st] using rev_ind; [discriminate|].
  rewrite removelast_last, length_app. cbn. lia.
Qed.

Lemma undoLastAction_restores_top_snapshot_witness :
  exists a' g',
    undoLastAction fullStack = Ok a' /\ currentGame a' = Some g'
    /\ option_map rebounds (stats g' !! "home_1") = Some 19
    /\ totalActions (analytics g') = 19
    /\ length (undoStack a') = 19%nat.
Proof.
  assert (H : exists g e, currentGame fullStack = Some g
                          /\ last (undoStack fullStack) = Some e
                          /\ option_map rebounds (statsBefore e !! "home_1") = Some 19
                          /\ totalActions (analyticsBefore e) = 19
                          /\ length (undoStack fullStack) = 20%nat).
  { vm_compute. do 2 eexists. repeat apply conj; reflexivity. }
  destruct H as (g & e & Hg & He & H1 & H2 & H3).
  destruct (undoLastAction_restores_top_snapshot fullStack g e)
    as (a' & g' & Ha' & Hg' & _ & Hs & Han & _ & _ & Hl).
  - vm_compute; reflexivity.
  - exact Hg.
  - vm_compute; reflexivity.
  - exact He.
  - exists a', g'. rewrite Hs, Han, Hl, H3. repeat apply conj; try assumption. reflexivity.
Defined.

(** X3. A quick stat for the selected player (none of the foul and timeout
    keys), recorded by an admin and undone at once: the undo returns, and
    the game state, the statistics and the analytics are what they were
    before the stat. *)
Theorem quick_stat_undo_round_trip (env : Env) (statType : string) (pts : Z)
    (a a1 : App) (g : Game) (player : Player) (s : PlayerStats) :
  isAdmin a = true -> hasCourt a = true ->
  getSelectedPlayer false a = Some player ->
  currentGame a = Some g ->
  stats g !! p_id player = Some s ->
  includes statType "foul" = false -> includes statType "timeout" = false ->
  recordQuickStat env statType pts a = Ok a1 ->
  exists a2 g2,
    undoLastAction a1 = Ok a2 /\ currentGame a2 = Some g2
    /\ gameState g2 = gameState g /\ stats g2 = stats g /\ analytics g2 = analytics g.
Proof.
  intros Had Hc Hp Hg Hs Hf Ht Hrun.
  destruct (quick_stat_then_undo env statType pts a a1 g player s
              Had Hc Hp Hg Hs Hf Ht Hrun) as (a2 & Ha2 & Hagg).
  unfold aggregates in Hagg. rewrite Hg in Hagg.
  destruct (currentGame a2) as [g2|] eqn:Hg2; [|discriminate].
  exists a2, g2. cbn in Hagg. injection Hagg as H1 H2 H3.
  repeat split; assumption.
Qed.

Lemma quick_stat_undo_round_trip_witness :
  exists a2 g2 g,
    currentGame runningGame = Some g
    /\ undoLastAction afterQuickTwo = Ok a2 /\ currentGame a2 = Some g2
    /\ gameState g2 = gameState g /\ stats g2 = stats g /\ analytics g2 = analytics g.
Proof.
  assert (H : exists g s, currentGame runningGame = Some g
                          /\ stats g !! "home_1" = Some s).
  { vm_compute. do 2 eexists. split; reflexivity. }
  destruct H as (g & s & Hg & Hs).
  destruct (quick_stat_undo_round_trip env0 "fg2" 2 runningGame afterQuickTwo g
              (mkPlayer "A" 1 "N/A" "home_1") s)
    as (a2 & g2 & H1 & H2 & H3 & H4 & H5).
  - vm_compute; reflexivity.
  - vm_compute; reflexivity.
  - vm_compute; reflexivity.
  - exact Hg.
  - exact Hs.
  - vm_compute; reflexivity.
  - vm_compute; reflexivity.
  - vm_compute; reflexivity.
  - exists a2, g2, g. repeat apply conj; assumption.
Defined.

(** ** The aggregator, for every session *)

Lemma withStats_Ok key f a g s :
  currentGame a = Some g -> stats g !! key = Some s ->
  withStats key f a
  = Ok (set_currentGame (Some (set_stats (<[key := f s]> (stats g)) g)) a).
Proof. intros Hg Hs. unfold withStats. now rewrite Hg, Hs. Qed.

Lemma withStats_missing key f a g :
  currentGame a = Some g -> stats g !! key = None -> withStats key f a = TypeError a.
Proof. intros Hg Hs. unfold withStats. now rewrite Hg, Hs. Qed.

Lemma acts_ext key ad k F F' :
  acts key ad k F -> (forall c, hasLine key c -> F c = F' c) -> acts key ad k F'.
Proof.
  intros H Hext a g Hg Had Hl.
  destruct (H a g Hg Had Hl) as (a' & Hk & Hsh & Hc & Hl').
  exists a'. rewrite <- (Hext _ Hl). repeat split; assumption.
Qed.

Lemma acts_Ok key ad : acts key ad Ok (fun c => c).
Proof. intros a g Hg Had Hl. exists a. rewrite Hg. repeat split. exact Hl. Qed.

Lemma acts_andThen key ad k1 k2 F1 F2 :
  acts key ad k1 F1 -> acts key ad k2 F2 ->
  acts key ad (fun a => k1 a >>> k2) (fun c => F2 (F1 c)).
Proof.
  intros H1 H2 a g Hg Had Hl.
  destruct (H1 a g Hg Had Hl) as (a1 & Hk1 & Hsh1 & Hc1 & Hl1).
  destruct (currentGame a1) as [g1|] eqn:Hg1; [|discriminate].
  cbn in Hc1. injection Hc1 as Hc1.
  assert (Had1 : isAdmin a1 = ad).
  { unfold shell in Hsh1. injection Hsh1 as -> _ _ _ _. exact Had. }
  rewrite <- Hc1 in Hl1.
  destruct (H2 a1 g1 Hg1 Had1 Hl1) as (a2 & Hk2 & Hsh2 & Hc2 & Hl2).
  exists a2. rewrite Hk1. cbn [andThen]. rewrite <- Hc1.
  repeat split; try assumption. congruence.
Qed.

Lemma acts_when key ad (b : bool) k F :
  acts key ad k F -> acts key ad (when b k) (fun c => if b then F c else c).
Proof. destruct b; intros H; [exact H | apply acts_Ok]. Qed.

Lemma acts_onGame key ad (f : Game -> Game) (F : Core -> Core) :
  (forall g, gameCore (f g) = F (gameCore g)) ->
  (forall c, hasLine key c -> hasLine key (F c)) ->
  acts key ad (onGame f) F.
Proof.
  intros Hf HF a g Hg Had Hl. unfold onGame. rewrite Hg.
  eexists. split; [reflexivity|]. split; [reflexivity|].
  cbn. rewrite Hf. split; [reflexivity | apply HF, Hl].
Qed.

Lemma acts_onAnalytics key ad f : acts key ad (onAnalytics f) (onCoreAnalytics f).
Proof.
  apply acts_onGame; [reflexivity|]. intros [[[[[st se] gs] ss] sh] an] H. exact H.
Qed.

Lemma acts_onGameState key ad f : acts key ad (onGameState f) (onCoreGameState f).
Proof.
  apply acts_onGame; [reflexivity|]. intros [[[[[st se] gs] ss] sh] an] H. exact H.
Qed.

Lemma alter_as_insert (f : PlayerStats -> PlayerStats) key
    (m : gmap string PlayerStats) s :
  m !! key = Some s -> alter f key m = <[key := f s]> m.
Proof.
  intros Hs. apply map_eq. intros k.
  destruct (decide (key = k)) as [<-|Hne].
  - now rewrite lookup_alter_eq, lookup_insert_eq, Hs.
  - now rewrite lookup_alter_ne, lookup_insert_ne.
Qed.

Lemma acts_withStats key ad f :
  acts key ad (withStats key f) (onCoreStats (alter f key)).
Proof.
  intros a g Hg Had Hl. unfold hasLine in Hl. cbn in Hl.
  destruct Hl as [s Hs].
  rewrite (withStats_Ok key f a g s Hg Hs).
  eexists. split; [reflexivity|]. split; [reflexivity|].
  cbn. rewrite (alter_as_insert f key (stats g) s Hs).
  split; [reflexivity|]. unfold hasLine. cbn. rewrite lookup_insert_eq. eauto.
Qed.

Lemma acts_addScore key ad team pts :
  acts key ad (addScore team pts)
       (fun c => onCoreAnalytics inc_totalActions (onCoreGameState (creditScore team pts) c)).
Proof.
  unfold addScore.
  apply (acts_andThen key ad _ _ _ _ (acts_onGameState key ad _) (acts_onAnalytics key ad _)).
Qed.

Lemma acts_resetShotClock key ad :
  acts key ad resetShotClock
       (fun c => if ad
                 then onCoreGameState (set_shotClock (shotClockResetOf (coreSettings c))) c
                 else c).
Proof.
  intros a g Hg Had Hl. unfold resetShotClock. rewrite Had.
  destruct ad; cbn [negb].
  - unfold onGame. rewrite Hg.
    eexists. split; [reflexivity|]. split; [reflexivity|].
    split; [reflexivity | exact Hl].
  - exists a. rewrite Hg. repeat split. exact Hl.
Qed.

(** The shot-clock reset at the end of a shot or of a quick field goal. *)
Lemma acts_shotClockAfter key ad (b : bool) :
  acts key ad
       (fun a => match currentGame a with
                 | None => TypeError a
                 | Some g => when (b && shotClockEnabled (settings g)) resetShotClock a
                 end)
       (coreShotClock b ad).
Proof.
  intros a g Hg Had Hl. rewrite Hg. unfold coreShotClock.
  change (coreSettings (gameCore g)) with (settings g).
  destruct (b && shotClockEnabled (settings g)); cbn [when andb].
  - destruct (acts_resetShotClock key ad a g Hg Had Hl) as (a' & H1 & H2 & H3 & H4).
    exists a'. destruct ad; repeat split; assumption.
  - exists a. rewrite Hg. repeat split. exact Hl.
Qed.

Lemma acts_quickShotClock key ad : acts key ad quickShotClock (coreShotClock true ad).
Proof. exact (acts_shotClockAfter key ad true). Qed.

(** A step that leaves the engine and the court view alone. *)
Lemma acts_display key ad (d : App -> App) :
  (forall a, engine (d a) = engine a) -> (forall a, hasCourt (d a) = hasCourt a) ->
  acts key ad (fun a => Ok (d a)) (fun c => c).
Proof.
  intros He Hc a g Hg Had Hl.
  exists (d a). split; [reflexivity|].
  split; [apply shell_of_engine; [apply He | apply Hc]|].
  destruct (engine_eq_game a (d a) g (He a) Hg) as (g' & Hg' & Hcore).
  rewrite Hg'. cbn. rewrite Hcore. split; [reflexivity | exact Hl].
Qed.

Lemma acts_log key ad m : acts key ad (fun a => Ok (addPlayByPlayEvent m a)) (fun c => c).
Proof.
  apply acts_display; intros a;
    [apply engine_addPlayByPlayEvent | apply hasCourt_addPlayByPlayEvent].
Qed.

Lemma acts_updateAllDisplays key ad :
  acts key ad (fun a => Ok (updateAllDisplays a)) (fun c => c).
Proof.
  apply acts_display; intros a;
    [apply engine_updateAllDisplays | apply hasCourt_updateAllDisplays].
Qed.

Create HintDb acts.
#[local] Hint Resolve acts_Ok acts_onAnalytics acts_onGameState acts_withStats
  acts_addScore acts_resetShotClock acts_log acts_updateAllDisplays
  acts_shotClockAfter acts_quickShotClock : acts.

Ltac acts_chain :=
  repeat first
    [ apply acts_andThen
    | apply acts_when
    | solve [eauto with acts] ].

Ltac unfold_lines :=
  cbv [inc_totalShots inc_madeShots inc_threePointAttempts inc_threePointMakes
       inc_totalActions totalShots madeShots threePointAttempts threePointMakes
       totalActions add_points on_fieldGoals on_threePointers on_freeThrows
       inc_rebounds inc_assists inc_blocks inc_steals inc_turnovers
       bump incMade incAttempted made attempted points rebounds assists s_fouls
       steals blocks turnovers fieldGoals threePointers freeThrows compose].

(** Two cores are equal when their parts are; the lines are compared under
    [alter], the counters by arithmetic. *)
Ltac core_eq :=
  let st := fresh "st" in let se := fresh "se" in let gs := fresh "gs" in
  let ss := fresh "ss" in let sh := fresh "sh" in let an := fresh "an" in
  let Hl := fresh "Hl" in
  intros [[[[[st se] gs] ss] sh] an] Hl;
  cbv [coreShotClock onCoreAnalytics onCoreGameState onCoreStats coreSettings
       creditScore andb orb];
  rewrite ?alter_alter_eq;
  repeat match goal with
    | |- context [if ?b then _ else _] => destruct b
    end;
  repeat match goal with
    | |- (_, _) = (_, _) => apply f_equal2
    | |- alter _ _ _ = alter _ _ _ =>
        apply alter_ext; intros [? ? ? ? ? ? ? [? ?] [? ?] [? ?]] _
    | |- ?m = alter _ _ ?m => symmetry; apply alter_id; reflexivity
    | |- _ => reflexivity
    end;
  try (destruct an; unfold_lines; f_equal; lia);
  try (unfold_lines; f_equal; try lia; f_equal; lia).

Lemma acts_handleShotAction act key team ad :
  acts key ad (handleShotAction act key team) (shotCore act key team ad).
Proof.
  unfold handleShotAction, shotCore, shotStats, shotAnalytics. cbv zeta.
  destruct (optIs (a_shotType act) "3PT" || optIs (a_shotType act) "logo");
    [|destruct (optIs (a_shotType act) "ft")];
    destruct (optIs (a_result act) "make");
    (eapply acts_ext; [acts_chain | core_eq]).
Qed.

Lemma acts_handleStatAction act key player ad :
  acts key ad (handleStatAction act key player)
       (onCoreStats (alter (if String.eqb act "rebound" then inc_rebounds
                            else if String.eqb act "assist" then inc_assists
                            else if String.eqb act "block" then inc_blocks
                            else fun s => s) key)).
Proof.
  unfold handleStatAction. cbv zeta.
  destruct (String.eqb act "rebound");
    [|destruct (String.eqb act "assist"); [|destruct (String.eqb act "block")]];
    (eapply acts_ext; [acts_chain | core_eq]).
Qed.

(** The [switch] of [recordQuickStat] with the final [totalActions++] and
    display refresh. *)
Lemma acts_quick_switch statType pts player team ad :
  let key := p_id player in
  let line txt := "#" ++ showZ (p_number player) ++ " " ++ p_name player ++ " " ++ txt in
  let say txt := fun a => Ok (addPlayByPlayEvent (line txt) a) in
  acts key ad
    (fun a =>
       (if String.eqb statType "ft" then
          withStats key (fun s => add_points pts (on_freeThrows incAttempted (on_freeThrows incMade s))) a
          >>> addScore team pts
          >>> say "makes free throw"
        else if String.eqb statType "fg2" then
          withStats key (fun s => add_points pts (on_fieldGoals incAttempted (on_fieldGoals incMade s))) a
          >>> addScore team pts
          >>> onAnalytics inc_totalShots
          >>> onAnalytics inc_madeShots
          >>> say "makes 2-pointer"
          >>> quickShotClock
        else if String.eqb statType "fg3" then
          withStats key (fun s => add_points pts (on_threePointers incAttempted (on_threePointers incMade s))) a
          >>> addScore team pts
          >>> onAnalytics inc_totalShots
          >>> onAnalytics inc_madeShots
          >>> onAnalytics inc_threePointAttempts
          >>> onAnalytics inc_threePointMakes
          >>> say "makes 3-pointer"
          >>> quickShotClock
        else if String.eqb statType "rebound" then
          withStats key inc_rebounds a >>> say "rebound"
        else if String.eqb statType "assist" then
          withStats key inc_assists a >>> say "assist"
        else if String.eqb statType "block" then
          withStats key inc_blocks a >>> say "block"
        else if String.eqb statType "steal" then
          withStats key inc_steals a >>> say "steal"
        else if String.eqb statType "turnover" then
          withStats key inc_turnovers a >>> say "turnover"
        else Ok a)
       >>> onAnalytics inc_totalActions
       >>> (fun a => Ok (updateAllDisplays a)))
    (quickCore statType pts key team ad).
Proof.
  intros key line say. subst say.
  unfold quickCore, quickStats, quickAnalytics, quickScores, quickFieldGoal.
  destruct (String.eqb_spec statType "ft") as [->|];
    [|destruct (String.eqb_spec statType "fg2") as [->|];
      [|destruct (String.eqb_spec statType "fg3") as [->|];
        [|destruct (String.eqb statType "rebound");
          [|destruct (String.eqb statType "assist");
            [|destruct (String.eqb statType "block");
              [|destruct (String.eqb statType "steal");
                [|destruct (String.eqb statType "turnover")]]]]]]];
    cbn [String.eqb Ascii.eqb Bool.eqb orb andb];
    (eapply acts_ext; [acts_chain | core_eq]).
Qed.

(** The core of the game after a recorded court action for a player who
    has a line, for every session. *)
Lemma handleNewCourtAction_core env act location a g player :
  getSelectedPlayer true a = Some player ->
  currentGame a = Some g ->
  hasCourt a = true ->
  hasLine (p_id player) (gameCore g) ->
  let entry := statEntry env player (selectedCourtTeam a) act location g in
  exists a' g',
    handleNewCourtAction env act location a = Ok a'
    /\ currentGame a' = Some g'
    /\ gameCore g'
       = courtCore entry act (p_id player) (selectedCourtTeam a) (isAdmin a) (gameCore g)
    /\ isAdmin a' = isAdmin a
    /\ hasCourt a' = true
    /\ undoStack a'
       = pushUndo (mkUndoEntry entry (gameState g') (stats g') (analytics g'))
                  (undoStack a).
Proof.
  intros Hp Hg Hc Hl entry.
  unfold handleNewCourtAction. rewrite Hp, Hg.
  unfold hasCourt in Hc. destruct (courtInterface a) as [ci|] eqn:Hci; [|discriminate].
  fold entry.
  assert (Hhead : exists a1,
             (if isShotOutcome (hd "" (split "-" act))
              then handleShotAction entry (p_id player) (selectedCourtTeam a) a
              else handleStatAction act (p_id player) player a) = Ok a1
             /\ shell a1 = shell a
             /\ option_map gameCore (currentGame a1)
                = Some (if isShotOutcome (hd "" (split "-" act))
                        then shotCore entry (p_id player) (selectedCourtTeam a)
                                      (isAdmin a) (gameCore g)
                        else onCoreStats (alter (statLine act) (p_id player)) (gameCore g))).
  { destruct (isShotOutcome (hd "" (split "-" act))).
    - destruct (acts_handleShotAction entry (p_id player) (selectedCourtTeam a)
                  (isAdmin a) a g Hg eq_refl Hl) as (a1 & H1 & H2 & H3 & _).
      exists a1. repeat split; assumption.
    - destruct (acts_handleStatAction act (p_id player) player
                  (isAdmin a) a g Hg eq_refl Hl) as (a1 & H1 & H2 & H3 & _).
      exists a1. repeat split; assumption. }
  destruct Hhead as (a1 & Hhead & Hsh & Hcore).
  rewrite Hhead. cbn [andThen].
  destruct (currentGame a1) as [g1|] eqn:Hg1; [|discriminate].
  cbn [option_map] in Hcore. injection Hcore as Hcore.
  unfold shell in Hsh. injection Hsh as Hsa _ _ Hsu Hsc.
  assert (Hc1 : hasCourt a1 = true).
  { rewrite Hsc. unfold hasCourt. now rewrite Hci. }
  destruct (recordEntry_engine entry a1 g1 Hg1 Hc1) as (a' & Ha' & E & Hc').
  destruct (engine_has_game _ _ _ _ _ _ E) as (g' & Hg').
  destruct (engine_game _ _ _ _ _ _ _ _ _ _ _ _ E Hg')
    as (Hst & Hse & Hgs & Hss & Hshots & Han).
  exists a', g'. split; [exact Ha'|]. split; [exact Hg'|].
  split.
  { transitivity (appendShot entry (gameCore g1)).
    - unfold gameCore, appendShot. now rewrite Hst, Hse, Hgs, Hss, Hshots, Han.
    - unfold courtCore. f_equal. exact Hcore. }
  unfold engine in E. injection E as _ Had _ _ Hu.
  split; [congruence|]. split; [exact Hc'|].
  rewrite Hu, Hgs, Hss, Han, Hsu. reflexivity.
Qed.

(** A selected player is in a roster: the quick path always has a team to
    credit. *)
Lemma find_player_id playerId t p :
  findPlayer playerId t = Some p -> p_id p = playerId /\ In p (players t).
Proof.
  unfold findPlayer. intros H. apply find_some in H. destruct H as [Hin Heq].
  apply String.eqb_eq in Heq. split; assumption.
Qed.

Lemma getPlayerById_team playerId a p :
  getPlayerById playerId a = Some p ->
  p_id p = playerId
  /\ exists g t, currentGame a = Some g /\ getPlayerTeam playerId a = Some t
                 /\ In p (players (getSide t (teams g))).
Proof.
  unfold getPlayerById, getPlayerTeam.
  destruct (currentGame a) as [g|]; [|discriminate].
  destruct (findPlayer playerId (at_home (teams g))) as [q|] eqn:Hh.
  - intros [= <-]. destruct (find_player_id _ _ _ Hh) as [H1 H2].
    split; [exact H1|]. exists g, home. repeat split. exact H2.
  - intros Ha. rewrite Ha. destruct (find_player_id _ _ _ Ha) as [H1 H2].
    split; [exact H1|]. exists g, away. repeat split. exact H2.
Qed.

Lemma getSelectedPlayer_team court a p :
  getSelectedPlayer court a = Some p ->
  exists g t, currentGame a = Some g /\ getPlayerTeam (p_id p) a = Some t
              /\ In p (players (getSide t (teams g))).
Proof.
  unfold getSelectedPlayer.
  destruct (if court then selectedCourtPlayer a else selectedQuickPlayer a) as [pid|];
    [|discriminate].
  destruct (String.eqb pid ""); [discriminate|].
  intros H. destruct (getPlayerById_team pid a p H) as (Hid & g & t & Hg & Ht & Hin).
  exists g, t. rewrite Hid. repeat split; assumption.
Qed.

(** The core of the game after a quick stat of an admin that reaches the
    [switch], for every session; the undo entry holds the earlier state. *)
Lemma recordQuickStat_core env statType pts a g player :
  isAdmin a = true ->
  getSelectedPlayer false a = Some player ->
  currentGame a = Some g ->
  hasLine (p_id player) (gameCore g) ->
  includes statType "foul" = false -> includes statType "timeout" = false ->
  exists a' g',
    recordQuickStat env statType pts a = Ok a'
    /\ currentGame a' = Some g'
    /\ gameCore g'
       = quickCore statType pts (p_id player) (getPlayerTeam (p_id player) a) true
                   (gameCore g)
    /\ isAdmin a' = true
    /\ hasCourt a' = hasCourt a
    /\ undoStack a'
       = pushUndo (mkUndoEntry (quickAction env statType pts player a g)
                               (gameState g) (stats g) (analytics g))
                  (undoStack a).
Proof.
  intros Had Hp Hg Hl Hf Ht.
  pose proof Hl as [s Hs]. cbn in Hs.
  unfold recordQuickStat. rewrite Had, Hp, Hf, Ht, Hg, Hs.
  cbn [negb andb orb]. cbv zeta.
  unfold addToUndoStack at 1. rewrite Hg. cbn [andThen].
  set (st := pushUndo _ _). set (a0 := set_undoStack st a).
  pose proof (acts_quick_switch statType pts player (getPlayerTeam (p_id player) a) true)
    as Hacts.
  cbv zeta in Hacts.
  destruct (Hacts a0 g Hg Had Hl) as (a' & Ha' & Hsh & Hcore & _).
  destruct (currentGame a') as [g'|] eqn:Hg'; [|discriminate].
  exists a', g'. split; [exact Ha'|]. split; [exact Hg'|].
  cbn [option_map] in Hcore. injection Hcore as Hcore. split; [exact Hcore|].
  unfold shell in Hsh. injection Hsh as H1 _ _ H4 H5.
  split; [rewrite H1; exact Had|]. split; [exact H5 | exact H4].
Qed.

(** ** The box score *)

Lemma statEntry_shot env player team act location g :
  isShotOutcome (hd "" (split "-" act)) = true ->
  optIs (a_result (statEntry env player team act location g)) "make"
  = startsWith (hd "" (split "-" act)) "make"
  /\ default 0 (a_points (statEntry env player team act location g))
     = shotPoints (hd "" (split "-" act)).
Proof.
  intros Hshot. unfold statEntry. cbv zeta. rewrite Hshot.
  cbn [a_result a_points optIs default from_option].
  split; [|reflexivity].
  destruct (startsWith (hd "" (split "-" act)) "make"); reflexivity.
Qed.

Lemma shotPoints_range outcome : 0 <= shotPoints outcome <= 3.
Proof.
  unfold shotPoints.
  destruct (includes outcome "3"); [lia|].
  destruct (includes outcome "2"); [lia|].
  destruct (includes outcome "1"); lia.
Qed.

Lemma points_shotStats act s :
  points (shotStats act s)
  = points s + (if optIs (a_result act) "make" then default 0 (a_points act) else 0).
Proof.
  unfold shotStats. cbv zeta.
  destruct (optIs (a_shotType act) "3PT" || optIs (a_shotType act) "logo");
    [|destruct (optIs (a_shotType act) "ft")];
    destruct (optIs (a_result act) "make"); cbn; lia.
Qed.

Lemma attempts_shotStats act s :
  attempts (shotStats act s) = attempts s + 1
  /\ makes (shotStats act s)
     = makes s + (if optIs (a_result act) "make" then 1 else 0)
  /\ rebounds (shotStats act s) = rebounds s
  /\ assists (shotStats act s) = assists s
  /\ blocks (shotStats act s) = blocks s.
Proof.
  unfold shotStats, attempts, makes. cbv zeta.
  destruct s as [pt rb ast fo stl bl tov [fgm fga] [tpm tpa] [ftm fta]].
  destruct (optIs (a_shotType act) "3PT" || optIs (a_shotType act) "logo");
    [|destruct (optIs (a_shotType act) "ft")];
    destruct (optIs (a_result act) "make"); cbn; repeat split; lia.
Qed.

(** X4. A court shot recorded for the selected player, when that player
    has a line: the call returns; one attempt is added to the line, and one
    make and the points of the shot when the outcome starts with [make];
    the score of the team the court tab is on goes up by those same points;
    the other team's score, every other player's line, the fouls, the
    timeouts, the period and the game clock stay; the shot clock is set
    back only on a make, with the shot clock enabled, by an admin. *)
Theorem court_shot_bookkeeping (env : Env) (act : string) (location : Q * Q)
    (a : App) (g : Game) (player : Player) (s : PlayerStats) :
  getSelectedPlayer true a = Some player ->
  currentGame a = Some g ->
  hasCourt a = true ->
  stats g !! p_id player = Some s ->
  isShotOutcome (hd "" (split "-" act)) = true ->
  let outcome := hd "" (split "-" act) in
  let make := startsWith outcome "make" in
  let gain := if make then shotPoints outcome else 0 in
  let team := selectedCourtTeam a in
  exists a' g' s',
    handleNewCourtAction env act location a = Ok a'
    /\ currentGame a' = Some g'
    /\ stats g' !! p_id player = Some s'
    /\ attempts s' = attempts s + 1
    /\ makes s' = makes s + (if make then 1 else 0)
    /\ points s' = points s + gain
    /\ 0 <= gain <= 3
    /\ (forall key, key <> p_id player -> stats g' !! key = stats g !! key)
    /\ getSide team (scores (gameState g')) = getSide team (scores (gameState g)) + gain
    /\ (forall t, t <> team ->
          getSide t (scores (gameState g')) = getSide t (scores (gameState g)))
    /\ fouls (gameState g') = fouls (gameState g)
    /\ timeouts (gameState g') = timeouts (gameState g)
    /\ period (gameState g') = period (gameState g)
    /\ gameTime (gameState g') = gameTime (gameState g)
    /\ shotClock (gameState g')
       = (if make && shotClockEnabled (settings g) && isAdmin a
          then shotClockReset g else shotClock (gameState g)).
Proof.
  intros Hp Hg Hc Hs Hshot outcome make gain team.
  assert (Hl : hasLine (p_id player) (gameCore g)) by (exists s; exact Hs).
  destruct (handleNewCourtAction_core env act location a g player Hp Hg Hc Hl)
    as (a' & g' & Ha' & Hg' & Hcore & _).
  set (entry := statEntry env player (selectedCourtTeam a) act location g) in *.
  destruct (statEntry_shot env player (selectedCourtTeam a) act location g Hshot)
    as [Hres Hpts].
  fold entry in Hres, Hpts. fold outcome in Hres, Hpts. fold make in Hres.
  unfold courtCore in Hcore. rewrite Hshot in Hcore.
  unfold shotCore, coreShotClock, appendShot, onCoreAnalytics, onCoreGameState,
    onCoreStats, coreSettings, gameCore in Hcore.
  cbv zeta in Hcore. rewrite Hres, Hpts in Hcore.
  fold team in Hcore.
  exists a', g', (shotStats entry s).
  split; [exact Ha'|]. split; [exact Hg'|].
  destruct (attempts_shotStats entry s) as (Hat & Hmk & _).
  pose proof (points_shotStats entry s) as Hpo.
  rewrite Hres in Hmk, Hpo. rewrite Hpts in Hpo.
  pose proof (shotPoints_range outcome) as Hrange.
  assert (Hstats : stats g' = alter (shotStats entry) (p_id player) (stats g)).
  { destruct (make && shotClockEnabled (settings g) && isAdmin a);
      injection Hcore as _ _ _ H _ _; exact H. }
  assert (Hgs : gameState g'
                = (if make && shotClockEnabled (settings g) && isAdmin a
                   then set_shotClock (shotClockReset g) else fun x => x)
                    ((if make
                      then creditScore (Some team) (shotPoints outcome)
                      else fun x => x) (gameState g))).
  { destruct (make && shotClockEnabled (settings g) && isAdmin a);
      injection Hcore as _ _ H _ _ _; exact H. }
  split; [rewrite Hstats, lookup_alter_eq, Hs; reflexivity|].
  split; [exact Hat|]. split; [exact Hmk|]. split; [exact Hpo|].
  split; [subst gain; destruct make; lia|].
  split; [intros key Hne; rewrite Hstats; apply lookup_alter_ne; congruence|].
  rewrite Hgs. subst gain.
  destruct make; destruct (shotClockEnabled (settings g)); destruct (isAdmin a);
    cbn [andb creditScore]; destruct team;
    repeat split; try reflexivity; try (cbn; lia);
    intros t Ht; destruct t; try contradiction; reflexivity.
Qed.

Lemma court_shot_bookkeeping_witness :
  exists a' g' s',
    handleNewCourtAction env0 "make2-layup" paintSpot runningGame = Ok a'
    /\ currentGame a' = Some g'
    /\ stats g' !! "home_1" = Some s'
    /\ attempts s' = 1 /\ makes s' = 1 /\ points s' = 2
    /\ at_home (scores (gameState g')) = 2
    /\ at_away (scores (gameState g')) = 0
    /\ shotClock (gameState g') = 24.
Proof.
  assert (H : exists g, currentGame runningGame = Some g
                        /\ stats g !! "home_1" = Some zeroStats
                        /\ scores (gameState g) = mkHomeAway 0 0
                        /\ shotClockEnabled (settings g) = true
                        /\ shotClockReset g = 24).
  { vm_compute. eexists. repeat apply conj; reflexivity. }
  destruct H as (g & Hg & Hs & Hsc & Hen & Hrs).
  destruct (court_shot_bookkeeping env0 "make2-layup" paintSpot runningGame g
              (mkPlayer "A" 1 "N/A" "home_1") zeroStats)
    as (a' & g' & s' & H1 & H2 & H3 & H4 & H5 & H6 & _ & _ & H8 & H9 & _ & _ & _ & _ & H10).
  - vm_compute; reflexivity.
  - exact Hg.
  - vm_compute; reflexivity.
  - exact Hs.
  - vm_compute; reflexivity.
  - exists a', g', s'.
    split; [exact H1|]. split; [exact H2|]. split; [exact H3|].
    split; [exact H4|]. split; [exact H5|]. split; [exact H6|].
    change (selectedCourtTeam runningGame) with home in H8, H9.
    specialize (H9 away ltac:(discriminate)).
    cbn [getSide] in H8, H9.
    split; [rewrite H8, Hsc; reflexivity|].
    split; [rewrite H9, Hsc; reflexivity|].
    rewrite H10, Hen, Hrs. reflexivity.
Defined.

Lemma soundLine_shotStats act :
  0 <= default 0 (a_points act) ->
  forall s, soundLine s -> soundLine (shotStats act s).
Proof.
  unfold soundLine, soundMA, shotStats. cbv zeta. intros Hpts s.
  destruct s as [pt rb ast fo stl bl tov [fgm fga] [tpm tpa] [ftm fta]].
  destruct (optIs (a_shotType act) "3PT" || optIs (a_shotType act) "logo");
    [|destruct (optIs (a_shotType act) "ft")];
    destruct (optIs (a_result act) "make"); cbn; lia.
Qed.

Lemma soundLine_statLine act s : soundLine s -> soundLine (statLine act s).
Proof.
  unfold soundLine, soundMA, statLine.
  destruct s as [pt rb ast fo stl bl tov [fgm fga] [tpm tpa] [ftm fta]].
  destruct (String.eqb act "rebound");
    [|destruct (String.eqb act "assist"); [|destruct (String.eqb act "block")]];
    cbn; lia.
Qed.

Lemma soundLine_quickStats statType pts :
  0 <= pts -> forall s, soundLine s -> soundLine (quickStats statType pts s).
Proof.
  unfold soundLine, soundMA, quickStats. intros Hpts s.
  destruct s as [pt rb ast fo stl bl tov [fgm fga] [tpm tpa] [ftm fta]].
  repeat match goal with
    | |- context [if String.eqb ?x ?y then _ else _] => destruct (String.eqb x y)
    end; cbn; lia.
Qed.

Lemma soundStats_alter f key (m : gmap string PlayerStats) :
  (forall s, soundLine s -> soundLine (f s)) ->
  soundStats m -> soundStats (alter f key m).
Proof.
  intros Hf Hm k s. destruct (decide (key = k)) as [<-|Hne].
  - rewrite lookup_alter_eq. destruct (m !! key) as [s0|] eqn:Hs0; [|discriminate].
    intros [= <-]. apply Hf. exact (Hm key s0 Hs0).
  - rewrite lookup_alter_ne by exact Hne. apply Hm.
Qed.

Lemma totalPoints_insert_fresh key s (m : gmap string PlayerStats) :
  m !! key = None -> totalPoints (<[key := s]> m) = points s + totalPoints m.
Proof.
  intros Hnone. unfold totalPoints.
  apply (map_fold_insert_L (fun (_ : string) s acc => points s + acc)); [|exact Hnone].
  intros; lia.
Qed.

Lemma totalPoints_alter f key (m : gmap string PlayerStats) s :
  m !! key = Some s ->
  totalPoints (alter f key m) = totalPoints m - points s + points (f s).
Proof.
  intros Hs. rewrite (alter_as_insert f key m s Hs).
  rewrite <- (insert_delete_eq m key (f s)).
  rewrite <- (insert_delete_id m key s Hs) at 2.
  rewrite !totalPoints_insert_fresh by apply lookup_delete_eq. lia.
Qed.

Lemma points_statLine act s : points (statLine act s) = points s.
Proof.
  unfold statLine.
  destruct (String.eqb act "rebound");
    [|destruct (String.eqb act "assist"); [|destruct (String.eqb act "block")]];
    reflexivity.
Qed.

Lemma points_quickStats statType pts s :
  points (quickStats statType pts s)
  = points s + (if quickScores statType then pts else 0).
Proof.
  unfold quickStats, quickScores.
  repeat match goal with
    | |- context [if String.eqb ?x ?y then _ else _] => destruct (String.eqb x y)
    end; cbn; lia.
Qed.

Lemma scores_creditScore t pts s :
  at_home (scores (creditScore (Some t) pts s)) + at_away (scores (creditScore (Some t) pts s))
  = at_home (scores s) + at_away (scores s) + pts.
Proof. destruct t; cbn; lia. Qed.

Lemma scores_set_shotClock v s : scores (set_shotClock v s) = scores s.
Proof. reflexivity. Qed.

Lemma courtCore_sound entry act key team ad c :
  0 <= default 0 (a_points entry) ->
  coreSound c -> coreSound (courtCore entry act key team ad c).
Proof.
  destruct c as [[[[[st se] gs] ss] sh] an].
  unfold coreSound, courtCore, shotCore, coreShotClock, appendShot.
  cbv zeta. intros Hpts H.
  destruct (isShotOutcome (hd "" (split "-" act)));
    cbn [onCoreStats onCoreGameState onCoreAnalytics coreSettings];
    repeat match goal with
      | |- context [if ?b then _ else _] => destruct b
      end;
    cbn [onCoreGameState coreStats];
    apply soundStats_alter; try exact H;
    first [apply soundLine_shotStats; exact Hpts | apply soundLine_statLine].
Qed.

Lemma quickCore_sound statType pts key team ad c :
  0 <= pts ->
  coreSound c -> coreSound (quickCore statType pts key team ad c).
Proof.
  destruct c as [[[[[st se] gs] ss] sh] an].
  unfold coreSound, quickCore, coreShotClock. intros Hpts H.
  cbn [onCoreStats onCoreGameState onCoreAnalytics coreSettings].
  repeat match goal with
    | |- context [if ?b then _ else _] => destruct b
    end;
    cbn [onCoreGameState coreStats];
    apply soundStats_alter; try exact H; apply soundLine_quickStats; exact Hpts.
Qed.

Lemma courtCore_addsUp entry act key team ad c :
  hasLine key c -> coreAddsUp c -> coreAddsUp (courtCore entry act key team ad c).
Proof.
  destruct c as [[[[[st se] gs] ss] sh] an].
  unfold hasLine, coreAddsUp, courtCore, shotCore, coreShotClock, appendShot.
  cbv zeta. cbn [coreStats coreGameState]. intros [s Hs] H.
  destruct (isShotOutcome (hd "" (split "-" act)));
    cbn [onCoreStats onCoreGameState onCoreAnalytics coreSettings];
    repeat match goal with
      | |- context [if ?b then _ else _] => destruct b eqn:?
      end;
    cbn [onCoreGameState coreStats coreGameState];
    rewrite ?scores_set_shotClock, ?scores_creditScore,
      (totalPoints_alter _ key ss s Hs), ?points_shotStats, ?points_statLine;
    repeat match goal with
      | H : ?b = _ |- context [if ?b then _ else _] => rewrite H
      end; lia.
Qed.

Lemma quickCore_addsUp statType pts key t ad c :
  hasLine key c -> coreAddsUp c ->
  coreAddsUp (quickCore statType pts key (Some t) ad c).
Proof.
  destruct c as [[[[[st se] gs] ss] sh] an].
  unfold hasLine, coreAddsUp, quickCore, coreShotClock.
  cbn [coreStats coreGameState]. intros [s Hs] H.
  cbn [onCoreStats onCoreGameState onCoreAnalytics coreSettings].
  repeat match goal with
    | |- context [if ?b then _ else _] => destruct b eqn:?
    end;
    cbn [onCoreGameState coreStats coreGameState];
    rewrite ?scores_set_shotClock, ?scores_creditScore,
      (totalPoints_alter _ key ss s Hs), points_quickStats;
    repeat match goal with
      | H : ?b = _ |- context [if ?b then _ else _] => rewrite H
      end; lia.
Qed.

(** The points of a court entry are never negative. *)
Lemma statEntry_points env player team act location g :
  0 <= default 0 (a_points (statEntry env player team act location g)).
Proof.
  unfold statEntry. cbv zeta. cbn [a_points].
  destruct (isShotOutcome (hd "" (split "-" act))); cbn; [|lia].
  apply shotPoints_range.
Qed.

(** X5. Recording keeps every line of the box score sound: if no counter
    of any player is negative (the points, the rebounds, the assists, the
    fouls, the steals, the blocks, the turnovers, and the makes and
    attempts of the three kinds of shot) and nobody has more makes than
    attempts, this is still so after a court action recorded for the
    selected player and after a quick stat of an admin that carries no
    negative points (a player with a line, in a loaded game; both calls
    return). *)
Theorem recording_keeps_lines_sound :
  (forall env act location a g player,
      getSelectedPlayer true a = Some player ->
      currentGame a = Some g -> hasCourt a = true ->
      is_Some (stats g !! p_id player) ->
      soundStats (stats g) ->
      exists a' g',
        handleNewCourtAction env act location a = Ok a'
        /\ currentGame a' = Some g' /\ soundStats (stats g'))
  /\ (forall env statType pts a g player,
        isAdmin a = true ->
        getSelectedPlayer false a = Some player ->
        currentGame a = Some g ->
        is_Some (stats g !! p_id player) ->
        includes statType "foul" = false -> includes statType "timeout" = false ->
        0 <= pts ->
        soundStats (stats g) ->
        exists a' g',
          recordQuickStat env statType pts a = Ok a'
          /\ currentGame a' = Some g' /\ soundStats (stats g')).
Proof.
  split.
  - intros env act location a g player Hp Hg Hc Hl Hsound.
    destruct (handleNewCourtAction_core env act location a g player Hp Hg Hc Hl)
      as (a' & g' & Ha' & Hg' & Hcore & _).
    exists a', g'. split; [exact Ha'|]. split; [exact Hg'|].
    change (coreSound (gameCore g')). rewrite Hcore.
    apply courtCore_sound; [apply statEntry_points | exact Hsound].
  - intros env statType pts a g player Had Hp Hg Hl Hf Ht Hpts Hsound.
    destruct (recordQuickStat_core env statType pts a g player Had Hp Hg Hl Hf Ht)
      as (a' & g' & Ha' & Hg' & Hcore & _).
    exists a', g'. split; [exact Ha'|]. split; [exact Hg'|].
    change (coreSound (gameCore g')). rewrite Hcore.
    apply quickCore_sound; [exact Hpts | exact Hsound].
Qed.

(** X6. Recording keeps the scoreboard and the box score in step: if the
    two team scores together equal the points of all players together,
    this is still so after a court action recorded for the selected player
    and after a quick stat of an admin. *)
Theorem recording_keeps_scores_adding_up :
  (forall env act location a g player,
      getSelectedPlayer true a = Some player ->
      currentGame a = Some g -> hasCourt a = true ->
      is_Some (stats g !! p_id player) ->
      scoresAddUp g ->
      exists a' g',
        handleNewCourtAction env act location a = Ok a'
        /\ currentGame a' = Some g' /\ scoresAddUp g')
  /\ (forall env statType pts a g player,
        isAdmin a = true ->
        getSelectedPlayer false a = Some player ->
        currentGame a = Some g ->
        is_Some (stats g !! p_id player) ->
        includes statType "foul" = false -> includes statType "timeout" = false ->
        scoresAddUp g ->
        exists a' g',
          recordQuickStat env statType pts a = Ok a'
          /\ currentGame a' = Some g' /\ scoresAddUp g').
Proof.
  split.
  - intros env act location a g player Hp Hg Hc Hl Hsum.
    destruct (handleNewCourtAction_core env act location a g player Hp Hg Hc Hl)
      as (a' & g' & Ha' & Hg' & Hcore & _).
    exists a', g'. split; [exact Ha'|]. split; [exact Hg'|].
    change (coreAddsUp (gameCore g')). rewrite Hcore.
    apply courtCore_addsUp; [exact Hl | exact Hsum].
  - intros env statType pts a g player Had Hp Hg Hl Hf Ht Hsum.
    destruct (recordQuickStat_core env statType pts a g player Had Hp Hg Hl Hf Ht)
      as (a' & g' & Ha' & Hg' & Hcore & _).
    destruct (getSelectedPlayer_team false a player Hp) as (g0 & t & _ & Hteam & _).
    exists a', g'. split; [exact Ha'|]. split; [exact Hg'|].
    change (coreAddsUp (gameCore g')). rewrite Hcore, Hteam.
    apply quickCore_addsUp; [exact Hl | exact Hsum].
Qed.

Lemma soundStats_empty : soundStats ∅.
Proof. intros k s H. rewrite lookup_empty in H. discriminate. Qed.

Lemma soundStats_insert key s (m : gmap string PlayerStats) :
  soundLine s -> soundStats m -> soundStats (<[key := s]> m).
Proof.
  intros Hs Hm k s'. destruct (decide (key = k)) as [<-|Hne].
  - rewrite lookup_insert_eq. intros [= <-]. exact Hs.
  - rewrite lookup_insert_ne by exact Hne. apply Hm.
Qed.

Lemma soundLine_zero : soundLine zeroStats.
Proof. unfold soundLine, soundMA. cbn. lia. Qed.

Lemma totalPoints_empty : totalPoints ∅ = 0.
Proof. apply map_fold_empty. Qed.

(** The box score of [runningGame]: two all-zero lines. *)
Lemma runningGame_box_score :
  exists g, currentGame runningGame = Some g
            /\ stats g = <["away_2" := zeroStats]> (<["home_1" := zeroStats]> ∅)
            /\ scores (gameState g) = mkHomeAway 0 0.
Proof. vm_compute. eexists. repeat apply conj; reflexivity. Qed.

Lemma recording_keeps_lines_sound_witness :
  exists a' g',
    handleNewCourtAction env0 "make2-layup" paintSpot runningGame = Ok a'
    /\ currentGame a' = Some g' /\ soundStats (stats g').
Proof.
  destruct runningGame_box_score as (g & Hg & Hs & _).
  destruct recording_keeps_lines_sound as [Hcourt _].
  apply (Hcourt env0 "make2-layup" paintSpot runningGame g
           (mkPlayer "A" 1 "N/A" "home_1")).
  - vm_compute; reflexivity.
  - exact Hg.
  - vm_compute; reflexivity.
  - rewrite Hs. exists zeroStats. reflexivity.
  - rewrite Hs. repeat apply soundStats_insert;
      first [apply soundLine_zero | apply soundStats_empty].
Defined.

Lemma recording_keeps_scores_adding_up_witness :
  exists a' g',
    recordQuickStat env0 "fg3" 3 runningGame = Ok a'
    /\ currentGame a' = Some g' /\ scoresAddUp g'.
Proof.
  destruct runningGame_box_score as (g & Hg & Hs & Hsc).
  destruct recording_keeps_scores_adding_up as [_ Hquick].
  apply (Hquick env0 "fg3" 3 runningGame g (mkPlayer "A" 1 "N/A" "home_1")).
  - vm_compute; reflexivity.
  - vm_compute; reflexivity.
  - exact Hg.
  - rewrite Hs. exists zeroStats. reflexivity.
  - vm_compute; reflexivity.
  - vm_compute; reflexivity.
  - unfold scoresAddUp. rewrite Hs, Hsc.
    rewrite !totalPoints_insert_fresh, totalPoints_empty by reflexivity.
    reflexivity.
Defined.

(** ** Recordings that are turned down *)

Lemma andThen_TypeError a k : TypeError a >>> k = TypeError a.
Proof. reflexivity. Qed.

(** A shot, a rebound, an assist or a block for a player without a line
    throws before anything is written. *)
Lemma handleShotAction_missing act key team a g :
  currentGame a = Some g -> stats g !! key = None ->
  handleShotAction act key team a = TypeError a.
Proof.
  intros Hg Hs. unfold handleShotAction. cbv zeta.
  destruct (optIs (a_shotType act) "3PT" || optIs (a_shotType act) "logo");
    [|destruct (optIs (a_shotType act) "ft")];
    rewrite (withStats_missing _ _ a g Hg Hs); reflexivity.
Qed.

(** X7. Recordings that cannot be applied change nothing. A court action
    with no player selected and a quick stat by a non-admin, or (timeouts
    apart) with no player selected, return with the application object as
    it was. For a selected player who has no line, a quick stat returns
    with nothing written, not even an undo entry, while a court shot throws
    a [TypeError], also before anything is written. *)
Theorem turned_down_recordings_change_nothing :
  (forall env act location a,
      getSelectedPlayer true a = None ->
      handleNewCourtAction env act location a = Ok a)
  /\ (forall env statType pts a,
        isAdmin a = false -> recordQuickStat env statType pts a = Ok a)
  /\ (forall env statType pts a,
        getSelectedPlayer false a = None -> includes statType "timeout" = false ->
        recordQuickStat env statType pts a = Ok a)
  /\ (forall env statType pts a g player,
        isAdmin a = true -> getSelectedPlayer false a = Some player ->
        currentGame a = Some g -> stats g !! p_id player = None ->
        includes statType "foul" = false -> includes statType "timeout" = false ->
        recordQuickStat env statType pts a = Ok a)
  /\ (forall env act location a g player,
        getSelectedPlayer true a = Some player ->
        currentGame a = Some g -> hasCourt a = true ->
        stats g !! p_id player = None ->
        isShotOutcome (hd "" (split "-" act)) = true ->
        handleNewCourtAction env act location a = TypeError a).
Proof.
  repeat apply conj.
  - intros env act location a Hp. unfold handleNewCourtAction. now rewrite Hp.
  - intros env statType pts a Had. unfold recordQuickStat. now rewrite Had.
  - intros env statType pts a Hp Ht. unfold recordQuickStat.
    rewrite Hp, Ht. destruct (isAdmin a); reflexivity.
  - intros env statType pts a g player Had Hp Hg Hs Hf Ht.
    unfold recordQuickStat. now rewrite Had, Hp, Hf, Ht, Hg, Hs.
  - intros env act location a g player Hp Hg Hc Hs Hshot.
    unfold handleNewCourtAction. rewrite Hp, Hg, Hshot.
    unfold hasCourt in Hc. destruct (courtInterface a); [|discriminate].
    now rewrite (handleShotAction_missing _ _ _ a g Hg Hs).
Qed.

Lemma turned_down_recordings_change_nothing_witness :
  handleNewCourtAction env1 "make2-layup" paintSpot lineless = TypeError lineless
  /\ recordQuickStat env1 "fg2" 2 lineless = Ok lineless
  /\ handleNewCourtAction env0 "make2-layup" paintSpot createdGame = Ok createdGame.
Proof.
  destruct turned_down_recordings_change_nothing as (H1 & _ & _ & H4 & H5).
  assert (Hg : exists g, currentGame lineless = Some g /\ stats g !! "home_3" = None).
  { vm_compute. eexists. split; reflexivity. }
  destruct Hg as (g & Hg & Hs).
  repeat apply conj.
  - apply (H5 env1 "make2-layup" paintSpot lineless g (mkPlayer "C" 3 "N/A" "home_3")).
    + vm_compute; reflexivity.
    + exact Hg.
    + vm_compute; reflexivity.
    + exact Hs.
    + vm_compute; reflexivity.
  - apply (H4 env1 "fg2" 2 lineless g (mkPlayer "C" 3 "N/A" "home_3")).
    + vm_compute; reflexivity.
    + vm_compute; reflexivity.
    + exact Hg.
    + exact Hs.
    + vm_compute; reflexivity.
    + vm_compute; reflexivity.
  - apply H1. vm_compute; reflexivity.
Defined.

(** ** The play-by-play log *)

(** X8. [addPlayByPlayEvent] on a loaded game puts the new line first,
    stamped with the game clock as text and the period, and keeps the 50
    newest lines: a log of at most 50 lines stays at most 50 long, one of
    fewer than 50 loses nothing, one of 50 loses its oldest line. Nothing
    else of the game is touched. *)
Theorem addPlayByPlayEvent_newest_first_capped (message : string) (a : App) (g : Game) :
  currentGame a = Some g ->
  (length (playByPlay g) <= 50)%nat ->
  exists g',
    currentGame (addPlayByPlayEvent message a) = Some g'
    /\ head (playByPlay g') = Some (playEvent message g)
    /\ e_time (playEvent message g) = formatTime (gameTime (gameState g))
    /\ (length (playByPlay g') <= 50)%nat
    /\ ((length (playByPlay g) < 50)%nat ->
        playByPlay g' = playEvent message g :: playByPlay g)
    /\ (length (playByPlay g) = 50%nat ->
        playByPlay g' = playEvent message g :: removelast (playByPlay g))
    /\ gameCore g' = gameCore g
    /\ engine (addPlayByPlayEvent message a) = engine a.
Proof.
  intros Hg Hlen. unfold addPlayByPlayEvent. rewrite Hg.
  fold (playEvent message g). cbn [length].
  assert (Hcase : (length (playByPlay g) < 50 \/ length (playByPlay g) = 50)%nat) by lia.
  assert (Heng : forall l,
             engine (set_currentGame (Some (set_playByPlay l g)) a) = engine a).
  { intros l. unfold engine. cbn. now rewrite Hg. }
  destruct Hcase as [Hlt|Heq].
  - destruct (Nat.ltb_spec 50 (S (length (playByPlay g)))); [lia|].
    eexists. split; [reflexivity|]. cbn [set_playByPlay playByPlay head length].
    split; [reflexivity|]. split; [reflexivity|]. split; [lia|].
    split; [reflexivity|]. split; [lia|]. split; [reflexivity | apply Heng].
  - destruct (Nat.ltb_spec 50 (S (length (playByPlay g)))); [|lia].
    assert (Htake : take 49 (playByPlay g) = removelast (playByPlay g)).
    { destruct (playByPlay g) as [|e l _] using rev_ind; [discriminate|].
      rewrite removelast_last. rewrite length_app in Heq. cbn in Heq.
      rewrite take_app_length'; [reflexivity | lia]. }
    eexists. split; [reflexivity|]. cbn [set_playByPlay playByPlay take head length].
    split; [reflexivity|]. split; [reflexivity|].
    split; [rewrite length_take; lia|].
    split; [lia|]. split; [intros _; now rewrite Htake|].
    split; [reflexivity | apply Heng].
Qed.

Lemma addPlayByPlayEvent_newest_first_capped_witness :
  exists g',
    currentGame (addPlayByPlayEvent "Timeout" fullStack) = Some g'
    /\ head (playByPlay g') = Some (mkPlayEvent "Timeout" "11:58" 1)
    /\ length (playByPlay g') = 23%nat.
Proof.
  assert (Hg : exists g, currentGame fullStack = Some g
                         /\ length (playByPlay g) = 22%nat
                         /\ playEvent "Timeout" g = mkPlayEvent "Timeout" "11:58" 1).
  { vm_compute. eexists. repeat apply conj; reflexivity. }
  destruct Hg as (g & Hg & Hlen & Hev).
  destruct (addPlayByPlayEvent_newest_first_capped "Timeout" fullStack g Hg)
    as (g' & H1 & H2 & _ & _ & H5 & _).
  - rewrite Hlen. lia.
  - exists g'. split; [exact H1|]. split; [rewrite H2, Hev; reflexivity|].
    rewrite H5 by (rewrite Hlen; lia). cbn [length]. now rewrite Hlen.
Defined.

(** ** Team fouls and timeouts *)

Lemma hasCourt_onGame f a a' : onGame f a = Ok a' -> hasCourt a' = hasCourt a.
Proof.
  unfold onGame. destruct (currentGame a); [|discriminate]. now intros [= <-].
Qed.

(** The engine after [applyStatAdjustment]: the value is written, the undo
    entry holds the earlier state. *)
Lemma applyStatAdjustment_engine env team stat newValue a g :
  currentGame a = Some g ->
  exists a' act,
    applyStatAdjustment env team stat newValue a = Ok a'
    /\ hasCourt a' = hasCourt a
    /\ engine a'
       = (Some (status g, settings g, setTeamStat stat team newValue (gameState g),
                stats g, shots g, analytics g),
          isAdmin a, clockInterval a, shotClockInterval a,
          pushUndo (mkUndoEntry act (gameState g) (stats g) (analytics g))
                   (undoStack a)).
Proof.
  intros Hg. unfold applyStatAdjustment. rewrite Hg. cbv zeta.
  unfold addToUndoStack. rewrite Hg. cbn [andThen].
  unfold onGameState, onGame. cbn [currentGame set_undoStack]. rewrite Hg.
  cbn [andThen].
  eexists. eexists. split; [reflexivity|].
  split; [rewrite hasCourt_updateAllDisplays, hasCourt_addPlayByPlayEvent; reflexivity|].
  rewrite engine_logged. reflexivity.
Qed.

(** X9. [adjustTeamStat] by an admin never leaves a team's fouls or
    timeouts below zero: the new value is [max 0 (current + adjustment)].
    With the dialog library loaded a foul that goes past the foul limit is
    applied only if the warning is confirmed, and otherwise nothing
    changes. An adjustment that is applied touches that one counter only,
    and an undo right after it puts the game state back. *)
Theorem adjustTeamStat_clamped_confirmed_undoable (env : Env) (team : Team)
    (stat : TeamStat) (adjustment : Z) (a : App) (g : Game) :
  isAdmin a = true -> currentGame a = Some g -> hasCourt a = true ->
  let newValue := Z.max 0 (getTeamStat stat team (gameState g) + adjustment) in
  let warned :=
    env_swal env
    && match stat with
       | fouls_stat => (foulLimit (settings g) <? newValue) && (0 <? adjustment)
       | timeouts_stat => false
       end in
  (warned = true -> env_confirmed env = false ->
   adjustTeamStat env team stat adjustment a = Ok a)
  /\ (warned = false \/ env_confirmed env = true ->
      exists a' g',
        adjustTeamStat env team stat adjustment a = Ok a'
        /\ currentGame a' = Some g'
        /\ gameState g' = setTeamStat stat team newValue (gameState g)
        /\ getTeamStat stat team (gameState g') = newValue
        /\ 0 <= newValue
        /\ scores (gameState g') = scores (gameState g)
        /\ stats g' = stats g /\ analytics g' = analytics g /\ shots g' = shots g
        /\ exists a'' g'',
             undoLastAction a' = Ok a'' /\ currentGame a'' = Some g''
             /\ gameState g'' = gameState g
             /\ stats g'' = stats g /\ analytics g'' = analytics g).
Proof.
  intros Had Hg Hc newValue warned.
  unfold adjustTeamStat. rewrite Hg, Had. cbn [negb]. fold newValue. fold warned.
  split.
  - intros Hw Hconf. now rewrite Hw, Hconf.
  - intros Hcase.
    assert (Hpos : 0 <= newValue) by apply Z.le_max_l.
    assert (Hrun : (if warned
                    then if env_confirmed env
                         then applyStatAdjustment env team stat newValue a
                         else Ok a
                    else if env_swal env
                            && match stat with
                               | fouls_stat => false
                               | timeouts_stat => newValue <? 0
                               end
                    then Ok a
                    else applyStatAdjustment env team stat newValue a)
                   = applyStatAdjustment env team stat newValue a).
    { destruct warned.
      - destruct Hcase as [Hw|Hconf]; [discriminate | now rewrite Hconf].
      - destruct (Z.ltb_spec newValue 0) as [Hneg|_]; [lia|].
        destruct stat; now rewrite ?andb_false_r. }
    rewrite Hrun.
    destruct (applyStatAdjustment_engine env team stat newValue a g Hg)
      as (a' & act & Ha' & Hc' & E).
    destruct (engine_has_game _ _ _ _ _ _ E) as (g' & Hg').
    destruct (engine_game _ _ _ _ _ _ _ _ _ _ _ _ E Hg')
      as (_ & _ & Hgs & Hss & Hsh & Han).
    exists a', g'. split; [exact Ha'|]. split; [exact Hg'|].
    split; [exact Hgs|].
    split; [rewrite Hgs; destruct stat, team; reflexivity|].
    split; [exact Hpos|].
    split; [rewrite Hgs; destruct stat; reflexivity|].
    split; [exact Hss|]. split; [exact Han|]. split; [exact Hsh|].
    assert (Hflags : isAdmin a' = true
                     /\ last (undoStack a')
                        = Some (mkUndoEntry act (gameState g) (stats g) (analytics g))).
    { unfold engine in E. injection E as _ -> _ _ ->.
      split; [exact Had | apply last_pushUndo]. }
    destruct Hflags as [Had' Hlast].
    destruct (undoLastAction_restores a' g' _ Had' Hg' (eq_trans Hc' Hc) Hlast)
      as (a'' & g'' & Hu & Hg'' & Hsnap & _).
    exists a'', g''. unfold snapshotOf in Hsnap. cbn in Hsnap.
    injection Hsnap as H1 H2 H3. repeat split; assumption.
Qed.

Lemma adjustTeamStat_clamped_confirmed_undoable_witness :
  exists a' g',
    adjustTeamStat env0 home fouls_stat (-1) runningGame = Ok a'
    /\ currentGame a' = Some g'
    /\ at_home (fouls (gameState g')) = 0
    /\ length (undoStack a') = 1%nat.
Proof.
  assert (H : exists g, currentGame runningGame = Some g
                        /\ fouls (gameState g) = mkHomeAway 0 0).
  { vm_compute. eexists. split; reflexivity. }
  destruct H as (g & Hg & Hf).
  destruct (adjustTeamStat_clamped_confirmed_undoable env0 home fouls_stat (-1)
              runningGame g) as [_ Happ].
  - vm_compute; reflexivity.
  - exact Hg.
  - vm_compute; reflexivity.
  - destruct Happ as (a' & g' & H1 & H2 & _ & H4 & _); [left; reflexivity|].
    exists a', g'. split; [exact H1|]. split; [exact H2|].
    cbn [getTeamStat getSide] in H4. rewrite Hf in H4. cbn in H4.
    split; [exact H4|].
    assert (Hl : option_map (fun a => length (undoStack a))
                   (match adjustTeamStat env0 home fouls_stat (-1) runningGame with
                    | Ok x => Some x | TypeError _ => None end) = Some 1%nat)
      by (vm_compute; reflexivity).
    rewrite H1 in Hl. cbn in Hl. now injection Hl.
Defined.

(** ** More on the clocks *)

(** X10. On a session in which no interval runs without a handle (no
    start of the clock has followed another without a stop in between),
    once the clock is stopped it is frozen: after [pauseGame], after
    [handlePeriodEnd] and after [endGame] (each returns on a loaded game)
    both handles are cleared and there is still no stray interval, so along
    any schedule of timer expiries no callback runs, the application
    object stays as it is, and no period end is handled. *)
Theorem stopped_clock_is_frozen (a : App) (g : Game) :
  currentGame a = Some g -> noStrayIntervals a ->
  (exists a', pauseGame a = Ok a'
              /\ running GameTimer a' = false /\ running ShotTimer a' = false
              /\ forall sched, runTimers sched a' = (O, Ok a'))
  /\ (exists a', handlePeriodEnd a = Ok a'
                 /\ running GameTimer a' = false /\ running ShotTimer a' = false
                 /\ forall sched, runTimers sched a' = (O, Ok a'))
  /\ (exists a', endGame a = Ok a'
                 /\ running GameTimer a' = false /\ running ShotTimer a' = false
                 /\ forall sched, runTimers sched a' = (O, Ok a')).
Proof.
  intros Hg Hn.
  assert (Hoff : forall a' x ad us,
             engine a' = (x, ad, false, false, us) -> strays a' = strays a ->
             running GameTimer a' = false /\ running ShotTimer a' = false
             /\ forall sched, runTimers sched a' = (O, Ok a')).
  { intros a' x ad us E Hs. unfold engine in E. injection E as _ _ H1 H2 _.
    assert (Hn' : noStrayIntervals a') by (unfold noStrayIntervals; congruence).
    rewrite !(running_noStray _ _ Hn').
    split; [exact H1|]. split; [exact H2|].
    intros sched. apply runTimers_stopped; assumption. }
  repeat apply conj.
  - destruct (pauseGame_engine a g Hg) as (a' & Ha' & E).
    exists a'. split; [exact Ha' | exact (Hoff _ _ _ _ E (strays_pauseGame _ _ Ha'))].
  - destruct (handlePeriodEnd_engine a g Hg) as (a' & Ha' & E).
    exists a'.
    split; [exact Ha' | exact (Hoff _ _ _ _ E (strays_handlePeriodEnd _ _ Ha'))].
  - destruct (endGame_engine a g Hg) as (a' & Ha' & E).
    exists a'. split; [exact Ha' | exact (Hoff _ _ _ _ E (strays_endGame _ _ Ha'))].
Qed.

Lemma stopped_clock_is_frozen_witness :
  exists a', pauseGame runningGame = Ok a'
             /\ runTimers [GameTimer; ShotTimer; GameTimer] a' = (O, Ok a').
Proof.
  assert (Hg : exists g, currentGame runningGame = Some g).
  { vm_compute. eexists. reflexivity. }
  destruct Hg as (g & Hg).
  destruct (stopped_clock_is_frozen runningGame g Hg)
    as ((a' & Ha' & _ & _ & Hrun) & _).
  - vm_compute; reflexivity.
  - exists a'. split; [exact Ha' | apply Hrun].
Defined.

(** X11. Starting the clock and stopping it again with no tick in between
    (two [toggleGameClock] by an admin, from any status other than [live])
    leaves the session [paused] with both interval handles cleared; the game
    state, the statistics, the analytics, the ledger and the undo stack are
    as before. This holds from [setup] and from [final] too: a finished
    game comes out [paused]. *)
Theorem start_then_stop_leaves_paused (a : App) (g : Game) :
  currentGame a = Some g -> isAdmin a = true -> status g <> live ->
  exists a1 a2 g2,
    toggleGameClock a = Ok a1 /\ toggleGameClock a1 = Ok a2
    /\ currentGame a2 = Some g2
    /\ status g2 = paused
    /\ clockInterval a2 = false /\ shotClockInterval a2 = false
    /\ gameState g2 = gameState g /\ stats g2 = stats g
    /\ analytics g2 = analytics g /\ shots g2 = shots g
    /\ undoStack a2 = undoStack a.
Proof.
  intros Hg Had Hst.
  destruct (resumeGame_engine a g Hg) as (a1 & Ha1 & E1).
  destruct (engine_has_game _ _ _ _ _ _ E1) as (g1 & Hg1).
  destruct (engine_game _ _ _ _ _ _ _ _ _ _ _ _ E1 Hg1)
    as (Hs1 & Hse1 & Hgs1 & Hss1 & Hsh1 & Han1).
  assert (Hf1 : isAdmin a1 = true /\ undoStack a1 = undoStack a).
  { unfold engine in E1. injection E1 as _ -> _ _ ->. split; [exact Had | reflexivity]. }
  destruct Hf1 as [Had1 Hu1].
  destruct (pauseGame_engine a1 g1 Hg1) as (a2 & Ha2 & E2).
  destruct (engine_has_game _ _ _ _ _ _ E2) as (g2 & Hg2).
  destruct (engine_game _ _ _ _ _ _ _ _ _ _ _ _ E2 Hg2)
    as (Hs2 & _ & Hgs2 & Hss2 & Hsh2 & Han2).
  exists a1, a2, g2.
  split.
  { unfold toggleGameClock. rewrite Hg, Had. cbn [negb].
    destruct (status g); try exact Ha1. contradiction. }
  split.
  { unfold toggleGameClock. rewrite Hg1, Had1, Hs1. exact Ha2. }
  split; [exact Hg2|]. split; [exact Hs2|].
  unfold engine in E2. injection E2 as _ _ Hc Hsc Hu.
  repeat split; congruence.
Qed.

Lemma start_then_stop_leaves_paused_witness :
  option_map status (currentGame endedGame) = Some final
  /\ exists a1 a2 g2,
       toggleGameClock endedGame = Ok a1 /\ toggleGameClock a1 = Ok a2
       /\ currentGame a2 = Some g2 /\ status g2 = paused.
Proof.
  split; [vm_compute; reflexivity|].
  assert (Hg : exists g, currentGame endedGame = Some g /\ status g = final).
  { vm_compute. eexists. split; reflexivity. }
  destruct Hg as (g & Hg & Hs).
  destruct (start_then_stop_leaves_paused endedGame g Hg)
    as (a1 & a2 & g2 & H1 & H2 & H3 & H4 & _).
  - vm_compute; reflexivity.
  - rewrite Hs. discriminate.
  - exists a1, a2, g2. repeat apply conj; assumption.
Defined.

Lemma set_gameTime_same gs : set_gameTime (gameTime gs) gs = gs.
Proof. destruct gs; reflexivity. Qed.

(** The game clock [k] ticks into a countdown that has more than [k]
    seconds left. *)
Lemma countdown_partial k : forall a g,
  currentGame a = Some g -> clockInterval a = true ->
  Z.of_nat k < gameTime (gameState g) ->
  exists a',
    runTimers (repeat GameTimer k) a = (O, Ok a')
    /\ engine a'
       = (Some (status g, settings g,
                set_gameTime (gameTime (gameState g) - Z.of_nat k) (gameState g),
                stats g, shots g, analytics g),
          isAdmin a, true, shotClockInterval a, undoStack a).
Proof.
  induction k as [|k IH]; intros a g Hg Hc Hlt.
  - exists a. split; [reflexivity|].
    unfold engine. rewrite Hg, Hc. cbn [option_map gameCore Z.of_nat].
    now rewrite Z.sub_0_r, set_gameTime_same.
  - cbn [repeat runTimers]. unfold fire. cbn [running]. rewrite Hc. cbn [orb].
    rewrite (gameClockTick_decrement a g Hg) by lia.
    set (a1 := set_currentGame _ a).
    destruct (IH a1 _ eq_refl Hc) as (a' & Hrun & E); [cbn; lia|].
    rewrite Hrun. exists a'. split; [reflexivity|].
    rewrite E. cbn [status settings gameState stats shots analytics set_gameState
                    set_gameTime gameTime period shotClock scores fouls timeouts].
    replace (gameTime (gameState g) - 1 - Z.of_nat k)
      with (gameTime (gameState g) - Z.of_nat (S k)) by lia.
    destruct (gameState g); reflexivity.
Qed.

(** The game clock's interval expiring as many times as there are seconds
    left: the last tick handles the period end. *)
Lemma countdown_total n : forall a g,
  currentGame a = Some g -> clockInterval a = true ->
  gameTime (gameState g) = Z.of_nat (S n) ->
  exists r,
    r = handlePeriodEnd
          (set_currentGame (Some (set_gameState (set_gameTime 0 (gameState g)) g)) a)
    /\ runTimers (repeat GameTimer (S n)) a = (1%nat, r).
Proof.
  induction n as [|n IH]; intros a g Hg Hc Hgt.
  - eexists. split; [reflexivity|].
    cbn [repeat runTimers]. unfold fire. cbn [running]. rewrite Hc. cbn [orb].
    rewrite (gameClockTick_period_end a g Hg) by (rewrite Hgt; reflexivity).
    destruct (handlePeriodEnd _); reflexivity.
  - eexists. split; [reflexivity|].
    change (repeat GameTimer (S (S n))) with (GameTimer :: repeat GameTimer (S n)).
    cbn [runTimers]. unfold fire. cbn [running]. rewrite Hc. cbn [orb].
    rewrite (gameClockTick_decrement a g Hg) by lia.
    set (a1 := set_currentGame _ a).
    destruct (IH a1 _ eq_refl Hc) as (r & Hr & Hrun).
    { cbn [gameState set_gameState gameTime set_gameTime]. lia. }
    rewrite Hrun. cbn [Nat.add]. f_equal. rewrite Hr. reflexivity.
Qed.

(** X12. A countdown runs its course. With the game clock's interval
    running and [gameTime > 0] seconds left, [k < gameTime] expiries of the
    interval only take [k] seconds off the game clock; the expiry number
    [gameTime] handles the period end, once, and leaves both intervals
    cleared: the next period with a full clock and status paused below the
    format's regulation periods, an overtime period of 300 seconds when
    regulation is used up with the scores level, and status final with the
    clock at 0 otherwise. The shot clock, the scores, the statistics and
    the analytics are not touched by the game clock's ticks. *)
Theorem period_counts_down_to_its_end (a : App) (g : Game) :
  currentGame a = Some g -> clockInterval a = true ->
  0 < gameTime (gameState g) ->
  let n := Z.to_nat (gameTime (gameState g)) in
  (forall k, (k < n)%nat ->
     exists a' g',
       runTimers (repeat GameTimer k) a = (O, Ok a')
       /\ currentGame a' = Some g'
       /\ gameTime (gameState g') = gameTime (gameState g) - Z.of_nat k
       /\ status g' = status g /\ period (gameState g') = period (gameState g))
  /\ exists a' g',
       runTimers (repeat GameTimer n) a = (1%nat, Ok a')
       /\ currentGame a' = Some g'
       /\ clockInterval a' = false /\ shotClockInterval a' = false
       /\ shotClock (gameState g') = shotClock (gameState g)
       /\ scores (gameState g') = scores (gameState g)
       /\ stats g' = stats g /\ analytics g' = analytics g
       /\ (period (gameState g) < maxPeriods g ->
           status g' = paused
           /\ period (gameState g') = period (gameState g) + 1
           /\ gameTime (gameState g') = periodDuration (settings g) * 60)
       /\ (maxPeriods g <= period (gameState g) ->
           at_home (scores (gameState g)) = at_away (scores (gameState g)) ->
           status g' = paused
           /\ period (gameState g') = period (gameState g) + 1
           /\ gameTime (gameState g') = 300)
       /\ (maxPeriods g <= period (gameState g) ->
           at_home (scores (gameState g)) <> at_away (scores (gameState g)) ->
           status g' = final
           /\ period (gameState g') = period (gameState g)
           /\ gameTime (gameState g') = 0).
Proof.
  intros Hg Hc Hpos n. split.
  - intros k Hk.
    destruct (countdown_partial k a g Hg Hc) as (a' & Hrun & E); [lia|].
    destruct (engine_has_game _ _ _ _ _ _ E) as (g' & Hg').
    destruct (engine_game _ _ _ _ _ _ _ _ _ _ _ _ E Hg') as (Hst & _ & Hgs & _).
    exists a', g'. rewrite Hgs. repeat split; assumption.
  - destruct n as [|m] eqn:Hn; [lia|].
    destruct (countdown_total m a g Hg Hc) as (r & Hr & Hrun); [lia|].
    set (g0 := set_gameState (set_gameTime 0 (gameState g)) g) in Hr.
    destruct (handlePeriodEnd_engine (set_currentGame (Some g0) a) g0 eq_refl)
      as (a' & Ha' & E).
    rewrite Ha' in Hr. subst r.
    destruct (engine_has_game _ _ _ _ _ _ E) as (g' & Hg').
    exists a', g'. split; [exact Hrun|]. split; [exact Hg'|].
    assert (Hoff : clockInterval a' = false /\ shotClockInterval a' = false).
    { unfold engine in E. injection E as _ _ -> -> _. split; reflexivity. }
    split; [apply Hoff|]. split; [apply Hoff|].
    change (maxPeriods g0) with (maxPeriods g) in E.
    cbn [g0 gameState set_gameState settings stats shots analytics period scores
         set_gameTime] in E.
    destruct (Z.ltb_spec (period (gameState g)) (maxPeriods g)) as [Hlt|Hge];
      [|destruct (Z.eqb_spec (at_home (scores (gameState g)))
                             (at_away (scores (gameState g)))) as [Htie|Hne]];
      destruct (engine_game _ _ _ _ _ _ _ _ _ _ _ _ E Hg')
        as (Hst & _ & Hgs & Hss & _ & Han);
      rewrite Hgs, Hss, Han, Hst;
      repeat split; try reflexivity; intros; try lia; try contradiction;
      repeat split; reflexivity.
Qed.

Lemma period_counts_down_to_its_end_witness :
  exists a' g',
    runTimers (repeat GameTimer 718) runningGame = (1%nat, Ok a')
    /\ currentGame a' = Some g'
    /\ status g' = paused /\ period (gameState g') = 2
    /\ gameTime (gameState g') = 720 /\ shotClock (gameState g') = 21.
Proof.
  assert (H : exists g, currentGame runningGame = Some g
                        /\ gameTime (gameState g) = 718
                        /\ period (gameState g) = 1
                        /\ maxPeriods g = 4
                        /\ periodDuration (settings g) = 12
                        /\ shotClock (gameState g) = 21).
  { vm_compute. eexists. repeat apply conj; reflexivity. }
  destruct H as (g & Hg & Hgt & Hp & Hm & Hpd & Hsc).
  destruct (period_counts_down_to_its_end runningGame g Hg) as [_ Hend].
  - vm_compute; reflexivity.
  - rewrite Hgt. lia.
  - rewrite Hgt in Hend. change (Z.to_nat 718) with 718%nat in Hend.
    destruct Hend as (a' & g' & H1 & H2 & _ & _ & H5 & _ & _ & _ & H9 & _).
    exists a', g'. split; [exact H1|]. split; [exact H2|].
    destruct H9 as (Ha & Hb & Hc); [lia|].
    rewrite Ha, Hb, Hc, H5, Hp, Hpd, Hsc. repeat split.
Defined.

(** ** Configuration, then the clocks *)

Lemma engine_startGame a g :
  currentGame a = Some g ->
  engine (startGame a)
  = (Some (ready, settings g, gameState g, stats g, shots g, analytics g),
     isAdmin a, clockInterval a, shotClockInterval a, undoStack a).
Proof.
  intros Hg. unfold startGame. rewrite Hg.
  rewrite engine_updatePlayerSelects, engine_updateAllDisplays.
  set (a1 := addPlayByPlayEvent _ _).
  assert (E : engine a1
              = (Some (ready, settings g, gameState g, stats g, shots g, analytics g),
                 isAdmin a, clockInterval a, shotClockInterval a, undoStack a)).
  { unfold a1. rewrite engine_addPlayByPlayEvent. reflexivity. }
  destruct (courtInterface a1); exact E.
Qed.

(** The engine after [saveGameConfig] with a game-type card selected. *)
Lemma saveGameConfig_engine f a g ty :
  currentGame a = Some g -> cf_selectedType f = Some ty ->
  exists a', saveGameConfig f a = Ok a'
    /\ engine a'
       = (Some (if String.eqb ty "professional" then status g else ready,
                settings (configured f g), gameState (typed ty (configured f g)),
                stats g, shots g, analytics g),
          isAdmin a, clockInterval a, shotClockInterval a, undoStack a).
Proof.
  intros Hg Hty. unfold saveGameConfig. rewrite Hg, Hty.
  destruct (String.eqb ty "professional").
  - eexists. split; reflexivity.
  - eexists. split; [reflexivity|].
    exact (engine_startGame (set_currentGame (Some (typed ty (configured f g))) a)
             (typed ty (configured f g)) eq_refl).
Qed.

Lemma toggleGameClock_starts a g :
  currentGame a = Some g -> isAdmin a = true -> status g <> live ->
  toggleGameClock a = resumeGame a.
Proof.
  intros Hg Had Hst. unfold toggleGameClock. rewrite Hg, Had. cbn [negb].
  destruct (status g); try reflexivity. contradiction.
Qed.



(** The game clock's callback never touches the shot clock, and never
    starts an interval. *)
Lemma gameClockTick_shot_clock a g :
  currentGame a = Some g ->
  exists a' g', snd (gameClockTick a) = Ok a' /\ currentGame a' = Some g'
    /\ shotClock (gameState g') = shotClock (gameState g)
    /\ settings g' = settings g
    /\ (running ShotTimer a = false -> running ShotTimer a' = false).
Proof.
  intros Hg.
  destruct (Z.lt_trichotomy (gameTime (gameState g)) 1) as [H|[H|H]].
  - rewrite (gameClockTick_idle a g Hg) by lia. exists a, g. repeat split; auto.
  - rewrite (gameClockTick_period_end a g Hg H). cbn [snd].
    set (g0 := set_gameState (set_gameTime 0 (gameState g)) g).
    destruct (handlePeriodEnd_engine (set_currentGame (Some g0) a) g0 eq_refl)
      as (a' & Ha' & E).
    destruct (engine_has_game _ _ _ _ _ _ E) as (g' & Hg').
    exists a', g'. split; [exact Ha'|]. split; [exact Hg'|].
    assert (Hoff : running ShotTimer a = false -> running ShotTimer a' = false).
    { pose proof (strays_handlePeriodEnd _ _ Ha') as Hs.
      unfold strays in Hs. cbn [set_currentGame strayClockIntervals
        strayShotClockIntervals] in Hs. injection Hs as _ Hs.
      unfold engine in E. injection E as _ _ _ Hh _.
      cbn [running]. rewrite Hh, Hs. intros Hr.
      apply orb_false_iff in Hr as [_ Hr]. exact Hr. }
    destruct (period (gameState g0) <? maxPeriods g0);
      [|destruct (at_home (scores (gameState g0)) =? at_away (scores (gameState g0)))];
      destruct (engine_game _ _ _ _ _ _ _ _ _ _ _ _ E Hg') as (_ & Hse & Hgs & _);
      rewrite Hgs, Hse; repeat split; auto.
  - rewrite (gameClockTick_decrement a g Hg H). cbn [snd].
    do 2 eexists. split; [reflexivity|]. cbn. repeat split; auto.
Qed.

Lemma runTimers_shot_clock_off sched : forall a g,
  currentGame a = Some g -> running ShotTimer a = false ->
  exists a' g', snd (runTimers sched a) = Ok a' /\ currentGame a' = Some g'
    /\ shotClock (gameState g') = shotClock (gameState g)
    /\ running ShotTimer a' = false.
Proof.
  induction sched as [|t sched IH]; intros a g Hg Hoff.
  - exists a, g. repeat split; auto.
  - cbn [runTimers]. unfold fire. destruct t.
    + destruct (running GameTimer a).
      * destruct (gameClockTick_shot_clock a g Hg)
          as (a1 & g1 & H1 & Hg1 & Hsc1 & _ & Hoff1).
        destruct (gameClockTick a) as [eff r]. cbn [snd] in H1. subst r.
        destruct (IH a1 g1 Hg1 (Hoff1 Hoff)) as (a' & g' & Hr & Hg' & Hsc & Ho).
        destruct (runTimers sched a1) as [n r]. cbn [snd] in Hr |- *.
        exists a', g'. repeat split; auto. congruence.
      * destruct (IH a g Hg Hoff) as (a' & g' & Hr & Hg' & Hsc & Ho).
        destruct (runTimers sched a) as [n r]. cbn [snd] in Hr |- *.
        exists a', g'. repeat split; auto.
    + rewrite Hoff.
      destruct (IH a g Hg Hoff) as (a' & g' & Hr & Hg' & Hsc & Ho).
      destruct (runTimers sched a) as [n r]. cbn [snd] in Hr |- *.
      exists a', g'. repeat split; auto.
Qed.

Lemma strays_startGame a : strays (startGame a) = strays a.
Proof.
  unfold startGame. destruct (currentGame a) as [g|]; [|reflexivity].
  rewrite strays_updatePlayerSelects, strays_updateAllDisplays.
  set (a1 := addPlayByPlayEvent _ _).
  assert (E : strays a1 = strays a)
    by (unfold a1; now rewrite strays_addPlayByPlayEvent).
  destruct (courtInterface a1); exact E.
Qed.

Lemma strays_saveGameConfig f a a' :
  saveGameConfig f a = Ok a' -> strays a' = strays a.
Proof.
  unfold saveGameConfig. destruct (currentGame a) as [g|]; [|now intros [= <-]].
  destruct (cf_selectedType f) as [ty|]; [|discriminate].
  destruct (String.eqb ty "professional"); intros [= <-];
    [reflexivity | now rewrite strays_startGame].
Qed.

(** The stray intervals after [resumeGame]: one more of a kind when the
    handle of that kind was set. *)
Lemma resumeGame_strays a a' g :
  currentGame a = Some g -> resumeGame a = Ok a' ->
  strays a'
  = (if clockInterval a then S (strayClockIntervals a) else strayClockIntervals a,
     if shotClockEnabled (settings g) && shotClockInterval a
     then S (strayShotClockIntervals a) else strayShotClockIntervals a).
Proof.
  intros Hg. unfold resumeGame, onGame. rewrite Hg. cbn [andThen].
  set (a0 := addPlayByPlayEvent _ _).
  assert (E0 : engine a0
               = (Some (live, settings g, gameState g, stats g, shots g, analytics g),
                  isAdmin a, clockInterval a, shotClockInterval a, undoStack a)).
  { unfold a0. rewrite engine_addPlayByPlayEvent. reflexivity. }
  destruct (engine_has_game _ _ _ _ _ _ E0) as (g0 & Hg0).
  destruct (engine_game _ _ _ _ _ _ _ _ _ _ _ _ E0 Hg0) as (_ & Hse0 & _).
  assert (Hg1 : currentGame (startClockInterval a0) = Some g0).
  { unfold startClockInterval. destruct (clockInterval a0); exact Hg0. }
  rewrite Hg1, Hse0. intros [= <-].
  rewrite strays_updateAllDisplays.
  unfold startShotClockInterval, startClockInterval, strays.
  change (clockInterval a0) with (clockInterval a).
  destruct (shotClockEnabled (settings g)), (clockInterval a);
    cbn [shotClockInterval set_clockInterval set_strayClockIntervals andb];
    change (shotClockInterval a0) with (shotClockInterval a);
    destruct (shotClockInterval a); reflexivity.
Qed.

(** X14. A shot clock switched off in the configuration never runs, when
    no shot-clock interval is running as the configuration is saved. After
    [saveGameConfig] with the shot-clock box unchecked, on a session whose
    shot-clock timer does not fire (no handle and no stray interval), the
    shot clock keeps the value it had; starting the game clock starts the
    game clock's interval only, and whatever the order in which the timers
    then expire, every callback returns and the shot clock still shows
    that value. *)
Theorem disabled_shot_clock_never_runs (f : ConfigForm) (a : App) (g : Game)
    (ty : string) :
  currentGame a = Some g -> isAdmin a = true -> status g <> live ->
  running ShotTimer a = false ->
  cf_selectedType f = Some ty -> cf_shotClockEnabled f = false ->
  exists a1 a2,
    saveGameConfig f a = Ok a1 /\ toggleGameClock a1 = Ok a2
    /\ running GameTimer a2 = true /\ running ShotTimer a2 = false
    /\ forall sched, exists a' g',
         snd (runTimers sched a2) = Ok a' /\ currentGame a' = Some g'
         /\ shotClock (gameState g') = shotClock (gameState g)
         /\ running ShotTimer a' = false.
Proof.
  intros Hg Had Hst Hoff Hty Hdis.
  cbn [running] in Hoff. apply orb_false_iff in Hoff as [Hoff Hstray].
  destruct (saveGameConfig_engine f a g ty Hg Hty) as (a1 & Ha1 & E1).
  pose proof (strays_saveGameConfig _ _ _ Ha1) as S1.
  destruct (engine_has_game _ _ _ _ _ _ E1) as (g1 & Hg1).
  destruct (engine_game _ _ _ _ _ _ _ _ _ _ _ _ E1 Hg1)
    as (Hs1 & Hse1 & Hgs1 & _).
  assert (Hf1 : isAdmin a1 = true /\ shotClockInterval a1 = false).
  { unfold engine in E1. injection E1 as _ -> _ -> _. split; assumption. }
  destruct Hf1 as [Had1 Hoff1].
  assert (Hst1 : status g1 <> live).
  { rewrite Hs1. destruct (String.eqb ty "professional"); [exact Hst | discriminate]. }
  destruct (resumeGame_engine a1 g1 Hg1) as (a2 & Ha2 & E2).
  pose proof (resumeGame_strays a1 a2 g1 Hg1 Ha2) as S2.
  destruct (engine_has_game _ _ _ _ _ _ E2) as (g2 & Hg2).
  destruct (engine_game _ _ _ _ _ _ _ _ _ _ _ _ E2 Hg2)
    as (_ & _ & Hgs2 & _).
  assert (Hen : shotClockEnabled (settings g1) = false).
  { rewrite Hse1. exact Hdis. }
  rewrite Hen, Hoff1 in E2. rewrite Hen in S2. cbn [andb] in S2.
  assert (Hf2 : clockInterval a2 = true /\ shotClockInterval a2 = false).
  { unfold engine in E2. injection E2 as _ _ -> -> _. split; reflexivity. }
  assert (Hr2 : running GameTimer a2 = true /\ running ShotTimer a2 = false).
  { cbn [running]. destruct Hf2 as [-> ->]. split; [reflexivity|].
    unfold strays in S1, S2. injection S2 as _ ->. injection S1 as _ ->.
    exact Hstray. }
  assert (Hsc2 : shotClock (gameState g2) = shotClock (gameState g)).
  { rewrite Hgs2, Hgs1. unfold typed.
    cbn [gameState settings configured shotClockEnabled]. rewrite Hdis. reflexivity. }
  exists a1, a2. split; [exact Ha1|]. split.
  { rewrite (toggleGameClock_starts a1 g1 Hg1 Had1 Hst1). exact Ha2. }
  split; [apply Hr2|]. split; [apply Hr2|].
  intros sched.
  destruct (runTimers_shot_clock_off sched a2 g2 Hg2 (proj2 Hr2))
    as (a' & g' & Hr & Hg' & Hsc & Ho).
  exists a', g'. repeat split; auto. congruence.
Qed.

Lemma disabled_shot_clock_never_runs_witness :
  exists a1 a2,
    saveGameConfig basicForm createdGame = Ok a1 /\ toggleGameClock a1 = Ok a2
    /\ exists a' g',
         snd (runTimers [ShotTimer; GameTimer; ShotTimer; ShotTimer] a2) = Ok a'
         /\ currentGame a' = Some g' /\ shotClock (gameState g') = 24.
Proof.
  assert (H : exists g, currentGame createdGame = Some g
                        /\ status g = setup /\ shotClock (gameState g) = 24).
  { vm_compute. eexists. repeat apply conj; reflexivity. }
  destruct H as (g & Hg & Hs & Hsc).
  destruct (disabled_shot_clock_never_runs basicForm createdGame g "basic" Hg)
    as (a1 & a2 & H1 & H2 & _ & _ & Hrun).
  - vm_compute; reflexivity.
  - rewrite Hs. discriminate.
  - vm_compute; reflexivity.
  - reflexivity.
  - reflexivity.
  - exists a1, a2. split; [exact H1|]. split; [exact H2|].
    destruct (Hrun [ShotTimer; GameTimer; ShotTimer; ShotTimer])
      as (a' & g' & Hr & Hg' & Hsc' & _).
    exists a', g'. split; [exact Hr|]. split; [exact Hg'|]. congruence.
Defined.

(** ** Rosters *)

Lemma playerId_inj team team' n n' :
  teamName team ++ "_" ++ showZ n = teamName team' ++ "_" ++ showZ n' ->
  team = team' /\ n = n'.
Proof.
  unfold showZ.
  destruct team, team'; cbn; intros H; try discriminate;
    injection H as H; change (pretty n = pretty n') in H;
    apply (inj pretty) in H; auto.
Qed.

Lemma number_free_spec n l :
  existsb (fun p => p_number p =? n) l = false <-> ~ In n (map p_number l).
Proof.
  induction l as [|p l IH]; cbn; [tauto|].
  rewrite orb_false_iff, IH. destruct (Z.eqb_spec (p_number p) n); intuition congruence.
Qed.

Lemma roster_setSide team team' ti g :
  roster team' (set_teams (setSide team ti (teams g)) g)
  = if Team_eqb team' team then players ti else roster team' g.
Proof. destruct team, team'; reflexivity. Qed.

Lemma roster_set_stats team s g : roster team (set_stats s g) = roster team g.
Proof. reflexivity. Qed.

Lemma NoDup_map_filter {A B} (f : A -> B) (P : A -> bool) l :
  NoDup (map f l) -> NoDup (map f (List.filter P l)).
Proof.
  induction l as [|x l IH]; cbn; [auto|].
  intros H. apply NoDup_cons in H as [Hx Hl].
  destruct (P x); cbn; [|auto].
  apply NoDup_cons. split; [|auto].
  intros Hin. apply Hx. apply list_elem_of_In in Hin. apply list_elem_of_In.
  apply in_map_iff in Hin as (y & <- & Hy). apply List.filter_In in Hy as [Hy _].
  now apply in_map.
Qed.

Lemma rosterSound_createNewGame code gameName password a g :
  currentGame (createNewGame code gameName password a) = Some g ->
  password <> "" -> rosterSound g.
Proof.
  unfold createNewGame. destruct (String.eqb_spec password ""); [contradiction|].
  intros [= <-] _. split; [|split].
  - intros []; cbn; split; constructor.
  - intros [] p [].
  - intros k [s Hs]. cbn in Hs. now rewrite lookup_empty in Hs.
Qed.

Lemma addPlayer_sound team name number position a g :
  currentGame a = Some g -> rosterSound g ->
  exists a' g', addPlayer team name number position a = Ok a'
    /\ currentGame a' = Some g' /\ rosterSound g'.
Proof.
  intros Hg Hs. unfold addPlayer.
  destruct (String.eqb name ""); [now exists a, g|].
  destruct number as [n|]; [|now exists a, g].
  destruct ((n <? 0) || (99 <? n)); [now exists a, g|].
  rewrite Hg.
  destruct (existsb _ _) eqn:Hfree; [now exists a, g|].
  apply number_free_spec in Hfree.
  do 2 eexists. split; [reflexivity|]. split; [reflexivity|].
  destruct Hs as (Hteam & Hline & Hkey).
  split; [|split].
  - intros team'. rewrite roster_set_stats, roster_setSide.
    destruct (Team_eqb team' team) eqn:Ht; [|apply Hteam].
    assert (team' = team) as -> by (destruct team', team; congruence || discriminate).
    destruct (Hteam team) as [Hnd Hfmt]. cbn [players]. split.
    + rewrite map_app. cbn [map p_number].
      apply NoDup_app. split; [exact Hnd|]. split; [|apply NoDup_singleton].
      intros x Hx Hx'. apply list_elem_of_singleton in Hx'. subst x.
      apply Hfree. now apply list_elem_of_In.
    + apply Forall_app. split; [exact Hfmt|]. constructor; [reflexivity | constructor].
  - intros team' p. rewrite roster_set_stats, roster_setSide.
    cbn [stats set_stats]. intros Hin.
    apply lookup_insert_is_Some'. cbn [p_id].
    destruct (Team_eqb team' team) eqn:Ht.
    + cbn [players] in Hin. apply in_app_iff in Hin as [Hin|[<-|[]]].
      * right. apply (Hline team).
        now assert (team' = team) as <- by (destruct team', team; congruence || discriminate).
      * now left.
    + right. now apply (Hline team').
  - intros k Hk. cbn [stats set_stats p_id] in Hk.
    apply lookup_insert_is_Some' in Hk as [<-|Hk].
    + exists team. eexists. rewrite roster_set_stats, roster_setSide.
      replace (Team_eqb team team) with true by (now destruct team).
      cbn [players]. split; [apply in_app_iff; right; left; reflexivity | reflexivity].
    + destruct (Hkey k Hk) as (team' & p & Hin & Hid).
      exists team', p. split; [|exact Hid].
      rewrite roster_set_stats, roster_setSide.
      destruct (Team_eqb team' team) eqn:Ht; [|exact Hin].
      assert (team' = team) as <- by (destruct team', team; congruence || discriminate).
      cbn [players]. apply in_app_iff. now left.
Qed.

Lemma doRemovePlayer_sound team q a g :
  currentGame a = Some g -> rosterSound g -> In q (roster team g) ->
  exists a' g', doRemovePlayer team (p_id q) a = Ok a'
    /\ currentGame a' = Some g' /\ rosterSound g'
    /\ ~ In q (roster team g') /\ stats g' !! p_id q = None.
Proof.
  intros Hg (Hteam & Hline & Hkey) Hq. unfold doRemovePlayer. rewrite Hg.
  do 2 eexists. split; [reflexivity|]. split; [reflexivity|].
  assert (Hmine : forall team' p, In p (roster team' g) -> p_id p = p_id q ->
                                  team' = team).
  { intros team' p Hp Hid.
    destruct (Hteam team') as [_ Hf]. destruct (Hteam team) as [_ Hf'].
    rewrite Forall_forall in Hf, Hf'.
    rewrite (Hf p), (Hf' q) in Hid by (apply list_elem_of_In; assumption).
    now apply playerId_inj in Hid. }
  split; [split; [|split]|split].
  - intros team'. rewrite roster_set_stats, roster_setSide.
    destruct (Team_eqb team' team) eqn:Ht; [|apply Hteam].
    assert (team' = team) as -> by (destruct team', team; congruence || discriminate).
    destruct (Hteam team) as [Hnd Hfmt]. cbn [players]. split.
    + now apply NoDup_map_filter.
    + apply Forall_forall. intros p Hp. rewrite Forall_forall in Hfmt.
      apply Hfmt. apply list_elem_of_In. apply list_elem_of_In in Hp.
      now apply List.filter_In in Hp.
  - intros team' p. rewrite roster_set_stats, roster_setSide.
    cbn [stats set_stats]. intros Hin.
    destruct (Team_eqb team' team) eqn:Ht.
    + cbn [players] in Hin. apply List.filter_In in Hin as [Hin Hne].
      assert (team' = team) as -> by (destruct team', team; congruence || discriminate).
      rewrite lookup_delete_ne.
      * now apply (Hline team).
      * intros E. rewrite E, String.eqb_refl in Hne. discriminate.
    + rewrite lookup_delete_ne; [now apply (Hline team')|].
      intros E. symmetry in E. apply (Hmine team' p Hin) in E. subst team'.
      destruct team; discriminate.
  - intros k Hk. cbn [stats set_stats] in Hk.
    destruct (decide (p_id q = k)) as [E|E].
    { subst k. rewrite lookup_delete_eq in Hk. now destruct Hk. }
    rewrite lookup_delete_ne in Hk by exact E.
    destruct (Hkey k Hk) as (team' & p & Hin & Hid).
    exists team', p. split; [|exact Hid].
    rewrite roster_set_stats, roster_setSide.
    destruct (Team_eqb team' team) eqn:Ht; [|exact Hin].
    cbn [players]. apply List.filter_In. split.
    + now assert (team' = team) as <- by (destruct team', team; congruence || discriminate).
    + destruct (String.eqb_spec (p_id p) (p_id q)); [congruence | reflexivity].
  - rewrite roster_set_stats, roster_setSide.
    replace (Team_eqb team team) with true by (now destruct team).
    cbn [players]. intros Hin. apply List.filter_In in Hin as [_ Hne].
    rewrite String.eqb_refl in Hne. discriminate.
  - cbn [stats set_stats]. apply lookup_delete_eq.
Qed.

(** X15. The roster stays sound. On a game whose rosters are sound (no
    jersey number twice in a team, ids of the form [<team>_<number>], a
    statistics line for every player and a player for every line),
    [addPlayer] returns for every input and leaves the rosters sound,
    whether it adds the player or turns the input down; [doRemovePlayer]
    for a player of the team returns, takes the player off the roster and
    the line out of the statistics, and leaves the rosters sound. *)
Theorem roster_stays_sound (a : App) (g : Game) :
  currentGame a = Some g -> rosterSound g ->
  (forall team name number position,
     exists a' g', addPlayer team name number position a = Ok a'
       /\ currentGame a' = Some g' /\ rosterSound g')
  /\ (forall team q, In q (roster team g) ->
        exists a' g', doRemovePlayer team (p_id q) a = Ok a'
          /\ currentGame a' = Some g' /\ rosterSound g'
          /\ ~ In q (roster team g') /\ stats g' !! p_id q = None).
Proof.
  intros Hg Hs. split.
  - intros. now apply (addPlayer_sound _ _ _ _ a g).
  - intros. now apply (doRemovePlayer_sound _ _ a g).
Qed.

Lemma roster_stays_sound_witness :
  exists a' g', addPlayer home "A" (Some 1) "" createdGame = Ok a'
    /\ currentGame a' = Some g' /\ rosterSound g'.
Proof.
  assert (H : exists g, currentGame createdGame = Some g).
  { vm_compute. eexists. reflexivity. }
  destruct H as (g & Hg).
  refine (proj1 (roster_stays_sound createdGame g Hg _) home "A" (Some 1) "").
  apply (rosterSound_createNewGame "AB12CD" "" "secret" newApp g Hg). discriminate.
Defined.

Lemma filter_all {A} (P : A -> bool) l :
  (forall x, In x l -> P x = true) -> List.filter P l = l.
Proof.
  induction l as [|x l IH]; cbn; intros H; [reflexivity|].
  rewrite (H x) by now left. f_equal. apply IH. intros y Hy. apply H. now right.
Qed.

Lemma set_currentGame_same a g : currentGame a = Some g -> set_currentGame (Some g) a = a.
Proof. destruct a; cbn; intros ->; reflexivity. Qed.

Lemma set_currentGame_twice v w a :
  set_currentGame v (set_currentGame w a) = set_currentGame v a.
Proof. reflexivity. Qed.

(** A free jersey number gives an id nobody has, and no line is filed
    under it. *)
Lemma free_number_fresh_id team n g :
  rosterSound g -> ~ In n (map p_number (roster team g)) ->
  (forall p, In p (roster team g) -> p_id p <> teamName team ++ "_" ++ showZ n)
  /\ stats g !! (teamName team ++ "_" ++ showZ n) = None.
Proof.
  intros (Hteam & _ & Hkey) Hfree.
  assert (Hno : forall team' p, In p (roster team' g) ->
                                p_id p <> teamName team ++ "_" ++ showZ n).
  { intros team' p Hp Hid. destruct (Hteam team') as [_ Hf].
    rewrite Forall_forall in Hf.
    rewrite (Hf p) in Hid by (apply list_elem_of_In; assumption).
    apply playerId_inj in Hid as [-> <-]. apply Hfree. now apply in_map. }
  split; [apply Hno|].
  destruct (stats g !! _) as [s|] eqn:Hs; [|reflexivity].
  destruct (Hkey _ (ex_intro _ s Hs)) as (team' & p & Hp & Hid).
  now destruct (Hno team' p Hp).
Qed.

(** X16. Adding a player and removing that player again is a round trip.
    On a game with sound rosters, [addPlayer] with a name, a number from 0
    to 99 that is free in the team, and any position, adds the player
    [<team>_<number>] at the end of the team's roster with an all-zero
    line; [doRemovePlayer] for that id then gives back the application
    state of before the addition. *)
Theorem added_player_can_be_removed_again (a : App) (g : Game) (team : Team)
    (name : string) (n : Z) (position : string) :
  currentGame a = Some g -> rosterSound g ->
  name <> "" -> 0 <= n <= 99 -> ~ In n (map p_number (roster team g)) ->
  let pid := teamName team ++ "_" ++ showZ n in
  exists a1 g1,
    addPlayer team name (Some n) position a = Ok a1
    /\ currentGame a1 = Some g1
    /\ roster team g1 = (roster team g ++ [mkPlayer name n (orElse position "N/A") pid])%list
    /\ stats g1 !! pid = Some zeroStats
    /\ doRemovePlayer team pid a1 = Ok a.
Proof.
  intros Hg Hs Hname Hn Hfree pid.
  destruct (free_number_fresh_id team n g Hs Hfree) as [Hno Hline].
  unfold addPlayer.
  destruct (String.eqb_spec name ""); [contradiction|].
  replace ((n <? 0) || (99 <? n)) with false
    by (symmetry; apply orb_false_iff; split; apply Z.ltb_ge; lia).
  rewrite Hg. pose proof (proj2 (number_free_spec n _) Hfree) as Hex.
  unfold roster in Hex. cbv zeta. rewrite Hex.
  do 2 eexists. split; [reflexivity|]. split; [reflexivity|].
  split; [|split].
  - rewrite roster_set_stats, roster_setSide.
    replace (Team_eqb team team) with true by (now destruct team). reflexivity.
  - cbn [stats set_stats p_id]. apply lookup_insert_eq.
  - unfold doRemovePlayer. cbn [currentGame set_currentGame].
    rewrite set_currentGame_twice. f_equal.
    rewrite <- (set_currentGame_same a g Hg) at 2. f_equal. f_equal.
    cbn [stats set_stats set_teams teams p_id].
    fold pid. rewrite delete_insert_eq, (delete_id _ _ Hline).
    assert (Hfilter : List.filter (fun p => negb (String.eqb (p_id p) pid))
                        (players (getSide team (teams g))
                         ++ [mkPlayer name n (orElse position "N/A") pid])%list
                      = players (getSide team (teams g))).
    { rewrite List.filter_app. cbn [List.filter p_id]. rewrite String.eqb_refl.
      cbn [negb]. rewrite app_nil_r. apply filter_all. intros p Hp.
      destruct (String.eqb_spec (p_id p) pid) as [E|]; [|reflexivity].
      now destruct (Hno p Hp). }
    destruct g as [c nm pw ty st se [[hn hc hp] [wn wc wp]] gs ss sh pl an].
    destruct team; cbn in Hfilter |- *; rewrite Hfilter; reflexivity.
Qed.

Lemma added_player_can_be_removed_again_witness :
  exists a1 g1,
    addPlayer home "A" (Some 1) "" createdGame = Ok a1
    /\ currentGame a1 = Some g1
    /\ doRemovePlayer home "home_1" a1 = Ok createdGame.
Proof.
  assert (H : exists g, currentGame createdGame = Some g
                        /\ roster home g = []).
  { vm_compute. eexists. split; reflexivity. }
  destruct H as (g & Hg & Hr).
  destruct (added_player_can_be_removed_again createdGame g home "A" 1 "" Hg)
    as (a1 & g1 & H1 & H2 & _ & _ & H5).
  - apply (rosterSound_createNewGame "AB12CD" "" "secret" newApp g Hg). discriminate.
  - discriminate.
  - lia.
  - rewrite Hr. intros [].
  - exists a1, g1. split; [exact H1|]. split; [exact H2|]. exact H5.
Defined.

(** The first player of a list with a given id is the only one, when
    numbers are not repeated and ids follow the numbers. *)
Lemma findPlayer_finds team l q :
  Forall (fun p => p_id p = teamName team ++ "_" ++ showZ (p_number p)) l ->
  NoDup (map p_number l) -> In q l ->
  List.find (fun p => String.eqb (p_id p) (p_id q)) l = Some q.
Proof.
  induction l as [|p l IH]; cbn; intros Hf Hnd Hq; [destruct Hq|].
  apply Forall_cons in Hf as [Hp Hf]. apply NoDup_cons in Hnd as [Hx Hnd].
  destruct (String.eqb_spec (p_id p) (p_id q)) as [E|E].
  - destruct Hq as [->|Hq]; [reflexivity|]. exfalso.
    rewrite Forall_forall in Hf.
    rewrite Hp, (Hf q) in E by (apply list_elem_of_In; assumption).
    apply playerId_inj in E as [_ E]. apply Hx. rewrite E.
    apply list_elem_of_In. now apply in_map.
  - destruct Hq as [->|Hq]; [contradiction|]. now apply IH.
Qed.

(** X17. The two look-ups agree with the rosters. On a game with sound
    rosters, [getPlayerById] with the id of a player of a team returns that
    very player, [getPlayerTeam] returns that team, and the player has a
    statistics line, so that the player can be selected and recorded for;
    an id that no player has gives [null] from both. *)
Theorem lookups_agree_with_rosters (a : App) (g : Game) :
  currentGame a = Some g -> rosterSound g ->
  (forall team q, In q (roster team g) ->
     getPlayerById (p_id q) a = Some q
     /\ getPlayerTeam (p_id q) a = Some team
     /\ is_Some (stats g !! p_id q))
  /\ (forall pid, (forall team q, In q (roster team g) -> p_id q <> pid) ->
        getPlayerById pid a = None /\ getPlayerTeam pid a = None).
Proof.
  intros Hg (Hteam & Hline & Hkey). split.
  - intros team q Hq.
    destruct (Hteam team) as [Hnd Hf].
    pose proof (findPlayer_finds team _ q Hf Hnd Hq) as Hfind.
    split; [|split; [|now apply (Hline team)]].
    + unfold getPlayerById, findPlayer. rewrite Hg.
      destruct team; [unfold roster in Hfind; cbn in Hfind; now rewrite Hfind|].
      destruct (List.find _ (players (at_home (teams g)))) as [p|] eqn:Hh;
        [|exact Hfind].
      exfalso. apply find_some in Hh as [Hp E]. apply String.eqb_eq in E.
      destruct (Hteam home) as [_ Hfh]. rewrite Forall_forall in Hf, Hfh.
      rewrite (Hfh p), (Hf q) in E by (apply list_elem_of_In; assumption).
      apply playerId_inj in E as [E _]. discriminate.
    + unfold getPlayerTeam, findPlayer. rewrite Hg.
      destruct team; [unfold roster in Hfind; cbn in Hfind; now rewrite Hfind|].
      destruct (List.find _ (players (at_home (teams g)))) as [p|] eqn:Hh.
      * exfalso. apply find_some in Hh as [Hp E]. apply String.eqb_eq in E.
        destruct (Hteam home) as [_ Hfh]. rewrite Forall_forall in Hf, Hfh.
        rewrite (Hfh p), (Hf q) in E by (apply list_elem_of_In; assumption).
        apply playerId_inj in E as [E _]. discriminate.
      * unfold roster in Hfind; cbn in Hfind. now rewrite Hfind.
  - intros pid Hno.
    assert (Hnone : forall team, findPlayer pid (getSide team (teams g)) = None).
    { intros team. destruct (findPlayer pid _) as [p|] eqn:Hp; [|reflexivity].
      apply find_player_id in Hp as [E Hin]. now destruct (Hno team p Hin). }
    unfold getPlayerById, getPlayerTeam. rewrite Hg.
    pose proof (Hnone home) as Hh. pose proof (Hnone away) as Hw.
    cbn [getSide] in Hh, Hw. rewrite Hh, Hw. split; reflexivity.
Qed.

Lemma lookups_agree_with_rosters_witness :
  exists a' g' q,
    addPlayer away "B" (Some 2) "C" createdGame = Ok a'
    /\ currentGame a' = Some g'
    /\ q = mkPlayer "B" 2 "C" "away_2"
    /\ getPlayerById "away_2" a' = Some q
    /\ getPlayerTeam "away_2" a' = Some away.
Proof.
  assert (H : exists g, currentGame createdGame = Some g).
  { vm_compute. eexists. reflexivity. }
  destruct H as (g & Hg).
  assert (Hs : rosterSound g).
  { apply (rosterSound_createNewGame "AB12CD" "" "secret" newApp g Hg). discriminate. }
  destruct (addPlayer_sound away "B" (Some 2) "C" createdGame g Hg Hs)
    as (a' & g' & Ha' & Hg' & Hs').
  exists a', g', (mkPlayer "B" 2 "C" "away_2").
  split; [exact Ha'|]. split; [exact Hg'|]. split; [reflexivity|].
  assert (Hin : In (mkPlayer "B" 2 "C" "away_2") (roster away g')).
  { vm_compute in Ha'. injection Ha' as <-. injection Hg' as <-.
    vm_compute. now left. }
  destruct (proj1 (lookups_agree_with_rosters a' g' Hg' Hs') away _ Hin)
    as (H1 & H2 & _).
  split; [exact H1 | exact H2].
Defined.

(** ** The pickers and the display refresh *)

Lemma existsb_insertByNumber (P : Player -> bool) x l :
  existsb P (insertByNumber x l) = P x || existsb P l.
Proof.
  induction l as [|y l IH]; cbn; [reflexivity|].
  destruct (p_number x <=? p_number y); cbn; [reflexivity|].
  rewrite IH. destruct (P x), (P y); reflexivity.
Qed.

Lemma existsb_sortByNumber (P : Player -> bool) l :
  existsb P (sortByNumber l) = existsb P l.
Proof.
  induction l as [|x l IH]; cbn; [reflexivity|].
  now rewrite existsb_insertByNumber, IH.
Qed.

Lemma ascending_insertByNumber x l : ascending l -> ascending (insertByNumber x l).
Proof.
  induction l as [|y l IH]; cbn [insertByNumber]; [cbn; tauto|].
  intros [Hy Hl].
  destruct (Z.leb_spec (p_number x) (p_number y)) as [Hle|Hgt].
  - cbn [ascending]. repeat split; auto.
  - specialize (IH Hl). cbn [ascending]. split; [|exact IH].
    destruct l as [|z l]; cbn [insertByNumber]; [lia|].
    destruct (p_number x <=? p_number z); lia.
Qed.

Lemma ascending_sortByNumber l : ascending (sortByNumber l).
Proof.
  induction l as [|x l IH]; cbn [sortByNumber]; [exact I|].
  now apply ascending_insertByNumber.
Qed.

Lemma sortByNumber_ascending l : ascending l -> sortByNumber l = l.
Proof.
  induction l as [|x l IH]; [reflexivity|].
  intros [Hx Hl]. cbn [sortByNumber]. rewrite (IH Hl).
  destruct l as [|y l]; [reflexivity|]. cbn [insertByNumber].
  destruct (Z.leb_spec (p_number x) (p_number y)); [reflexivity | lia].
Qed.

Lemma sortByNumber_twice l : sortByNumber (sortByNumber l) = sortByNumber l.
Proof. apply sortByNumber_ascending, ascending_sortByNumber. Qed.

Lemma keepsValue_sortTeam v t t' g :
  keepsValue v t (sortTeam t' g) = keepsValue v t g.
Proof.
  unfold keepsValue, sortTeam. f_equal.
  destruct t, t'; cbn; try reflexivity; apply existsb_sortByNumber.
Qed.

Lemma keepsValue_empty t g : keepsValue "" t g = false.
Proof. reflexivity. Qed.

Lemma roster_sortTeam t t' g :
  roster t (sortTeam t' g)
  = if Team_eqb t t' then sortByNumber (roster t g) else roster t g.
Proof. destruct t, t'; reflexivity. Qed.

Lemma gameCore_sortTeam t g : gameCore (sortTeam t g) = gameCore g.
Proof. reflexivity. Qed.

Lemma g_type_sortTeam t g : g_type (sortTeam t g) = g_type g.
Proof. reflexivity. Qed.

(** One rebuild of the quick drop-down, and one of the court drop-down. *)
Lemma updateQuickPlayerDropdown_selection a g w :
  currentGame a = Some g -> quickPlayerSelect a = Some w ->
  let k := keepsValue w (selectedQuickTeam a) g in
  let a' := updateQuickPlayerDropdown a in
  currentGame a' = Some (sortTeam (selectedQuickTeam a) g)
  /\ selection a'
     = (selectedQuickTeam a, (if k then Some w else None),
        Some (if k then w else ""),
        selectedCourtTeam a, selectedCourtPlayer a, courtPlayerSelect a).
Proof.
  intros Hg Hw. cbv zeta. unfold updateQuickPlayerDropdown. rewrite Hg, Hw.
  destruct (keepsValue w (selectedQuickTeam a) g); split; reflexivity.
Qed.

Lemma updateCourtPlayerDropdown_selection a g v :
  currentGame a = Some g -> courtPlayerSelect a = Some v ->
  let k := keepsValue v (selectedCourtTeam a) g in
  let a' := updateCourtPlayerDropdown a in
  currentGame a' = Some (sortTeam (selectedCourtTeam a) g)
  /\ selection a'
     = (selectedQuickTeam a, selectedQuickPlayer a, quickPlayerSelect a,
        selectedCourtTeam a, (if k then Some v else None),
        Some (if k then v else "")).
Proof.
  intros Hg Hv. cbv zeta. unfold updateCourtPlayerDropdown. rewrite Hg, Hv.
  destruct (keepsValue v (selectedCourtTeam a) g); split; reflexivity.
Qed.

Lemma selectCourtTeam_selection t a g v :
  currentGame a = Some g -> courtPlayerSelect a = Some v ->
  let k := keepsValue v t g in
  let a' := selectCourtTeam t a in
  currentGame a' = Some (sortTeam t g)
  /\ selection a'
     = (selectedQuickTeam a, selectedQuickPlayer a, quickPlayerSelect a,
        t, (if k then Some v else None), Some (if k then v else "")).
Proof.
  intros Hg Hv. cbv zeta. unfold selectCourtTeam.
  destruct (updateCourtPlayerDropdown_selection (set_selectedCourtTeam t a) g v Hg Hv)
    as [H1 H2].
  cbn [selectedCourtTeam set_selectedCourtTeam selectedQuickTeam selectedQuickPlayer
       quickPlayerSelect] in H1, H2.
  destruct (courtInterface (updateCourtPlayerDropdown _)) eqn:Hc; [|now split].
  unfold updateActionDisplay. rewrite Hc. cbn [stateOf]. now split.
Qed.

(** X18. A display refresh puts both pickers back on the home team. On a
    professional game with both drop-downs on the page,
    [updateAllDisplays()] (every recording ends with it) leaves both team
    tabs on [home]; a picker keeps its player exactly when the drop-down's
    value is the id of a home player, and holds no player otherwise, so a
    player picked on the away tab is dropped by the refresh. The home
    roster is left sorted by jersey number, the away roster as it was, and
    the status, the settings, the game state, the statistics, the ledger
    and the analytics stay. *)
Theorem refresh_puts_pickers_on_home (a : App) (g : Game) (v w : string) :
  currentGame a = Some g -> g_type g = "professional" ->
  courtPlayerSelect a = Some v -> quickPlayerSelect a = Some w ->
  let a' := updateAllDisplays a in
  selectedCourtTeam a' = home /\ selectedQuickTeam a' = home
  /\ selectedCourtPlayer a' = kept v g
  /\ selectedQuickPlayer a' = kept w g
  /\ (keepsValue v home g = false -> getSelectedPlayer true a' = None)
  /\ (keepsValue w home g = false -> getSelectedPlayer false a' = None)
  /\ exists g', currentGame a' = Some g'
       /\ roster home g' = sortByNumber (roster home g)
       /\ roster away g' = roster away g
       /\ gameCore g' = gameCore g.
Proof.
  intros Hg Hty Hv Hw. cbv zeta.
  unfold updateAllDisplays, updateTeamDisplays. rewrite Hg, Hty, String.eqb_refl.
  unfold updatePlayerSelects, selectQuickTeam.
  destruct (updateQuickPlayerDropdown_selection (set_selectedQuickTeam home a) g w Hg Hw)
    as [G1 S1].
  cbn [selectedQuickTeam set_selectedQuickTeam selectedCourtTeam selectedCourtPlayer
       courtPlayerSelect] in G1, S1.
  set (a1 := updateQuickPlayerDropdown _) in *.
  assert (Hv1 : courtPlayerSelect a1 = Some v).
  { unfold selection in S1. injection S1 as _ _ _ _ _ ->. exact Hv. }
  destruct (selectCourtTeam_selection home a1 _ v G1 Hv1) as [G2 S2].
  set (a2 := selectCourtTeam home a1) in *.
  rewrite keepsValue_sortTeam in S2.
  assert (Hq2 : selectedQuickTeam a2 = home
                /\ quickPlayerSelect a2 = Some (if keepsValue w home g then w else "")).
  { unfold selection in S1, S2. injection S2 as -> _ -> _ _ _.
    injection S1 as -> _ -> _ _ _. split; reflexivity. }
  destruct Hq2 as [Ht2 Hw2].
  destruct (updateQuickPlayerDropdown_selection a2 _ _ G2 Hw2) as [G3 S3].
  set (a3 := updateQuickPlayerDropdown a2) in *.
  rewrite Ht2 in G3, S3. rewrite !keepsValue_sortTeam in S3.
  assert (Hc3 : selectedCourtTeam a3 = home
                /\ courtPlayerSelect a3 = Some (if keepsValue v home g then v else "")).
  { unfold selection in S2, S3. injection S3 as _ _ _ -> _ ->.
    injection S2 as _ _ _ -> _ ->. split; reflexivity. }
  destruct Hc3 as [Ht3 Hv3].
  destruct (updateCourtPlayerDropdown_selection a3 _ _ G3 Hv3) as [G4 S4].
  set (a4 := updateCourtPlayerDropdown a3) in *.
  rewrite Ht3 in G4, S4. rewrite !keepsValue_sortTeam in S4.
  assert (Hsel : selectedCourtTeam a4 = home /\ selectedQuickTeam a4 = home
                 /\ selectedCourtPlayer a4 = kept v g
                 /\ selectedQuickPlayer a4 = kept w g).
  { unfold selection in S3, S4. injection S4 as E1 E2 _ E4 E5 _.
    injection S3 as F1 F2 _ _ _ _. rewrite E4, E1, F1, E5, E2, F2. unfold kept.
    destruct (keepsValue v home g) eqn:Kv, (keepsValue w home g) eqn:Kw;
      rewrite ?Kv, ?Kw, ?keepsValue_empty; repeat split; reflexivity. }
  destruct Hsel as (H1 & H2 & H3 & H4).
  split; [exact H1|]. split; [exact H2|]. split; [exact H3|]. split; [exact H4|].
  split; [|split].
  - intros K. unfold getSelectedPlayer. rewrite H3. unfold kept. now rewrite K.
  - intros K. unfold getSelectedPlayer. rewrite H4. unfold kept. now rewrite K.
  - eexists. split; [exact G4|].
    rewrite !roster_sortTeam. cbn [Team_eqb].
    rewrite !sortByNumber_twice. repeat split.
Qed.

Lemma refresh_puts_pickers_on_home_witness :
  selectedCourtTeam awayPicked = away
  /\ getSelectedPlayer true awayPicked = Some (mkPlayer "B" 2 "N/A" "away_2")
  /\ selectedCourtTeam (updateAllDisplays awayPicked) = home
  /\ getSelectedPlayer true (updateAllDisplays awayPicked) = None.
Proof.
  split; [vm_compute; reflexivity|]. split; [vm_compute; reflexivity|].
  assert (H : exists g, currentGame awayPicked = Some g
                        /\ g_type g = "professional"
                        /\ keepsValue "away_2" home g = false).
  { vm_compute. eexists. repeat apply conj; reflexivity. }
  destruct H as (g & Hg & Hty & K).
  destruct (refresh_puts_pickers_on_home awayPicked g "away_2" "away_2" Hg Hty)
    as (H1 & _ & _ & _ & H5 & _).
  - vm_compute; reflexivity.
  - vm_compute; reflexivity.
  - split; [exact H1 | exact (H5 K)].
Defined.

(** ** More on the zones *)

Ltac zone_props :=
  rewrite ?andb_true_iff, ?orb_true_iff, ?Qleb_true, ?Qltb_true.

Lemma isAtFreeThrowLine_mirror court x y :
  court = FIBA_DIMS \/ court = NBA_DIMS ->
  CourtZoneDetector.isAtFreeThrowLine court (width court - x) y
  = CourtZoneDetector.isAtFreeThrowLine court x y.
Proof.
  intros [-> | ->]; apply eq_true_iff_eq; unfold_zone_tests; zone_props;
    split; intros H; repeat split; lra.
Qed.

Lemma inRestrictedArea_mirror hypot court x y :
  court = FIBA_DIMS \/ court = NBA_DIMS ->
  CourtZoneDetector.inRestrictedArea hypot court (width court - x) y
  = CourtZoneDetector.inRestrictedArea hypot court x y.
Proof.
  intros [-> | ->]; unfold_zone_tests; apply hypot_mirror; ring.
Qed.

Lemma isInPaint_mirror court x y :
  court = FIBA_DIMS \/ court = NBA_DIMS ->
  CourtZoneDetector.isInPaint court (width court - x) y
  = CourtZoneDetector.isInPaint court x y.
Proof.
  intros [-> | ->]; apply eq_true_iff_eq; unfold_zone_tests; zone_props;
    split; intros H; repeat split; lra.
Qed.

Lemma isCornerThree_mirror court x y :
  court = FIBA_DIMS \/ court = NBA_DIMS ->
  CourtZoneDetector.isCornerThree court (width court - x) y
  = CourtZoneDetector.isCornerThree court x y.
Proof.
  intros [-> | ->]; apply eq_true_iff_eq; unfold CourtZoneDetector.isCornerThree;
    cbn [FIBA_DIMS NBA_DIMS threePointY threePointLineX width]; zone_props;
    (split; intros [Hy [Hx|Hx]]; (split; [exact Hy|]); [right|left|right|left]; lra).
Qed.

Lemma beyondThreePointRadius_mirror hypot court x y :
  court = FIBA_DIMS \/ court = NBA_DIMS ->
  CourtZoneDetector.beyondThreePointRadius hypot court (width court - x) y
  = CourtZoneDetector.beyondThreePointRadius hypot court x y.
Proof.
  intros [-> | ->]; unfold_zone_tests; apply hypot_mirror; ring.
Qed.

(** X19. The zones are mirror images about the court's long axis. On the
    FIBA court and on the NBA court, a point and its mirror image about
    the line through the basket, [(width - x, y)], are classified alike:
    the key is centred, the basket sits on the axis and the two corners
    are cut at the same distance from the side lines. This is so whatever
    the implementation of [Math.hypot], which only sees the absolute
    values of the differences. *)
Theorem detectZone_mirror_symmetric (hypot : Hypot) (court : CourtDims) (x y : Q) :
  court = FIBA_DIMS \/ court = NBA_DIMS ->
  CourtZoneDetector.detectZone hypot court (width court - x) y
  = CourtZoneDetector.detectZone hypot court x y.
Proof.
  intros Hc. unfold CourtZoneDetector.detectZone.
  now rewrite (isAtFreeThrowLine_mirror court x y Hc),
    (inRestrictedArea_mirror hypot court x y Hc), (isInPaint_mirror court x y Hc),
    (isCornerThree_mirror court x y Hc),
    (beyondThreePointRadius_mirror hypot court x y Hc).
Qed.

Lemma detectZone_mirror_symmetric_witness :
  CourtZoneDetector.detectZone hypotDown FIBA_DIMS (1500 - 40) 100
  = CourtZoneDetector.detectZone hypotDown FIBA_DIMS 40 100
  /\ name (CourtZoneDetector.detectZone hypotDown FIBA_DIMS 40 100) = "corner-three".
Proof.
  split; [|reflexivity].
  apply (detectZone_mirror_symmetric hypotDown FIBA_DIMS 40 100). now left.
Defined.

Lemma hypot_le_bounds (dx dy r : Q) :
  (0 <= r)%Q -> (dx * dx + dy * dy <= r * r)%Q ->
  (- r <= dx)%Q /\ (dx <= r)%Q /\ (- r <= dy)%Q /\ (dy <= r)%Q.
Proof.
  intros Hr H. repeat split; apply Qnot_lt_le; intros Hlt; nra.
Qed.

(** X20. The restricted circle lies inside the key. On both courts, and
    whatever the implementation of [Math.hypot], every point that passes
    the restricted-area test of [detectZone] (the distance to the basket,
    as the implementation rounds it, is at most the restricted radius) is
    inside the key's rectangle and outside the free-throw band, and is
    classified [paint] with the detail [Restricted Area]; so the detail
    [In the Paint] is given to the rest of the key only. *)
Theorem restricted_area_lies_in_the_key (hypot : Hypot) (court : CourtDims)
    (x y : Q) :
  court = FIBA_DIMS \/ court = NBA_DIMS ->
  CourtZoneDetector.inRestrictedArea hypot court x y = true ->
  CourtZoneDetector.isInPaint court x y = true
  /\ CourtZoneDetector.isAtFreeThrowLine court x y = false
  /\ CourtZoneDetector.detectZone hypot court x y
     = {| name := "paint"; details := "Restricted Area" |}.
Proof.
  intros Hc Hr.
  assert (Hb : (court = FIBA_DIMS
                /\ (- (625 # 4) <= x - 750 <= 625 # 4)%Q
                /\ (- (625 # 4) <= y - 157.5 <= 625 # 4)%Q)
               \/ (court = NBA_DIMS
                   /\ (- 50 <= x - 250 <= 50)%Q /\ (- 50 <= y - 52.5 <= 50)%Q)).
  { destruct Hc as [-> | ->]; [left | right]; (split; [reflexivity|]);
      revert Hr; unfold_zone_tests; intros Hr; apply hypot_le_inside in Hr.
    - destruct (hypot_le_bounds (x - 750) (y - 157.5) (625 # 4)) as (H1 & H2 & H3 & H4);
        [lra | nra | auto].
    - destruct (hypot_le_bounds (x - 250) (y - 52.5) 50) as (H1 & H2 & H3 & H4);
        [lra | nra | auto]. }
  assert (Hft : CourtZoneDetector.isAtFreeThrowLine court x y = false).
  { destruct Hb as [(-> & Hx & Hy) | (-> & Hx & Hy)]; unfold_zone_tests;
      rewrite !andb_false_iff; left; left; left; apply Qltb_false; lra. }
  split; [|split; [exact Hft|]].
  - destruct Hb as [(-> & Hx & Hy) | (-> & Hx & Hy)]; unfold_zone_tests; zone_props;
      repeat split; lra.
  - unfold CourtZoneDetector.detectZone. now rewrite Hft, Hr.
Qed.

Lemma restricted_area_lies_in_the_key_witness :
  CourtZoneDetector.isInPaint NBA_DIMS 280 70 = true
  /\ CourtZoneDetector.detectZone hypotDown NBA_DIMS 280 70
     = {| name := "paint"; details := "Restricted Area" |}.
Proof.
  destruct (restricted_area_lies_in_the_key hypotDown NBA_DIMS 280 70) as (H1 & _ & H3).
  - now right.
  - reflexivity.
  - split; [exact H1 | exact H3].
Defined.

(** On the restricted circle itself the answer is the implementation's:
    at 35 across and 120 up from the FIBA basket the exact distance is the
    radius, 125, and the point is in the restricted area exactly when the
    implementation's [Math.hypot(35, 120)] is not above 125. *)
Example restricted_circle_edge :
  forall hypot,
    CourtZoneDetector.inRestrictedArea hypot FIBA_DIMS 785 277.5
    = Qleb (hypot 35 120)%Q 125.
Proof. intros hypot. reflexivity. Qed.

(** The same on the three-point arc of the NBA court, 66.5 across and 228
    up from the basket, at the radius 237.5. *)
Example three_point_arc_edge :
  forall hypot,
    CourtZoneDetector.beyondThreePointRadius hypot NBA_DIMS 316.5 280.5
    = Qltb 237.5 (hypot (133 # 2) 228)%Q.
Proof. intros hypot. reflexivity. Qed.

(** ** The radial menus *)

(** The six zone names. *)
Lemma detectZone_names hypot court x y :
  let z := name (CourtZoneDetector.detectZone hypot court x y) in
  z = "free-throw" \/ z = "paint" \/ z = "logo-shot" \/ z = "corner-three"
  \/ z = "three-point" \/ z = "mid-range".
Proof.
  cbv zeta. unfold CourtZoneDetector.detectZone.
  destruct (CourtZoneDetector.isAtFreeThrowLine court x y); [now left|].
  destruct (CourtZoneDetector.inRestrictedArea hypot court x y); [now right; left|].
  destruct (CourtZoneDetector.isInPaint court x y); [now right; left|].
  destruct (Qltb (logoShotStartY court) y); [now right; right; left|].
  destruct (CourtZoneDetector.isCornerThree court x y); [now right; right; right; left|].
  destruct (CourtZoneDetector.beyondThreePointRadius hypot court x y);
    [now right; right; right; right; left | now right; right; right; right; right].
Qed.

Ltac each_zone H :=
  destruct H as [H|[H|[H|[H|[H|H]]]]]; rewrite H.

Ltac each_option H :=
  repeat (destruct H as [H|H]; [subst|]); [..|destruct H].

(** X21. Every tap has its menus. For every court and every point, the
    primary menu [showSmartRadialMenu] shows is the one filed under the
    zone's own name, and the secondary menu is the zone's own in the paint
    and at mid-range and the mid-range one in every other zone: the
    ['default'] list is never shown. No look-up comes back [undefined].
    Every secondary menu has a Back button, which leads to the primary
    menu, and no More button; every other button sends an action that is a
    make, a miss, a rebound, an assist or a foul, and is styled
    accordingly. *)
Theorem every_tap_has_its_menus (hypot : Hypot) (court : CourtDims) (x y : Q) :
  let zone := name (CourtZoneDetector.detectZone hypot court x y) in
  (exists options,
     showSmartRadialMenu hypot court x y false = Some options
     /\ menuAt primaryActions zone = Some options)
  /\ (exists options,
        showSmartRadialMenu hypot court x y true = Some options
        /\ menuAt secondaryActions
             (if String.eqb zone "paint" then "paint" else "mid-range")
           = Some options
        /\ menuAt secondaryActions "default" <> Some options
        /\ (exists back, In back options /\ onclick back = ShowMenu false)
        /\ (forall o, In o options -> onclick o <> ShowMenu true))
  /\ (forall isSecondary options o action,
        showSmartRadialMenu hypot court x y isSecondary = Some options ->
        In o options -> onclick o = SendAction action ->
        let outcome := hd "" (split "-" action) in
        (startsWith outcome "make" = true /\ buttonClass o = "make")
        \/ (startsWith outcome "miss" = true /\ buttonClass o = "miss")
        \/ ((action = "rebound" \/ action = "assist" \/ action = "foul")
            /\ buttonClass o = "play")).
Proof.
  cbv zeta. unfold showSmartRadialMenu.
  pose proof (detectZone_names hypot court x y) as Hz. cbv zeta in Hz.
  split; [|split].
  - each_zone Hz; eexists; split; reflexivity.
  - each_zone Hz; eexists; (split; [reflexivity|]); (split; [reflexivity|]);
      (split; [discriminate|]);
      (split; [exists (mkOption "back" "Back" "↩️");
                split; [cbn; repeat (first [left; reflexivity | right])
                       | reflexivity]
                |]).
    all: intros o Ho; each_option Ho; discriminate.
  - intros isSecondary options o action.
    destruct isSecondary; each_zone Hz; cbn; intros Hm Ho Hc;
      injection Hm as <-; each_option Ho; cbn in Hc; try discriminate;
      injection Hc as <-; vm_compute; tauto.
Qed.

Lemma every_tap_has_its_menus_witness :
  name (CourtZoneDetector.detectZone hypotDown FIBA_DIMS 1400 600) = "three-point"
  /\ exists options,
       showSmartRadialMenu hypotDown FIBA_DIMS 1400 600 true = Some options
       /\ menuAt secondaryActions "mid-range" = Some options.
Proof.
  split; [reflexivity|].
  destruct (every_tap_has_its_menus hypotDown FIBA_DIMS 1400 600)
    as (_ & (options & H1 & H2 & _) & _).
  exists options. split; [exact H1 | exact H2].
Defined.

(** X22. A make is booked with the points of its zone. Whatever the court
    and the point, a make chosen from the primary menu shown there gives
    [handleNewCourtAction] a code from which the ledger entry gets the
    result [make] and the points of the zone: 1 at the free-throw line, 3
    in the three-point, corner-three and logo zones, 2 in the paint and at
    mid-range. A make chosen from a secondary menu is worth 2 points in
    every zone, the three-point zones included, where the mid-range menu
    stands in. *)
Theorem a_make_is_booked_with_the_zone_points (hypot : Hypot) (court : CourtDims)
    (x y : Q)
    (isSecondary : bool) (options : list MenuOption) (o : MenuOption)
    (action : string) (env : Env) (player : Player) (team : Team) (g : Game) :
  showSmartRadialMenu hypot court x y isSecondary = Some options ->
  In o options -> onclick o = SendAction action -> buttonClass o = "make" ->
  let entry := statEntry env player team action (x, y) g in
  a_type entry = "shot"
  /\ a_result entry = Some "make"
  /\ a_points entry
     = Some (if isSecondary then 2
             else zonePoints (name (CourtZoneDetector.detectZone hypot court x y))).
Proof.
  cbv zeta. unfold showSmartRadialMenu.
  pose proof (detectZone_names hypot court x y) as Hz. cbv zeta in Hz.
  destruct isSecondary; each_zone Hz; cbn; intros Hm Ho Hc Hb;
    injection Hm as <-; each_option Ho; cbn in Hc; try discriminate;
    injection Hc as <-; vm_compute in Hb; try discriminate;
    repeat split; reflexivity.
Qed.

Lemma a_make_is_booked_with_the_zone_points_witness :
  exists options o,
    showSmartRadialMenu hypotDown FIBA_DIMS 40 100 false = Some options
    /\ In o options /\ onclick o = SendAction "make3"
    /\ a_points (statEntry env0 (mkPlayer "A" 1 "N/A" "home_1") home "make3"
                           (40, 100)%Q
                           (mkGame "" "" "" "" live (mkSettings "" 0 0 0 false 0)
                                   (mkHomeAway (mkTeamInfo "" "" []) (mkTeamInfo "" "" []))
                                   (mkGameState 1 0 0 (mkHomeAway 0 0) (mkHomeAway 0 0)
                                                (mkHomeAway 0 0))
                                   ∅ [] [] zeroAnalytics))
       = Some 3.
Proof.
  exists [mkOption "make3" "Corner 3 ✓" "🎯"; mkOption "miss3" "Corner 3 ✗" "❌";
          mkOption "rebound" "Rebound" "🙌"; mkOption "more" "More..." "..."],
         (mkOption "make3" "Corner 3 ✓" "🎯").
  assert (Hm : showSmartRadialMenu hypotDown FIBA_DIMS 40 100 false
               = Some [mkOption "make3" "Corner 3 ✓" "🎯"; mkOption "miss3" "Corner 3 ✗" "❌";
                       mkOption "rebound" "Rebound" "🙌"; mkOption "more" "More..." "..."])
    by reflexivity.
  assert (Ho : In (mkOption "make3" "Corner 3 ✓" "🎯")
                  [mkOption "make3" "Corner 3 ✓" "🎯"; mkOption "miss3" "Corner 3 ✗" "❌";
                   mkOption "rebound" "Rebound" "🙌"; mkOption "more" "More..." "..."])
    by (left; reflexivity).
  split; [exact Hm|]. split; [exact Ho|]. split; [reflexivity|].
  exact (proj2 (proj2 (a_make_is_booked_with_the_zone_points hypotDown FIBA_DIMS 40 100
                         false _ _
                         "make3" env0 (mkPlayer "A" 1 "N/A" "home_1") home _
                         Hm Ho eq_refl eq_refl))).
Defined.

(** ** Overtime *)

Lemma nameAt_past (names : list string) (i : Z) :
  Z.of_nat (length names) <= i -> nameAt names i = None.
Proof.
  intros H. unfold nameAt. destruct (Z.ltb_spec i 0); [reflexivity|].
  apply lookup_ge_None_2. lia.
Qed.

(** X23. A tie after regulation goes to numbered overtimes. When the
    period that ends is the format's last regulation period or an overtime
    (period [maxPeriods + k - 1] with [k >= 1]) and the scores are level,
    [handlePeriodEnd] starts a period of 300 seconds, and [getPeriodName]
    calls the new period [OT] followed by [k]: the numbering of the
    overtimes starts at 1 right after the regulation periods, for quarters
    and for halves alike. *)
Theorem tied_game_goes_to_numbered_overtime (a : App) (g : Game) (k : Z) :
  currentGame a = Some g -> 1 <= k ->
  period (gameState g) = maxPeriods g + k - 1 ->
  at_home (scores (gameState g)) = at_away (scores (gameState g)) ->
  exists a' g',
    handlePeriodEnd a = Ok a' /\ currentGame a' = Some g'
    /\ status g' = paused /\ gameTime (gameState g') = 300
    /\ getPeriodName None a' = "OT" ++ showZ k.
Proof.
  intros Hg Hk Hp Htie.
  destruct (handlePeriodEnd_engine a g Hg) as (a' & Ha' & E).
  destruct (engine_has_game _ _ _ _ _ _ E) as (g' & Hg').
  destruct (Z.ltb_spec (period (gameState g)) (maxPeriods g)) as [Hlt|_]; [lia|].
  rewrite Htie, Z.eqb_refl in E.
  destruct (engine_game _ _ _ _ _ _ _ _ _ _ _ _ E Hg') as (Hst & Hse & Hgs & _).
  exists a', g'. split; [exact Ha'|]. split; [exact Hg'|].
  split; [exact Hst|]. split; [now rewrite Hgs|].
  unfold getPeriodName. rewrite Hg', Hgs, Hse.
  cbn [period set_gameTime set_period]. rewrite Hp.
  unfold maxPeriods.
  destruct (String.eqb (gameFormat (settings g)) "quarters").
  - rewrite nameAt_past by (cbn [length]; lia). f_equal. f_equal. lia.
  - rewrite nameAt_past by (cbn [length]; lia). f_equal. f_equal. lia.
Qed.

Lemma tied_game_goes_to_numbered_overtime_witness :
  exists a' g',
    handlePeriodEnd fourthQuarter = Ok a' /\ currentGame a' = Some g'
    /\ period (gameState g') = 5
    /\ getPeriodName None a' = "OT1".
Proof.
  assert (H : exists g, currentGame fourthQuarter = Some g
                        /\ period (gameState g) = 4 /\ maxPeriods g = 4
                        /\ at_home (scores (gameState g))
                           = at_away (scores (gameState g))).
  { vm_compute. eexists. repeat apply conj; reflexivity. }
  destruct H as (g & Hg & Hp & Hm & Htie).
  destruct (tied_game_goes_to_numbered_overtime fourthQuarter g 1 Hg)
    as (a' & g' & H1 & H2 & _ & _ & H5).
  - lia.
  - rewrite Hp, Hm. reflexivity.
  - exact Htie.
  - exists a', g'. split; [exact H1|]. split; [exact H2|]. split; [|exact H5].
    assert (E : option_map (fun g => period (gameState g))
                  (currentGame (stateOf (handlePeriodEnd fourthQuarter))) = Some 5)
      by (vm_compute; reflexivity).
    rewrite H1 in E. cbn [stateOf] in E. rewrite H2 in E. now injection E.
Defined.

(** X24. A second start without a stop leaves a clock nobody can stop.
    When the game clock's interval runs although the status is not [live]
    (as after [startGame] on a session whose clock was started during the
    set-up), the administrator's next [toggleGameClock] starts a second
    interval over the first one's handle, and the one after that pauses:
    the status is [paused] and both handles are cleared, but the first
    interval is still running, and its next expiry takes a second off the
    game clock of the paused game. *)
Theorem second_start_leaves_a_clock_running (a : App) (g : Game) :
  currentGame a = Some g -> isAdmin a = true -> status g <> live ->
  clockInterval a = true ->
  exists a1 a2 g2,
    toggleGameClock a = Ok a1 /\ toggleGameClock a1 = Ok a2
    /\ currentGame a2 = Some g2 /\ status g2 = paused
    /\ clockInterval a2 = false /\ shotClockInterval a2 = false
    /\ gameState g2 = gameState g
    /\ strayClockIntervals a2 = S (strayClockIntervals a)
    /\ running GameTimer a2 = true
    /\ (1 < gameTime (gameState g) ->
        exists a3 g3,
          fire GameTimer a2 = (Decremented, Ok a3)
          /\ currentGame a3 = Some g3 /\ status g3 = paused
          /\ gameTime (gameState g3) = gameTime (gameState g) - 1).
Proof.
  intros Hg Had Hst Hc.
  destruct (resumeGame_engine a g Hg) as (a1 & Ha1 & E1).
  pose proof (resumeGame_strays a a1 g Hg Ha1) as S1. rewrite Hc in S1.
  destruct (engine_has_game _ _ _ _ _ _ E1) as (g1 & Hg1).
  destruct (engine_game _ _ _ _ _ _ _ _ _ _ _ _ E1 Hg1)
    as (Hs1 & _ & Hgs1 & _).
  assert (Had1 : isAdmin a1 = true).
  { unfold engine in E1. injection E1 as _ -> _ _ _. exact Had. }
  destruct (pauseGame_engine a1 g1 Hg1) as (a2 & Ha2 & E2).
  pose proof (strays_pauseGame _ _ Ha2) as S2. rewrite S1 in S2.
  destruct (engine_has_game _ _ _ _ _ _ E2) as (g2 & Hg2).
  destruct (engine_game _ _ _ _ _ _ _ _ _ _ _ _ E2 Hg2)
    as (Hs2 & _ & Hgs2 & _).
  assert (Hstray : strayClockIntervals a2 = S (strayClockIntervals a)).
  { unfold strays in S2. now injection S2 as -> _. }
  assert (Hrun : running GameTimer a2 = true).
  { cbn [running]. rewrite Hstray. apply orb_true_r. }
  exists a1, a2, g2.
  split; [rewrite (toggleGameClock_starts a g Hg Had Hst); exact Ha1|].
  split.
  { unfold toggleGameClock. rewrite Hg1, Had1, Hs1. exact Ha2. }
  split; [exact Hg2|]. split; [exact Hs2|].
  unfold engine in E2. injection E2 as _ _ Hc2 Hsc2 _.
  split; [exact Hc2|]. split; [exact Hsc2|].
  split; [congruence|]. split; [exact Hstray|]. split; [exact Hrun|].
  intros Hgt. unfold fire. rewrite Hrun.
  rewrite (gameClockTick_decrement a2 g2 Hg2) by (rewrite Hgs2, Hgs1; exact Hgt).
  do 2 eexists. split; [reflexivity|]. split; [reflexivity|].
  cbn [status set_gameState gameState gameTime set_gameTime].
  split; [exact Hs2 | now rewrite Hgs2, Hgs1].
Qed.

Lemma second_start_leaves_a_clock_running_witness :
  option_map status (currentGame startedEarly) = Some ready
  /\ exists a1 a2 g2 a3 g3,
       toggleGameClock startedEarly = Ok a1 /\ toggleGameClock a1 = Ok a2
       /\ currentGame a2 = Some g2 /\ status g2 = paused
       /\ clockInterval a2 = false
       /\ fire GameTimer a2 = (Decremented, Ok a3)
       /\ currentGame a3 = Some g3 /\ gameTime (gameState g3) = 719.
Proof.
  split; [vm_compute; reflexivity|].
  assert (H : exists g, currentGame startedEarly = Some g
                        /\ status g = ready /\ gameTime (gameState g) = 720).
  { vm_compute. eexists. repeat apply conj; reflexivity. }
  destruct H as (g & Hg & Hs & Hgt).
  destruct (second_start_leaves_a_clock_running startedEarly g Hg)
    as (a1 & a2 & g2 & H1 & H2 & H3 & H4 & H5 & _ & _ & _ & _ & Hfire).
  - vm_compute; reflexivity.
  - rewrite Hs. discriminate.
  - vm_compute; reflexivity.
  - destruct Hfire as (a3 & g3 & F1 & F2 & _ & F4); [lia|].
    exists a1, a2, g2, a3, g3. rewrite Hgt in F4.
    repeat (split; [assumption|]). exact F4.
Defined.
